(** * mediaflow-proxy: the cache tiers and the MPD -> HLS translator

    A shallow embedding of
      - [mediaflow_proxy/utils/cache_utils.py]  (CacheEntry, LRUMemoryCache,
        HybridCache, AsyncMemoryCache, get_cached_init_segment, get_cached_mpd)
      - [mediaflow_proxy/mpd_processor.py]      (build_hls, build_hls_playlist)
    followed by the properties of the specification that were checked
    against it.

    Conventions of the embedding.
      - A Python [float] or [int] is a [pynum]: an exact rational, or one of
        the three non-finite floats.  Rounding of float arithmetic is not
        modelled; comparisons, [math.ceil] and [max] are exact on floats, so
        nothing the translator does depends on it.  Where the code formats
        a number as a float (the [extinf] of a segment), an [int] is told
        apart from a [float] ([pyval]) and its conversion [float(n)] is
        modelled with its rounding and its [OverflowError].  The sign of
        a float zero is not kept: [-0.0] is the number 0.
      - [time.time()] is an input of every operation ([now]): one reading
        per call of a public method.
      - An [OrderedDict] / [dict] is an association list in insertion order
        with pairwise distinct keys; the oldest item comes first.
      - An exception is a value of [exn]; code that can raise returns a
        [result].
      - The file tier is a finite map from file names (relative to
        [cache_dir]) to contents; the faults a call meets are an input. *)

From Stdlib Require Import ZArith QArith Qround Qminmax Qabs Lqa Lia Bool List String Ascii.
From Stdlib Require Import Strings.Byte.
From Stdlib Require Import DecimalString DecimalZ DecimalPos.
From stdpp Require Import gmap strings list.

Close Scope Q_scope.
Local Open Scope string_scope.
Local Open Scope list_scope.
Local Open Scope Z_scope.

Set Default Proof Using "Type".

(* ===================================================================== *)
(** * Part I: definitions                                                  *)
(* ===================================================================== *)

(** ** Python values the code inspects *)

Definition bytes := list byte.

(** Exceptions that the modelled code raises, catches or lets through.
    [DownloadError] is declared in [utils/http_utils.py] as a subclass of
    [Exception], so an [except Exception] handler catches every
    constructor below. *)
Inductive exn : Type :=
| DownloadError (status : Z) (message : string)
| JSONDecodeError
| KeyError (key : string)
| ValueError
| TypeError
| OverflowError
| FileNotFoundError
| OSError
| OtherException (name : string).

Inductive result (A : Type) : Type :=
| Ok (a : A)
| Raise (e : exn).
Arguments Ok {A} a.
Arguments Raise {A} e.

(** [result] is the error monad of the embedding: [x ← m; k] runs [k]
    on the value of [m] and passes an exception of [m] on. *)
#[global] Instance result_ret : MRet result := fun A a => Ok a.
#[global] Instance result_bind : MBind result := fun A B k m =>
  match m with Ok a => k a | Raise e => Raise e end.

(** [isinstance(e, DownloadError)] *)
Definition is_DownloadError (e : exn) : bool :=
  match e with DownloadError _ _ => true | _ => false end.

(** Python numbers ([int] and [float]). *)
Inductive pynum : Type :=
| Fin (q : Q)
| PosInf
| NegInf
| NaN.


Definition Qltb (a b : Q) : bool := negb (Qle_bool b a).

(** [a < b]; every comparison with [nan] is [False]. *)
Definition num_lt (a b : pynum) : bool :=
  match a, b with
  | NaN, _ | _, NaN => false
  | Fin x, Fin y => Qltb x y
  | NegInf, NegInf => false
  | NegInf, _ => true
  | _, PosInf => match a with PosInf => false | _ => true end
  | _, _ => false
  end.

Definition num_gt (a b : pynum) : bool := num_lt b a.

(** [a <= b] *)
Definition num_le (a b : pynum) : bool :=
  match a, b with
  | NaN, _ | _, NaN => false
  | Fin x, Fin y => Qle_bool x y
  | NegInf, _ => true
  | _, PosInf => true
  | _, _ => false
  end.

(** [a + b] *)
Definition num_add (a b : pynum) : pynum :=
  match a, b with
  | NaN, _ | _, NaN => NaN
  | Fin x, Fin y => Fin (x + y)%Q
  | PosInf, NegInf | NegInf, PosInf => NaN
  | PosInf, _ | _, PosInf => PosInf
  | NegInf, _ | _, NegInf => NegInf
  end.

(** Truth value of a number: zero is falsy, everything else (also [nan])
    is truthy. *)
Definition num_truthy (a : pynum) : bool :=
  match a with
  | Fin x => negb (Qeq_bool x 0)
  | _ => true
  end.

Definition num_of_Z (z : Z) : pynum := Fin (inject_Z z).

(** [math.ceil]: an [int] for a finite argument, [OverflowError] for an
    infinity, [ValueError] for [nan]. *)
Definition math_ceil (x : pynum) : result Z :=
  match x with
  | Fin q => Ok (Qceiling q)
  | PosInf | NegInf => Raise OverflowError
  | NaN => Raise ValueError
  end.

(** [max(xs)] of a non-empty list: the first element that no later
    element exceeds, as the builtin computes it with [>]. *)
Definition py_max (x : pynum) (xs : list pynum) : pynum :=
  fold_left (fun best y => if num_gt y best then y else best) xs x.

Definition str_of_Z (z : Z) : string := NilZero.string_of_int (Z.to_int z).

(** ** Ordered dictionaries *)

Section OrderedDict.
Context {V : Type}.

Definition odict := list (string * V).

Fixpoint od_get (k : string) (d : odict) : option V :=
  match d with
  | [] => None
  | (k', v) :: d' => if String.eqb k k' then Some v else od_get k d'
  end.

Definition od_mem (k : string) (d : odict) : bool :=
  match od_get k d with Some _ => true | None => false end.

(** [d.pop(k, None)]: the dictionary without [k]. *)
Fixpoint od_pop (k : string) (d : odict) : odict :=
  match d with
  | [] => []
  | (k', v) :: d' => if String.eqb k k' then d' else (k', v) :: od_pop k d'
  end.

(** [d[k] = v]: a present key keeps its position, a new key goes last. *)
Fixpoint od_setitem (k : string) (v : V) (d : odict) : odict :=
  match d with
  | [] => [(k, v)]
  | (k', v') :: d' =>
      if String.eqb k k' then (k, v) :: d' else (k', v') :: od_setitem k v d'
  end.

Definition od_keys (d : odict) : list string := map fst d.
Definition od_values (d : odict) : list V := map snd d.
End OrderedDict.
Arguments odict V : clear implicits.

(** ** cache_utils.py: CacheEntry and LRUMemoryCache *)

Record CacheEntry : Type := mkEntry {
  data : bytes;
  expires_at : pynum;
  access_count : pynum;
  last_access : pynum;
  size : Z
}.

Module LRUMemoryCache.

Record t : Type := mk {
  maxsize : Z;
  _cache : odict CacheEntry;
  _current_size : Z
}.

(** [__init__] *)
Definition init (maxsize : Z) : t :=
  {| maxsize := maxsize; _cache := []; _current_size := 0 |}.

Definition get (now : pynum) (key : string) (self : t)
  : option CacheEntry * t :=
  match od_get key (_cache self) with
  | Some entry =>
      let popped := od_pop key (_cache self) in
      if num_lt now (expires_at entry) then
        let entry' :=
          {| data := data entry; expires_at := expires_at entry;
             access_count := num_add (access_count entry) (num_of_Z 1);
             last_access := now; size := size entry |} in
        (Some entry',
         {| maxsize := maxsize self;
            _cache := od_setitem key entry' popped;
            _current_size := _current_size self |})
      else
        (None,
         {| maxsize := maxsize self;
            _cache := od_pop key popped;
            _current_size := _current_size self - size entry |})
  | None => (None, self)
  end.

(** The eviction loop of [set]:
    [while self._current_size + entry.size > self.maxsize and self._cache:
       _, removed = self._cache.popitem(last=False); ...] *)
Fixpoint make_space (entry_size maxsize : Z) (cache : odict CacheEntry)
    (current : Z) : odict CacheEntry * Z :=
  match cache with
  | [] => ([], current)
  | (_, removed_entry) :: rest =>
      if current + entry_size >? maxsize
      then make_space entry_size maxsize rest (current - size removed_entry)
      else (cache, current)
  end.

Definition set (key : string) (entry : CacheEntry) (self : t) : t :=
  let current0 :=
    match od_get key (_cache self) with
    | Some old_entry => _current_size self - size old_entry
    | None => _current_size self
    end in
  let '(cache1, current1) :=
    make_space (size entry) (maxsize self) (_cache self) current0 in
  {| maxsize := maxsize self;
     _cache := od_setitem key entry cache1;
     _current_size := current1 + size entry |}.

Definition remove (key : string) (self : t) : t :=
  match od_get key (_cache self) with
  | Some entry =>
      {| maxsize := maxsize self;
         _cache := od_pop key (_cache self);
         _current_size := _current_size self - size entry |}
  | None => self
  end.

(** What the store really holds: the sum of the [size] fields. *)
Definition sum_sizes (d : odict CacheEntry) : Z :=
  fold_right Z.add 0 (map (fun kv => size (snd kv)) d).

Definition stored_size (self : t) : Z := sum_sizes (_cache self).

(** The key that [popitem(last=False)] would take next. *)
Definition least_recent (self : t) : option string :=
  head (od_keys (_cache self)).

Definition most_recent (self : t) : option string :=
  last (od_keys (_cache self)).

(** A call of one of the three public methods. *)
Inductive op : Type :=
| Get (now : pynum) (key : string)
| Set_ (key : string) (entry : CacheEntry)
| Remove (key : string).

Definition step (self : t) (o : op) : t :=
  match o with
  | Get now key => snd (get now key self)
  | Set_ key entry => set key entry self
  | Remove key => remove key self
  end.

Definition run (ops : list op) (self : t) : t := fold_left step ops self.

(** Every entry inserted by [ops] fits the store on its own. *)
Definition inserts_fit (maxsize : Z) (ops : list op) : Prop :=
  Forall (fun o => match o with
                   | Set_ _ e => 0 <= size e <= maxsize
                   | _ => True
                   end) ops.

(** No [set] of [ops], run from [self], writes a key that is in the
    store at that moment. *)
Fixpoint no_overwrite (ops : list op) (self : t) : Prop :=
  match ops with
  | [] => True
  | o :: ops' =>
      match o with
      | Set_ key _ => od_get key (_cache self) = None
      | _ => True
      end /\ no_overwrite ops' (step self o)
  end.

(** The bookkeeping is right: no key twice, sizes are not negative,
    [_current_size] is the sum of the sizes and within [maxsize]. *)
Definition consistent (self : t) : Prop :=
  NoDup (od_keys (_cache self))
  /\ Forall (fun kv => 0 <= size (snd kv)) (_cache self)
  /\ _current_size self = stored_size self
  /\ stored_size self <= maxsize self.

End LRUMemoryCache.

(** ** hashlib.md5 (RFC 1321), on 32-bit words held in [Z] *)

Module MD5.

Definition mask32 : Z := 4294967295.

Definition add32 (a b : Z) : Z := Z.land (a + b) mask32.
Definition not32 (a : Z) : Z := Z.lxor a mask32.
Definition rotl32 (x c : Z) : Z :=
  Z.land (Z.lor (Z.shiftl x c) (Z.shiftr x (32 - c))) mask32.

Definition S : list Z :=
  [7; 12; 17; 22; 7; 12; 17; 22; 7; 12; 17; 22; 7; 12; 17; 22;
   5; 9; 14; 20; 5; 9; 14; 20; 5; 9; 14; 20; 5; 9; 14; 20;
   4; 11; 16; 23; 4; 11; 16; 23; 4; 11; 16; 23; 4; 11; 16; 23;
   6; 10; 15; 21; 6; 10; 15; 21; 6; 10; 15; 21; 6; 10; 15; 21].

(** [K[i] = floor(2^32 * abs(sin(i + 1)))] *)
Definition K : list Z :=
  [3614090360; 3905402710; 606105819; 3250441966;
   4118548399; 1200080426; 2821735955; 4249261313;
   1770035416; 2336552879; 4294925233; 2304563134;
   1804603682; 4254626195; 2792965006; 1236535329;
   4129170786; 3225465664; 643717713; 3921069994;
   3593408605; 38016083; 3634488961; 3889429448;
   568446438; 3275163606; 4107603335; 1163531501;
   2850285829; 4243563512; 1735328473; 2368359562;
   4294588738; 2272392833; 1839030562; 4259657740;
   2763975236; 1272893353; 4139469664; 3200236656;
   681279174; 3936430074; 3572445317; 76029189;
   3654602809; 3873151461; 530742520; 3299628645;
   4096336452; 1126891415; 2878612391; 4237533241;
   1700485571; 2399980690; 4293915773; 2240044497;
   1873313359; 4264355552; 2734768916; 1309151649;
   4149444226; 3174756917; 718787259; 3951481745].

(** [n] bytes of [x], least significant first. *)
Fixpoint le_bytes (n : nat) (x : Z) : list Z :=
  match n with
  | O => []
  | Datatypes.S n' => (x mod 256) :: le_bytes n' (x / 256)
  end.

Definition word_of_le (bs : list Z) : Z :=
  fold_right (fun b acc => b + 256 * acc) 0 bs.

Definition pad (msg : list Z) : list Z :=
  let len := Z.of_nat (length msg) in
  msg ++ [128] ++ repeat 0 (Z.to_nat ((55 - len) mod 64))
      ++ le_bytes 8 ((8 * len) mod 2 ^ 64).

Fixpoint words (n : nat) (block : list Z) : list Z :=
  match n with
  | O => []
  | Datatypes.S n' => word_of_le (firstn 4 block) :: words n' (skipn 4 block)
  end.

Definition state : Type := Z * Z * Z * Z.

Definition round (M : list Z) (st : state) (i : Z) : state :=
  let '(A, B, C, D) := st in
  let '(F, g) :=
    if i <? 16 then (Z.lor (Z.land B C) (Z.land (not32 B) D), i)
    else if i <? 32 then
      (Z.lor (Z.land D B) (Z.land (not32 D) C), (5 * i + 1) mod 16)
    else if i <? 48 then (Z.lxor B (Z.lxor C D), (3 * i + 5) mod 16)
    else (Z.lxor C (Z.lor B (not32 D)), (7 * i) mod 16) in
  let F' := add32 (add32 (add32 F A) (nth (Z.to_nat i) K 0))
                  (nth (Z.to_nat g) M 0) in
  (D, add32 B (rotl32 F' (nth (Z.to_nat i) S 0)), B, C).

Definition compress (st : state) (block : list Z) : state :=
  let '(a0, b0, c0, d0) := st in
  let '(A, B, C, D) :=
    fold_left (round (words 16 block)) (map Z.of_nat (seq 0 64)) st in
  (add32 a0 A, add32 b0 B, add32 c0 C, add32 d0 D).

Fixpoint blocks (n : nat) (msg : list Z) (st : state) : state :=
  match n with
  | O => st
  | Datatypes.S n' => blocks n' (skipn 64 msg) (compress st (firstn 64 msg))
  end.

Definition digest (msg : list Z) : list Z :=
  let padded := pad msg in
  let '(a, b, c, d) :=
    blocks (length padded / 64)%nat padded
           (1732584193, 4023233417, 2562383102, 271733878) in
  le_bytes 4 a ++ le_bytes 4 b ++ le_bytes 4 c ++ le_bytes 4 d.

Definition hex_digit (n : Z) : ascii :=
  nth (Z.to_nat n) (list_ascii_of_string "0123456789abcdef") "0"%char.

Definition hex_of_bytes (bs : list Z) : string :=
  string_of_list_ascii
    (flat_map (fun b => [hex_digit (b / 16); hex_digit (b mod 16)]) bs).

(** [hashlib.md5(key.encode()).hexdigest()] *)
Definition hexdigest (key : string) : string :=
  hex_of_bytes
    (digest (map (fun c => Z.of_N (N_of_ascii c)) (list_ascii_of_string key))).

End MD5.

(** ** The file tier *)

(** The faults one call meets in the file system.  [write_fails_after n]:
    the temporary file is created and the write raises once [n] bytes of
    the frame are in it. *)
Record io_faults : Type := mkFaults {
  open_read_fails : bool;
  (** [read_alloc_fails n]: the buffer for [f.read(n)] cannot be
      allocated, and the read raises [MemoryError] *)
  read_alloc_fails : Z -> bool;
  open_write_fails : bool;
  write_fails_after : option nat;
  rename_fails : bool;
  remove_fails : bool
}.

Definition no_faults : io_faults :=
  {| open_read_fails := false; read_alloc_fails := fun _ => false;
     open_write_fails := false;
     write_fails_after := None; rename_fails := false;
     remove_fails := false |}.

(** [f.read(n)] raises before it reads anything when [n] does not fit a C
    [ssize_t] ([OverflowError], from [2^63] on in a 64-bit build) or when
    its buffer cannot be allocated ([MemoryError]). *)
Definition read_raises (io : io_faults) (n : Z) : bool :=
  (2 ^ 63 <=? n) || read_alloc_fails io n.

(** [aiofiles.open(path, "rb")] followed by the reads: the whole content. *)
Definition fs_read (io : io_faults) (path : string) (dir : gmap string bytes)
  : result bytes :=
  if open_read_fails io then Raise OSError
  else match dir !! path with
       | Some content => Ok content
       | None => Raise FileNotFoundError
       end.

(** [aiofiles.os.remove(path)] *)
Definition fs_remove (io : io_faults) (path : string) (dir : gmap string bytes)
  : result (gmap string bytes) :=
  if remove_fails io then Raise OSError
  else match dir !! path with
       | Some _ => Ok (delete path dir)
       | None => Raise FileNotFoundError
       end.

(** [try: await aiofiles.os.remove(path) except: pass] *)
Definition fs_remove_quietly (io : io_faults) (path : string)
    (dir : gmap string bytes) : gmap string bytes :=
  match fs_remove io path dir with
  | Ok dir' => dir'
  | Raise _ => dir
  end.

(** [int.from_bytes(bs, "big")] *)
Definition int_from_bytes_big (bs : bytes) : Z :=
  fold_left (fun acc b => 256 * acc + Z.of_N (Byte.to_N b)) bs 0.

Definition byte_of_Z (z : Z) : byte :=
  match Byte.of_N (Z.to_N (z mod 256)) with
  | Some b => b
  | None => Byte.x00
  end.

(** [n.to_bytes(8, "big")] *)
Definition int_to_bytes8_big (n : Z) : bytes :=
  map (fun i => byte_of_Z (n / 256 ^ i)) [7; 6; 5; 4; 3; 2; 1; 0].

(** The JSON codec of the metadata block.  [json_dumps_metadata e c l] is
    [json.dumps({"expires_at": e, "access_count": c, "last_access": l}).encode()].
    [json_loads b] is [json.loads(b.decode())]: [None] when it raises,
    otherwise the numeric members of the decoded object (a subscript or a
    comparison on anything else raises, as a missing key does). *)
Class MetadataJson : Type := {
  json_dumps_metadata : pynum -> pynum -> pynum -> bytes;
  json_loads : bytes -> option (gmap string pynum)
}.

(** [ttl or default] *)
Definition ttl_or (ttl : option pynum) (default : pynum) : pynum :=
  match ttl with
  | Some t => if num_truthy t then t else default
  | None => default
  end.

Definition len (b : bytes) : Z := Z.of_nat (length b).

(** ** cache_utils.py: HybridCache *)

Module HybridCache.

Record t : Type := mk {
  cache_dir : string;
  ttl : Z;
  memory_cache : LRUMemoryCache.t;
  (** the files of [cache_dir], by name *)
  dir : gmap string bytes
}.

Definition with_memory (self : t) (m : LRUMemoryCache.t) : t :=
  {| cache_dir := cache_dir self; ttl := ttl self;
     memory_cache := m; dir := dir self |}.

Definition with_dir (self : t) (d : gmap string bytes) : t :=
  {| cache_dir := cache_dir self; ttl := ttl self;
     memory_cache := memory_cache self; dir := d |}.

(** [__init__]; [os.makedirs(exist_ok=True)] keeps the files already
    there. *)
Definition init (cache_dir_name : string) (ttl : Z) (max_memory_size : Z)
    (existing : gmap string bytes) : t :=
  {| cache_dir := cache_dir_name; ttl := ttl;
     memory_cache := LRUMemoryCache.init max_memory_size;
     dir := existing |}.

Definition _get_md5_hash (key : string) : string := MD5.hexdigest key.

(** [self.cache_dir / key], as a name inside [cache_dir]. *)
Definition _get_file_path (key : string) : string := key.

(** [file_path.with_suffix(".tmp")] for a name without a dot, which a
    hex digest is. *)
Definition with_suffix_tmp (file_path : string) : string :=
  file_path +:+ ".tmp".

(** [delete] does not hash [key]: it is [get] that calls it with a digest. *)
Definition delete (io : io_faults) (key : string) (self : t) : bool * t :=
  let self := with_memory self (LRUMemoryCache.remove key (memory_cache self)) in
  match fs_remove io (_get_file_path key) (dir self) with
  | Ok dir' => (true, with_dir self dir')
  | Raise FileNotFoundError => (true, self)
  | Raise _ => (false, self)
  end.

(** [f.read(n)] hands out the next [n] bytes of the file, or what is left
    of it, unless it raises for the size [n] ([read_raises]); every
    exception raised between the [open] and the update of the memory tier
    ends in one of the two [except] clauses, which both return
    [default]. *)
Definition get `{MetadataJson} (io : io_faults) (now : pynum)
    (key : string) (default : option bytes) (self : t)
  : option bytes * t :=
  let key := _get_md5_hash key in
  let '(entry, mem) := LRUMemoryCache.get now key (memory_cache self) in
  let self := with_memory self mem in
  match entry with
  | Some entry => (Some (data entry), self)
  | None =>
      match fs_read io (_get_file_path key) (dir self) with
      | Raise FileNotFoundError => (default, self)
      | Raise _ => (default, self)
      | Ok content =>
          let metadata_size := take 8 content in
          let metadata_length := int_from_bytes_big metadata_size in
          if read_raises io metadata_length then (default, self)
          else
          let metadata_bytes :=
            take (Z.to_nat metadata_length) (drop 8 content) in
          match json_loads metadata_bytes with
          | None => (default, self)
          | Some metadata =>
              match metadata !! "expires_at" with
              | None => (default, self)
              | Some expires =>
                  if num_lt expires now then
                    (default, snd (delete io key self))
                  else
                    let data :=
                      drop (Z.to_nat metadata_length) (drop 8 content) in
                    match metadata !! "access_count" with
                    | None => (default, self)
                    | Some count =>
                        let entry :=
                          {| data := data; expires_at := expires;
                             access_count := num_add count (num_of_Z 1);
                             last_access := now; size := len data |} in
                        (Some data,
                         with_memory self
                           (LRUMemoryCache.set key entry (memory_cache self)))
                    end
              end
          end
      end
  end.

Definition set `{MetadataJson} (io : io_faults) (now : pynum)
    (key : string) (data : bytes) (ttl_arg : option pynum) (self : t)
  : bool * t :=
  let expires_at := num_add now (ttl_or ttl_arg (num_of_Z (ttl self))) in
  let entry :=
    {| data := data; expires_at := expires_at;
       access_count := num_of_Z 0; last_access := now; size := len data |} in
  let key := _get_md5_hash key in
  let self := with_memory self (LRUMemoryCache.set key entry (memory_cache self)) in
  let file_path := _get_file_path key in
  let temp_path := with_suffix_tmp file_path in
  let metadata_bytes := json_dumps_metadata expires_at (num_of_Z 0) now in
  let metadata_size := int_to_bytes8_big (len metadata_bytes) in
  let frame := metadata_size ++ metadata_bytes ++ data in
  if open_write_fails io then
    (false, with_dir self (fs_remove_quietly io temp_path (dir self)))
  else
    match write_fails_after io with
    | Some n =>
        let dir1 := <[temp_path := take n frame]> (dir self) in
        (false, with_dir self (fs_remove_quietly io temp_path dir1))
    | None =>
        let dir1 := <[temp_path := frame]> (dir self) in
        if rename_fails io then
          (false, with_dir self (fs_remove_quietly io temp_path dir1))
        else
          (true, with_dir self (<[file_path := frame]> (base.delete temp_path dir1)))
    end.

(** The length that [get] reads from the first eight bytes of a file
    that holds [content]. *)
Definition metadata_length_of (content : bytes) : Z :=
  int_from_bytes_big (take 8 content).

(** The bytes that [get] hands to [json.loads] when the file holds
    [content]: the first eight bytes give the length of the block that
    follows them. *)
Definition metadata_bytes_of (content : bytes) : bytes :=
  take (Z.to_nat (int_from_bytes_big (take 8 content))) (drop 8 content).

(** The bytes that [get] returns as the payload of such a file. *)
Definition payload_of (content : bytes) : bytes :=
  drop (Z.to_nat (int_from_bytes_big (take 8 content))) (drop 8 content).

(** The file that a successful [set] leaves under the final name. *)
Definition frame_of `{MetadataJson} (now : pynum) (data : bytes)
    (ttl_arg : option pynum) (self : t) : bytes :=
  let expires_at := num_add now (ttl_or ttl_arg (num_of_Z (ttl self))) in
  let metadata_bytes := json_dumps_metadata expires_at (num_of_Z 0) now in
  int_to_bytes8_big (len metadata_bytes) ++ metadata_bytes ++ data.

End HybridCache.

(** ** cache_utils.py: AsyncMemoryCache *)

Module AsyncMemoryCache.

Record t : Type := mk { memory_cache : LRUMemoryCache.t }.

Definition init (max_memory_size : Z) : t :=
  {| memory_cache := LRUMemoryCache.init max_memory_size |}.

Definition get (now : pynum) (key : string) (default : option bytes)
    (self : t) : option bytes * t :=
  let '(entry, mem) := LRUMemoryCache.get now key (memory_cache self) in
  (match entry with Some entry => Some (data entry) | None => default end,
   {| memory_cache := mem |}).

Definition set (now : pynum) (key : string) (data : bytes)
    (ttl : option pynum) (self : t) : bool * t :=
  let expires_at := num_add now (ttl_or ttl (num_of_Z 3600)) in
  let entry :=
    {| data := data; expires_at := expires_at;
       access_count := num_of_Z 0; last_access := now; size := len data |} in
  (true, {| memory_cache := LRUMemoryCache.set key entry (memory_cache self) |}).

Definition delete (key : string) (self : t) : bool * t :=
  (true, {| memory_cache := LRUMemoryCache.remove key (memory_cache self) |}).

End AsyncMemoryCache.

(** ** The parsed manifest consumed by mpd_processor.py *)

(** The value under a segment's ["extinf"] key: a [float], an [int] (a
    [bool] is an [int] too: [True] is 1), a [str] or [None]. *)
Inductive pyval : Type :=
| PNum (x : pynum)
| PInt (z : Z)
| PStr (s : string)
| PNone.

(** An attribute that is only interpolated into the output. *)
Inductive pyattr : Type :=
| AInt (z : Z)
| AStr (s : string).

Definition attr_str (a : pyattr) : string :=
  match a with AInt z => str_of_Z z | AStr s => s end.

(** A segment dict.  [media] is read without a guard; the other keys are
    read through [in] / [.get], so they may be missing. *)
Record Segment : Type := mkSegment {
  media : string;
  extinf : option pyval;
  number : option Z;
  hls_media_sequence_num : option Z;
  program_date_time : option string
}.

Record Profile : Type := mkProfile {
  id : string;
  mimeType : string;
  bandwidth : pyattr;
  width : pyattr;
  height : pyattr;
  codecs : pyattr;
  frameRate : pyattr;
  lang : option string;
  initUrl : string;
  segments : list Segment
}.

Record MpdDict : Type := mkMpd {
  isLive : bool;
  minimumUpdatePeriod : option pynum;
  profiles : list Profile
}.

(** The inbound request: [dict(request.query_params)], and
    [str(request.url_for(name))]. *)
Record Request : Type := mkRequest {
  query_params : odict string;
  url_for : string -> string
}.

(** What the translator calls in [utils/http_utils.py] and in the web
    framework. *)
Class HttpUtils : Type := {
  get_original_scheme : Request -> string;
  (** [str(url.replace(scheme=s))] *)
  url_replace_scheme : string -> string -> string;
  (** [encode_mediaflow_proxy_url(url, query_params=q,
        encryption_handler=encryption_handler if e else None)] *)
  encode_mediaflow_proxy_url : string -> odict string -> bool -> string
}.

(** ** Small pieces of Python used by the translator *)

(** [needle in hay] on strings *)
Fixpoint str_in (needle hay : string) : bool :=
  if String.prefix needle hay then true
  else match hay with
       | EmptyString => false
       | String _ hay' => str_in needle hay'
       end.

Definition str_truthy (s : string) : bool :=
  match s with EmptyString => false | _ => true end.

(** Truth value of [d.get(k, False)] / [d.pop(k, False)] on a dict of
    strings. *)
Definition opt_truthy (o : option string) : bool :=
  match o with Some s => str_truthy s | None => false end.

(** [x or ""] *)
Definition or_empty (o : option string) : string :=
  match o with Some s => s | None => "" end.

Definition nl : string := String "010"%char EmptyString.

(** The double quote character, as a string. *)
Definition dq : string := String "034"%char EmptyString.

(** ["\n".join(hls)] *)
Definition join_lines (hls : list string) : string := String.concat nl hls.

(** Round to the nearest integer, ties to even. *)
Definition round_half_even (q : Q) : Z :=
  let n := Qfloor q in
  let r := (q - inject_Z n)%Q in
  match (r ?= 1 # 2)%Q with
  | Lt => n
  | Gt => n + 1
  | Eq => if Z.even n then n else n + 1
  end.

Definition pad3 (n : Z) : string :=
  let s := str_of_Z n in
  if n <? 10 then "00" +:+ s else if n <? 100 then "0" +:+ s else s.

(** The least magnitude of an [int] that [float()] refuses: half-way
    between the largest double, [2^1024 - 2^971], and [2^1024]. *)
Definition float_overflow_bound : Z := 2 ^ 1024 - 2 ^ 970.

(** [float(z)] for an [int]: the nearest number with 53 significant bits,
    ties to even, and [OverflowError] when that is beyond the largest
    double.  An [int] of at least 2^53 has [Z.log2 z - 52] bits too many. *)
Definition float_of_int (z : Z) : result Q :=
  let a := Z.abs z in
  let e := Z.max 0 (Z.log2 a - 52) in
  let m := round_half_even (a # Z.to_pos (2 ^ e)) in
  let v := m * 2 ^ e in
  if 2 ^ 1024 <=? v then Raise OverflowError
  else Ok (inject_Z (Z.sgn z * v)).

(** [f"{x:.3f}"] for a [float] *)
Definition format_3f (x : pynum) : string :=
  match x with
  | Fin q =>
      let m := Z.abs (round_half_even (q * inject_Z 1000)%Q) in
      (if Qltb q 0 then "-" else "")
        +:+ str_of_Z (m / 1000) +:+ "." +:+ pad3 (m mod 1000)
  | PosInf => "inf"
  | NegInf => "-inf"
  | NaN => "nan"
  end.

(** [f"{segment['extinf']:.3f}"]: an [int] is converted with [float()]
    before it is formatted. *)
Definition format_extinf (s : Segment) : result string :=
  match extinf s with
  | None => Raise (KeyError "extinf")
  | Some (PNum x) => Ok (format_3f x)
  | Some (PInt z) => x ← float_of_int z; Ok (format_3f (Fin x))
  | Some (PStr _) => Raise ValueError
  | Some PNone => Raise TypeError
  end.

(** [d.update({k1: v1, ...})] *)
Definition od_update {V} (kvs : list (string * V)) (d : odict V) : odict V :=
  fold_left (fun d kv => od_setitem (fst kv) (snd kv) d) kvs d.

(** ** mpd_processor.py: build_hls and build_hls_playlist *)

Section Translator.
Context `{HttpUtils}.

(** The two buckets and the carried query dict after the first loop of
    [build_hls] has run over [ps]. *)
Record buckets : Type := mkBuckets {
  video_profiles : odict (Profile * string);
  audio_profiles : odict (Profile * string);
  carried_query : odict string
}.

Definition bucket_step (proxy_url : string) (has_encrypted : bool)
    (key_id key : option string) (b : buckets) (profile : Profile)
  : buckets :=
  let query_params :=
    od_update [("profile_id", id profile);
               ("key_id", or_empty key_id);
               ("key", or_empty key)] (carried_query b) in
  let playlist_url :=
    encode_mediaflow_proxy_url proxy_url query_params has_encrypted in
  if str_in "video" (mimeType profile) then
    {| video_profiles :=
         od_setitem (id profile) (profile, playlist_url) (video_profiles b);
       audio_profiles := audio_profiles b;
       carried_query := query_params |}
  else if str_in "audio" (mimeType profile) then
    {| video_profiles := video_profiles b;
       audio_profiles :=
         od_setitem (id profile) (profile, playlist_url) (audio_profiles b);
       carried_query := query_params |}
  else
    {| video_profiles := video_profiles b;
       audio_profiles := audio_profiles b;
       carried_query := query_params |}.

Definition bucket_profiles (proxy_url : string) (has_encrypted : bool)
    (key_id key : option string) (query_params : odict string)
    (ps : list Profile) : buckets :=
  fold_left (bucket_step proxy_url has_encrypted key_id key) ps
    {| video_profiles := []; audio_profiles := [];
       carried_query := query_params |}.

Definition audio_line (i : nat) (pu : Profile * string) : string :=
  let '(profile, playlist_url) := pu in
  let is_default := if Nat.eqb i 0 then "YES" else "NO" in
  "#EXT-X-MEDIA:TYPE=AUDIO,GROUP-ID=" +:+ dq +:+ "audio" +:+ dq
    +:+ ",NAME=" +:+ dq +:+ id profile +:+ dq
    +:+ ",DEFAULT=" +:+ is_default +:+ ",AUTOSELECT=" +:+ is_default
    +:+ ",LANGUAGE=" +:+ dq +:+ default "und" (lang profile) +:+ dq
    +:+ ",URI=" +:+ dq +:+ playlist_url +:+ dq.

Definition video_lines (pu : Profile * string) : list string :=
  let '(profile, playlist_url) := pu in
  ["#EXT-X-STREAM-INF:BANDWIDTH=" +:+ attr_str (bandwidth profile)
     +:+ ",RESOLUTION=" +:+ attr_str (width profile) +:+ "x"
     +:+ attr_str (height profile)
     +:+ ",CODECS=" +:+ dq +:+ attr_str (codecs profile) +:+ dq
     +:+ ",FRAME-RATE=" +:+ attr_str (frameRate profile)
     +:+ ",AUDIO=" +:+ dq +:+ "audio" +:+ dq;
   playlist_url].

(** The buckets that the first loop of [build_hls] leaves. *)
Definition master_buckets (mpd_dict : MpdDict) (request : Request)
    (key_id key : option string) : buckets :=
  let has_encrypted := opt_truthy (od_get "has_encrypted" (query_params request)) in
  let query_params := od_pop "has_encrypted" (query_params request) in
  let proxy_url :=
    url_replace_scheme (url_for request "playlist_endpoint")
                       (get_original_scheme request) in
  bucket_profiles proxy_url has_encrypted key_id key query_params
    (profiles mpd_dict).

(** The list [hls] of [build_hls] just before the join. *)
Definition build_hls_lines (mpd_dict : MpdDict) (request : Request)
    (key_id key : option string) : list string :=
  let hls := ["#EXTM3U"; "#EXT-X-VERSION:6"] in
  let b := master_buckets mpd_dict request key_id key in
  hls ++ imap audio_line (od_values (audio_profiles b))
      ++ flat_map video_lines (od_values (video_profiles b)).

Definition build_hls (mpd_dict : MpdDict) (request : Request)
    (key_id key : option string) : string :=
  join_lines (build_hls_lines mpd_dict request key_id key).

(** ** mpd_processor.py: build_hls_playlist *)

(** [[f["extinf"] for f in segments
      if "extinf" in f and isinstance(f["extinf"], (float, int))]].
    [max] and [math.ceil] take an [int] as the number it is, without
    converting it. *)
Definition extinf_values (segments : list Segment) : list pynum :=
  omap (fun f => match extinf f with
                 | Some (PNum x) => Some x
                 | Some (PInt z) => Some (num_of_Z z)
                 | _ => None
                 end) segments.

(** The body of [if index == 0:]: the lines it appends to [hls]. *)
Definition playlist_headers (mpd_dict : MpdDict) (segments : list Segment)
  : result (list string) :=
  st ← match segments with
       | [] => Ok (0, 5)
       | first :: _ =>
           let sequence :=
             default (default 0 (number first))
                     (hls_media_sequence_num first) in
           target_duration ←
             match extinf_values segments with
             | [] => Ok 5
             | x :: xs => math_ceil (py_max x xs)
             end;
           Ok (sequence, target_duration)
       end;
  let '(sequence, target_duration) := st in
  Ok ["#EXT-X-TARGETDURATION:" +:+ str_of_Z target_duration;
      "#EXT-X-MEDIA-SEQUENCE:" +:+ str_of_Z sequence;
      if isLive mpd_dict then "#EXT-X-PLAYLIST-TYPE:EVENT"
      else "#EXT-X-PLAYLIST-TYPE:VOD"].

(** [{k: v for k, v in d.items() if v is not None}] *)
Definition drop_none (d : list (string * option string)) : odict string :=
  omap (fun kv => match snd kv with
                  | Some v => Some (fst kv, v)
                  | None => None
                  end) d.

(** One iteration of [for segment in segments:]. *)
Definition segment_lines (mpd_dict : MpdDict) (request : Request)
    (proxy_url : string) (profile : Profile) (segment : Segment)
  : result (list string) :=
  let date_time :=
    if isLive mpd_dict && opt_truthy (program_date_time segment)
    then ["#EXT-X-PROGRAM-DATE-TIME:" +:+ or_empty (program_date_time segment)]
    else [] in
  duration ← format_extinf segment;
  let segment_url_query_params :=
    drop_none
      [("init_url", Some (initUrl profile));
       ("segment_url", Some (media segment));
       ("mime_type", Some (mimeType profile));
       ("key_id", od_get "key_id" (query_params request));
       ("key", od_get "key" (query_params request));
       ("api_password", od_get "api_password" (query_params request))] in
  let current_has_encrypted_flag :=
    opt_truthy (od_get "has_encrypted" (query_params request)) in
  Ok (date_time
        ++ ["#EXTINF:" +:+ duration +:+ ",";
            encode_mediaflow_proxy_url proxy_url segment_url_query_params
              current_has_encrypted_flag]).

Fixpoint segments_lines (mpd_dict : MpdDict) (request : Request)
    (proxy_url : string) (profile : Profile) (segments : list Segment)
  : result (list string) :=
  match segments with
  | [] => Ok []
  | segment :: rest =>
      here ← segment_lines mpd_dict request proxy_url profile segment;
      more ← segments_lines mpd_dict request proxy_url profile rest;
      Ok (here ++ more)
  end.

(** [for index, profile in enumerate(profiles):], from [index] on. *)
Fixpoint profiles_lines (mpd_dict : MpdDict) (request : Request)
    (proxy_url : string) (index : nat) (profiles : list Profile)
  : result (list string) :=
  match profiles with
  | [] => Ok []
  | profile :: rest =>
      match segments profile with
      | [] => profiles_lines mpd_dict request proxy_url (S index) rest
      | _ :: _ =>
          headers ← (if Nat.eqb index 0
                     then playlist_headers mpd_dict (segments profile)
                     else Ok []);
          body ← segments_lines mpd_dict request proxy_url profile
                   (segments profile);
          more ← profiles_lines mpd_dict request proxy_url (S index) rest;
          Ok (headers ++ body ++ more)
      end
  end.

(** The list [hls] of [build_hls_playlist] just before the join. *)
Definition build_hls_playlist_lines (mpd_dict : MpdDict)
    (profiles : list Profile) (request : Request) : result (list string) :=
  let hls := ["#EXTM3U"; "#EXT-X-VERSION:6"] in
  let proxy_url := url_for request "segment_endpoint" in
  lines ← profiles_lines mpd_dict request proxy_url 0 profiles;
  Ok (hls ++ lines
          ++ (if isLive mpd_dict then [] else ["#EXT-X-ENDLIST"])).

Definition build_hls_playlist (mpd_dict : MpdDict)
    (profiles : list Profile) (request : Request) : result string :=
  hls ← build_hls_playlist_lines mpd_dict profiles request;
  Ok (join_lines hls).

End Translator.

(** ** cache_utils.py: the typed facades *)

Definition headers := list (string * string).

(** The collaborators of the facades: the download client of
    [utils/http_utils.py], the manifest parser of [utils/mpd_utils.py] and
    the [json] codec applied to the raw manifest dict ([RawMpd], the output
    of [parse_mpd]). *)
Class MpdUtils : Type := {
  RawMpd : Type;
  download_file_with_retry : string -> headers -> result bytes;
  parse_mpd : bytes -> result RawMpd;
  parse_mpd_dict : RawMpd -> string -> bool -> option string -> result MpdDict;
  (** [json.loads(cached_data)] *)
  json_loads_mpd : bytes -> result RawMpd;
  (** [json.dumps(mpd_dict_fresh).encode()] *)
  json_dumps_mpd : RawMpd -> result bytes
}.

Definition INIT_SEGMENT_CACHE (existing : gmap string bytes) : HybridCache.t :=
  HybridCache.init "init_segment_cache" 3600 (500 * 1024 * 1024) existing.

Definition MPD_CACHE : AsyncMemoryCache.t :=
  AsyncMemoryCache.init (100 * 1024 * 1024).

Definition bytes_truthy (b : bytes) : bool :=
  match b with [] => false | _ => true end.

Section Facades.
Context `{MetadataJson} `{MpdUtils}.

(** [now] is the clock of the cache lookup, [now'] the clock of the
    write-back after the download; [cache] is the state of
    [INIT_SEGMENT_CACHE]. *)
Definition get_cached_init_segment (io : io_faults) (now now' : pynum)
    (init_url : string) (hdrs : headers) (cache : HybridCache.t)
  : result (option bytes) * HybridCache.t :=
  let '(cached_data, cache) := HybridCache.get io now init_url None cache in
  match cached_data with
  | Some cached_data => (Ok (Some cached_data), cache)
  | None =>
      match download_file_with_retry init_url hdrs with
      | Ok init_content =>
          if bytes_truthy init_content then
            (Ok (Some init_content),
             snd (HybridCache.set io now' init_url init_content None cache))
          else (Ok (Some init_content), cache)
      | Raise e => (Ok None, cache)
      end
  end.

(** The three-way choice of [cache_ttl] in [get_cached_mpd]. *)
Definition cache_ttl_of (mup : option pynum) : pynum :=
  match mup with
  | Some m =>
      if num_gt m (num_of_Z 0) then m
      else if num_le m (num_of_Z 0) then num_of_Z 1
      else num_of_Z 3600
  | None => num_of_Z 3600
  end.

(** The second [try] block of [get_cached_mpd]: download, parse, cache. *)
Definition fetch_mpd (now' : pynum) (mpd_url : string) (hdrs : headers)
    (parse_drm : bool) (parse_segment_profile_id : option string)
    (cache : AsyncMemoryCache.t) : result MpdDict * AsyncMemoryCache.t :=
  let attempt :=
    mpd_content ← download_file_with_retry mpd_url hdrs;
    mpd_dict_fresh ← parse_mpd mpd_content;
    parsed_dict_fresh ←
      parse_mpd_dict mpd_dict_fresh mpd_url parse_drm parse_segment_profile_id;
    encoded ← json_dumps_mpd mpd_dict_fresh;
    Ok (parsed_dict_fresh, encoded) in
  match attempt with
  | Ok (parsed_dict_fresh, encoded) =>
      let cache_ttl := cache_ttl_of (minimumUpdatePeriod parsed_dict_fresh) in
      (Ok parsed_dict_fresh,
       snd (AsyncMemoryCache.set now' mpd_url encoded (Some cache_ttl) cache))
  | Raise error =>
      if is_DownloadError error then (Raise error, cache)
      else (Raise error, cache)
  end.

(** [cache] is the state of [MPD_CACHE]. *)
Definition get_cached_mpd (now now' : pynum) (mpd_url : string)
    (hdrs : headers) (parse_drm : bool)
    (parse_segment_profile_id : option string) (cache : AsyncMemoryCache.t)
  : result MpdDict * AsyncMemoryCache.t :=
  let '(cached_data, cache) := AsyncMemoryCache.get now mpd_url None cache in
  match cached_data with
  | Some cached_data =>
      match (mpd_dict_from_cache ← json_loads_mpd cached_data;
             parse_mpd_dict mpd_dict_from_cache mpd_url parse_drm
               parse_segment_profile_id) with
      | Ok parsed => (Ok parsed, cache)
      | Raise JSONDecodeError =>
          fetch_mpd now' mpd_url hdrs parse_drm parse_segment_profile_id
            (snd (AsyncMemoryCache.delete mpd_url cache))
      | Raise _ =>
          fetch_mpd now' mpd_url hdrs parse_drm parse_segment_profile_id
            (snd (AsyncMemoryCache.delete mpd_url cache))
      end
  | None =>
      fetch_mpd now' mpd_url hdrs parse_drm parse_segment_profile_id cache
  end.

End Facades.

(** ** Notions used to state the properties of the translator *)

(** The bucket a profile goes to: [if "video" in ...] comes first. *)
Definition is_video_profile (p : Profile) : bool :=
  str_in "video" (mimeType p).

Definition is_audio_profile (p : Profile) : bool :=
  negb (str_in "video" (mimeType p)) && str_in "audio" (mimeType p).

(** The last profile of [ps], in input order, that has id [i] and is of
    the kind [sel]. *)
Definition last_with (sel : Profile -> bool) (i : string)
    (ps : list Profile) : option Profile :=
  last (List.filter (fun q => String.eqb (id q) i && sel q) ps).

(** The last profile of [ps], in input order, that has id [i]. *)
Definition last_of_id (i : string) (ps : list Profile) : option Profile :=
  last (List.filter (fun q => String.eqb (id q) i) ps).

(** A bucket is right for the profiles [ps] read so far: no key twice,
    and under each key the last profile of [ps] with that id and kind. *)
Definition bucket_ok (sel : Profile -> bool) (ps : list Profile)
    (d : odict (Profile * string)) : Prop :=
  NoDup (od_keys d)
  /\ forall k p u, (k, (p, u)) ∈ d ->
                   id p = k /\ last_with sel k ps = Some p.




(** The segment has under ["extinf"] a number that the [#EXTINF] line can
    be written for: a float, or an int that [float()] converts. *)
Definition has_formattable_extinf (s : Segment) : bool :=
  match extinf s with
  | Some (PNum _) => true
  | Some (PInt z) => Z.abs z <? float_overflow_bound
  | _ => false
  end.


(** [m] is a greatest member of [l]. *)
Definition is_max_of (m : Q) (l : list Q) : Prop :=
  m ∈ l /\ Forall (fun x => (x <= m)%Q) l.

(** ** Reference collaborators

    Concrete instances of the collaborator interfaces, for running the
    model on concrete inputs. *)

(** A JSON codec for flat objects of numbers.  Numbers are written in fixed
    point with six decimals; [Infinity], [-Infinity] and [NaN] are written
    and read as Python's [json] module does. *)
Module RefJson.

Definition is_digit (c : ascii) : bool :=
  let n := nat_of_ascii c in (48 <=? n)%nat && (n <=? 57)%nat.

Definition is_ws (c : ascii) : bool :=
  let n := nat_of_ascii c in
  (n =? 32)%nat || (n =? 9)%nat || (n =? 10)%nat || (n =? 13)%nat.

Fixpoint skip_ws (s : list ascii) : list ascii :=
  match s with
  | c :: s' => if is_ws c then skip_ws s' else s
  | [] => []
  end.

Fixpoint span_digits (s : list ascii) : list ascii * list ascii :=
  match s with
  | c :: s' =>
      if is_digit c then let '(ds, rest) := span_digits s' in (c :: ds, rest)
      else ([], s)
  | [] => ([], [])
  end.

Definition digits_value (ds : list ascii) : Z :=
  fold_left (fun a c => 10 * a + (Z.of_nat (nat_of_ascii c) - 48)) ds 0.

Fixpoint strip_prefix (p s : list ascii) : option (list ascii) :=
  match p, s with
  | [], _ => Some s
  | a :: p', b :: s' => if Ascii.eqb a b then strip_prefix p' s' else None
  | _ :: _, [] => None
  end.

Definition parse_unsigned (s : list ascii) : option (pynum * list ascii) :=
  match strip_prefix (list_ascii_of_string "Infinity") s with
  | Some rest => Some (PosInf, rest)
  | None =>
      match span_digits s with
      | ([], _) => None
      | (ds, rest) =>
          match rest with
          | "."%char :: rest' =>
              match span_digits rest' with
              | ([], _) => None
              | (fs, rest'') =>
                  Some (Fin (inject_Z (digits_value ds)
                             + Qmake (digits_value fs) (Pos.of_nat (10 ^ length fs)))%Q,
                        rest'')
              end
          | _ => Some (Fin (inject_Z (digits_value ds)), rest)
          end
      end
  end.

Definition num_neg (x : pynum) : pynum :=
  match x with
  | Fin q => Fin (- q)%Q
  | PosInf => NegInf
  | NegInf => PosInf
  | NaN => NaN
  end.

Definition parse_number (s : list ascii) : option (pynum * list ascii) :=
  match strip_prefix (list_ascii_of_string "NaN") s with
  | Some rest => Some (NaN, rest)
  | None =>
      match s with
      | "-"%char :: s' =>
          match parse_unsigned s' with
          | Some (x, rest) => Some (num_neg x, rest)
          | None => None
          end
      | _ => parse_unsigned s
      end
  end.

(** The characters up to the closing quote (no escapes). *)
Fixpoint span_string (s : list ascii) : option (list ascii * list ascii) :=
  match s with
  | [] => None
  | c :: s' =>
      if Ascii.eqb c "034"%char then Some ([], s')
      else match span_string s' with
           | Some (cs, rest) => Some (c :: cs, rest)
           | None => None
           end
  end.

(** The members after the opening brace or after a comma. *)
Fixpoint parse_members (fuel : nat) (s : list ascii)
    (acc : gmap string pynum) : option (gmap string pynum) :=
  match fuel with
  | O => None
  | S fuel' =>
      match skip_ws s with
      | "034"%char :: s1 =>
          match span_string s1 with
          | Some (k, s2) =>
              match skip_ws s2 with
              | ":"%char :: s3 =>
                  match parse_number (skip_ws s3) with
                  | Some (x, s4) =>
                      let acc' := <[string_of_list_ascii k := x]> acc in
                      match skip_ws s4 with
                      | ","%char :: s5 => parse_members fuel' s5 acc'
                      | "}"%char :: s5 =>
                          match skip_ws s5 with
                          | [] => Some acc'
                          | _ => None
                          end
                      | _ => None
                      end
                  | None => None
                  end
              | _ => None
              end
          | None => None
          end
      | _ => None
      end
  end.

Definition loads (b : bytes) : option (gmap string pynum) :=
  let s := map ascii_of_byte b in
  match skip_ws s with
  | "{"%char :: s1 =>
      match skip_ws s1 with
      | ["}"%char] => Some ∅
      | _ => parse_members (length s) s1 ∅
      end
  | _ => None
  end.

Definition pad6 (n : Z) : string :=
  let s := str_of_Z n in
  string_of_list_ascii
    (repeat "0"%char (6 - String.length s)%nat) +:+ s.

Definition render_num (x : pynum) : string :=
  match x with
  | Fin q =>
      let m := Z.abs (Qfloor (q * inject_Z 1000000)%Q) in
      (if Qltb q 0 then "-" else "")
        +:+ str_of_Z (m / 1000000) +:+ "." +:+ pad6 (m mod 1000000)
  | PosInf => "Infinity"
  | NegInf => "-Infinity"
  | NaN => "NaN"
  end.

Definition dumps_metadata (expires count access : pynum) : bytes :=
  list_byte_of_string
    ("{" +:+ dq +:+ "expires_at" +:+ dq +:+ ": " +:+ render_num expires
     +:+ ", " +:+ dq +:+ "access_count" +:+ dq +:+ ": " +:+ render_num count
     +:+ ", " +:+ dq +:+ "last_access" +:+ dq +:+ ": " +:+ render_num access
     +:+ "}").

End RefJson.

Definition ref_json : MetadataJson :=
  {| json_dumps_metadata := RefJson.dumps_metadata;
     json_loads := RefJson.loads |}.

Definition urlencode (q : odict string) : string :=
  String.concat "&" (map (fun kv => fst kv +:+ "=" +:+ snd kv) q).

(** Plain, unsigned URLs; the scheme is left as it is. *)
Definition ref_http_utils : HttpUtils :=
  {| get_original_scheme := fun _ => "https";
     url_replace_scheme := fun url _ => url;
     encode_mediaflow_proxy_url := fun url q _ => url +:+ "?" +:+ urlencode q |}.

(** An origin that is down: every download raises [DownloadError]. *)
Definition origin_down : MpdUtils :=
  {| RawMpd := bytes;
     download_file_with_retry := fun _ _ =>
       Raise (DownloadError 503 "Service Unavailable");
     parse_mpd := fun b => Ok b;
     parse_mpd_dict := fun _ _ _ _ =>
       Ok {| isLive := false; minimumUpdatePeriod := None; profiles := [] |};
     json_loads_mpd := fun b => Ok b;
     json_dumps_mpd := fun b => Ok b |}.

(** An origin that serves one manifest; its parser reports [mup] as the
    minimum update period. *)
Definition origin_up (manifest : bytes) (mup : option pynum) : MpdUtils :=
  {| RawMpd := bytes;
     download_file_with_retry := fun _ _ => Ok manifest;
     parse_mpd := fun b => Ok b;
     parse_mpd_dict := fun _ _ _ _ =>
       Ok {| isLive := true; minimumUpdatePeriod := mup; profiles := [] |};
     json_loads_mpd := fun b => Ok b;
     json_dumps_mpd := fun b => Ok b |}.

Definition bytes_of (s : string) : bytes := list_byte_of_string s.

(** An entry of [n] zero bytes that never expires. *)
Definition sized_entry (n : nat) : CacheEntry :=
  {| data := repeat Byte.x00 n; expires_at := PosInf;
     access_count := num_of_Z 0; last_access := num_of_Z 0;
     size := Z.of_nat n |}.

(** A hybrid cache as [EXTRACTOR_CACHE] is configured, over a directory
    holding [files]. *)
Definition extractor_cache (files : gmap string bytes) : HybridCache.t :=
  HybridCache.init "extractor_cache" (5 * 60) (50 * 1024 * 1024) files.

(** The file that [set("k", b"payload-bytes")] writes at time 1000 with the
    reference codec. *)
Definition example_frame : bytes :=
  @HybridCache.frame_of ref_json (num_of_Z 1000) (bytes_of "payload-bytes")
    None (extractor_cache ∅).

(** A disk that accepts three bytes and is full. *)
Definition disk_full : io_faults :=
  {| open_read_fails := false; read_alloc_fails := fun _ => false;
     open_write_fails := false;
     write_fails_after := Some 3%nat; rename_fails := false;
     remove_fails := false |}.

(** A segment with the given ["extinf"] entry and number. *)
Definition example_segment (x : option pyval) (n : Z) : Segment :=
  {| media := "seg-" +:+ str_of_Z n +:+ ".m4s"; extinf := x;
     number := Some n; hls_media_sequence_num := None;
     program_date_time := None |}.

(** The video profile ["v1"] with the given segments. *)
Definition example_profile (segs : list Segment) : Profile :=
  {| id := "v1"; mimeType := "video/mp4"; bandwidth := AInt 1000000;
     width := AInt 1280; height := AInt 720; codecs := AStr "avc1.64001f";
     frameRate := AStr "30"; lang := None; initUrl := "init-v1.mp4";
     segments := segs |}.

Definition example_vod (ps : list Profile) : MpdDict :=
  {| isLive := false; minimumUpdatePeriod := None; profiles := ps |}.

Definition example_request : Request :=
  {| query_params := []; url_for := fun name => "/" +:+ name |}.

(** Segments of 4.0, 4.5 and 3.9 seconds. *)
Definition example_segments : list Segment :=
  [example_segment (Some (PNum (Fin 4))) 0;
   example_segment (Some (PNum (Fin (9 # 2)))) 1;
   example_segment (Some (PNum (Fin (39 # 10)))) 2].

(** ** Example data for the memory tier *)

(** A run on a store of ten bytes that overwrites no key. *)
Definition example_ops : list LRUMemoryCache.op :=
  [LRUMemoryCache.Set_ "a" (sized_entry 6);
   LRUMemoryCache.Set_ "b" (sized_entry 4);
   LRUMemoryCache.Get (num_of_Z 1) "a";
   LRUMemoryCache.Set_ "c" (sized_entry 8);
   LRUMemoryCache.Remove "b"].

(** Ten bytes of room, holding ["a"] (6 bytes, expiring at 50) and ["b"]
    (4 bytes, expiring at 100), ["a"] being the older. *)
Definition example_store : LRUMemoryCache.t :=
  {| LRUMemoryCache.maxsize := 10;
     LRUMemoryCache._cache :=
       [("a", {| data := repeat Byte.x00 6; expires_at := num_of_Z 50;
                 access_count := num_of_Z 0; last_access := num_of_Z 0;
                 size := 6 |});
        ("b", {| data := repeat Byte.x00 4; expires_at := num_of_Z 100;
                 access_count := num_of_Z 0; last_access := num_of_Z 0;
                 size := 4 |})];
     LRUMemoryCache._current_size := 10 |}.

(** The metadata that the reference codec reads back from [example_frame],
    and the expiry it holds (1300). *)
Definition example_metadata : gmap string pynum :=
  default ∅ (RefJson.loads (HybridCache.metadata_bytes_of example_frame)).

Definition example_expires : pynum :=
  default NaN (example_metadata !! "expires_at").

(** The extractor cache after [set("k", b"payload-bytes")] at time 1000. *)
Definition example_hybrid : HybridCache.t :=
  snd (@HybridCache.set ref_json no_faults (num_of_Z 1000) "k"
         (bytes_of "payload-bytes") None (extractor_cache ∅)).

(** ** cache_utils.py: the extractor facade *)

(** The [json] codec applied to extractor results ([ExtractorResult], a
    [dict]): [json.loads(cached_data)] and [json.dumps(result).encode()]. *)
Class ExtractorJson : Type := {
  ExtractorResult : Type;
  json_loads_result : bytes -> result ExtractorResult;
  json_dumps_result : ExtractorResult -> result bytes
}.

Section ExtractorFacade.
Context `{MetadataJson} `{ExtractorJson}.

(** [cache] is the state of [EXTRACTOR_CACHE].  Only [JSONDecodeError] is
    caught; [delete] is handed the logical key. *)
Definition get_cached_extractor_result (io : io_faults) (now : pynum)
    (key : string) (cache : HybridCache.t)
  : result (option ExtractorResult) * HybridCache.t :=
  let '(cached_data, cache) := HybridCache.get io now key None cache in
  match cached_data with
  | Some cached_data =>
      match json_loads_result cached_data with
      | Ok decoded => (Ok (Some decoded), cache)
      | Raise JSONDecodeError =>
          (Ok None, snd (HybridCache.delete io key cache))
      | Raise e => (Raise e, cache)
      end
  | None => (Ok None, cache)
  end.

Definition set_cache_extractor_result (io : io_faults) (now : pynum)
    (key : string) (value : ExtractorResult) (cache : HybridCache.t)
  : bool * HybridCache.t :=
  match json_dumps_result value with
  | Ok encoded => HybridCache.set io now key encoded None cache
  | Raise _ => (false, cache)
  end.

End ExtractorFacade.

(** An extractor codec over raw bytes that accepts what starts with a
    brace. *)
Definition brace_codec : ExtractorJson :=
  {| ExtractorResult := bytes;
     json_loads_result := fun b =>
       match b with
       | Byte.x7b :: _ => Ok b
       | _ => Raise JSONDecodeError
       end;
     json_dumps_result := fun b => Ok b |}.

(** An origin that is down, with a manifest codec that rejects every
    cached text. *)
Definition origin_down_strict : MpdUtils :=
  {| RawMpd := bytes;
     download_file_with_retry := fun _ _ =>
       Raise (DownloadError 503 "Service Unavailable");
     parse_mpd := fun b => Ok b;
     parse_mpd_dict := fun _ _ _ _ =>
       Ok {| isLive := false; minimumUpdatePeriod := None; profiles := [] |};
     json_loads_mpd := fun _ => Raise JSONDecodeError;
     json_dumps_mpd := fun b => Ok b |}.

(** [MPD_CACHE] holding one manifest text, stored at time 1000 for five
    seconds. *)
Definition example_mpd_cache : AsyncMemoryCache.t :=
  snd (AsyncMemoryCache.set (num_of_Z 1000) "https://origin.example/live.mpd"
         (bytes_of "<MPD/>") (Some (num_of_Z 5)) MPD_CACHE).

(** The extractor cache holding, under ["k"], a payload that is not JSON. *)
Definition example_corrupt_extractor : HybridCache.t :=
  snd (@HybridCache.set ref_json no_faults (num_of_Z 1000) "k"
         (bytes_of "not json") None (extractor_cache ∅)).

(** ** mpd_processor.py: the request handlers around the translator *)

(** What a handler does: it returns, raises [HTTPException], or lets
    another exception through. *)
Inductive outcome (A : Type) : Type :=
| Returned (a : A)
| HTTPException (status_code : Z) (detail : string)
| Raised (e : exn).
Arguments Returned {A} a.
Arguments HTTPException {A} status_code detail.
Arguments Raised {A} e.

Record Response : Type := mkResponse {
  content : string;
  media_type : string;
  response_headers : headers
}.

Record ProxyRequestHeaders : Type := mkProxyHeaders {
  request_headers : headers;
  response : headers
}.

Section Handlers.
Context `{HttpUtils}.

Definition process_manifest (request : Request) (mpd_dict : MpdDict)
    (proxy_headers : ProxyRequestHeaders) (key_id key : option string)
  : Response :=
  let hls_content := build_hls mpd_dict request key_id key in
  {| content := hls_content;
     media_type := "application/vnd.apple.mpegurl";
     response_headers := response proxy_headers |}.

Definition process_playlist (request : Request) (mpd_dict : MpdDict)
    (profile_id : string) (proxy_headers : ProxyRequestHeaders)
  : outcome Response :=
  let matching_profiles :=
    List.filter (fun p => String.eqb (id p) profile_id) (profiles mpd_dict) in
  match matching_profiles with
  | [] => HTTPException 404 "Profile not found"
  | _ :: _ =>
      match build_hls_playlist mpd_dict matching_profiles request with
      | Ok hls_content =>
          Returned {| content := hls_content;
                      media_type := "application/vnd.apple.mpegurl";
                      response_headers := response proxy_headers |}
      | Raise e => Raised e
      end
  end.

(** ** Further notions used to state properties of the translator *)

(** The URL that [build_hls] computes for a profile when it starts from
    the query of the request. *)
Definition rendition_url (request : Request) (key_id key : option string)
    (p : Profile) : string :=
  encode_mediaflow_proxy_url
    (url_replace_scheme (url_for request "playlist_endpoint")
                        (get_original_scheme request))
    (od_update [("profile_id", id p);
                ("key_id", or_empty key_id);
                ("key", or_empty key)]
               (od_pop "has_encrypted" (query_params request)))
    (opt_truthy (od_get "has_encrypted" (query_params request))).

(** One bucket, filled from the profiles of the kind [sel] alone. *)
Definition put_rendition (sel : Profile -> bool) (request : Request)
    (key_id key : option string) (d : odict (Profile * string))
    (p : Profile) : odict (Profile * string) :=
  if sel p then od_setitem (id p) (p, rendition_url request key_id key p) d
  else d.

End Handlers.

(** The strings of a list in the order of their first occurrence. *)
Definition first_occurrences (l : list string) : list string :=
  fold_left (fun acc k => if existsb (String.eqb k) acc then acc else acc ++ [k])
            l [].

(** The number of lines of a media playlist, counted on the input: the
    preamble, three header lines when the first profile has segments, two
    lines per segment and a third for each segment of a live manifest with
    a date, and the end marker of a VOD manifest. *)
Definition segment_line_count (mpd_dict : MpdDict) (s : Segment) : nat :=
  if isLive mpd_dict && opt_truthy (program_date_time s) then 3%nat else 2%nat.

Definition profile_line_count (mpd_dict : MpdDict) (p : Profile) : nat :=
  foldr (fun s n => (segment_line_count mpd_dict s + n)%nat) 0%nat (segments p).

Definition playlist_line_count (mpd_dict : MpdDict) (ps : list Profile) : nat :=
  (2 + match ps with
       | p :: _ => match segments p with [] => 0 | _ :: _ => 3 end
       | [] => 0
       end
     + foldr (fun p n => (profile_line_count mpd_dict p + n)%nat) 0%nat ps
     + (if isLive mpd_dict then 0 else 1))%nat.

(** A live manifest: two segments, the first numbered 1042 in the HLS
    sequence and carrying a date. *)
Definition example_live_segments : list Segment :=
  [{| media := "seg-7.m4s"; extinf := Some (PNum (Fin 2)); number := Some 7;
      hls_media_sequence_num := Some 1042;
      program_date_time := Some "2024-01-01T00:00:00Z" |};
   {| media := "seg-8.m4s"; extinf := Some (PNum (Fin 2)); number := Some 8;
      hls_media_sequence_num := Some 1043; program_date_time := None |}].

Definition example_live : MpdDict :=
  {| isLive := true; minimumUpdatePeriod := Some (num_of_Z 2);
     profiles := [example_profile example_live_segments] |}.



(** The integer that a decimal numeral denotes, as [int(s)] reads it. *)
Definition Z_of_str (s : string) : option Z :=
  Z.of_int <$> NilZero.int_of_string s.

(** The renditions of one kind in a master manifest, read off the
    profiles: one per distinct id among the profiles of the kind [sel], in
    the order in which these ids first occur, each made of the last
    profile of that kind with the id and of the playlist URL of that
    profile. *)
Definition renditions `{HttpUtils} (sel : Profile -> bool) (request : Request)
    (key_id key : option string) (ps : list Profile)
  : list (Profile * string) :=
  omap (fun i => p ← last_with sel i ps;
                 Some (p, rendition_url request key_id key p))
       (first_occurrences (map id (List.filter sel ps))).

(** An audio and a video profile that share the id ["x"]. *)
Definition example_audio_x : Profile :=
  {| id := "x"; mimeType := "audio/mp4"; bandwidth := AInt 128000;
     width := AStr ""; height := AStr ""; codecs := AStr "mp4a.40.2";
     frameRate := AStr ""; lang := Some "en";
     initUrl := "init-a.mp4"; segments := [] |}.

Definition example_video_x : Profile :=
  {| id := "x"; mimeType := "video/mp4"; bandwidth := AInt 2000000;
     width := AInt 1920; height := AInt 1080;
     codecs := AStr "avc1.640028"; frameRate := AStr "30";
     lang := None; initUrl := "init-v.mp4"; segments := [] |}.

(* ===================================================================== *)
(** * Part II: properties                                                  *)
(* ===================================================================== *)

(** ** Ordered dictionaries *)

Section OdictFacts.
Context {V : Type}.
Implicit Types (d : odict V) (k : string) (v : V).

Lemma od_get_setitem_eq k v d : od_get k (od_setitem k v d) = Some v.
Proof.
  induction d as [|[k' v'] d IH]; simpl.
  - by rewrite String.eqb_refl.
  - destruct (String.eqb_spec k k') as [->|Hne]; simpl.
    + by rewrite String.eqb_refl.
    + destruct (String.eqb_spec k k'); [done|apply IH].
Qed.

Lemma od_get_setitem_ne k k' v d :
  k ≠ k' -> od_get k' (od_setitem k v d) = od_get k' d.
Proof.
  intros Hne. induction d as [|[k0 v0] d IH]; simpl.
  - destruct (String.eqb_spec k' k); [congruence|done].
  - destruct (String.eqb_spec k k0) as [->|Hk]; simpl.
    + destruct (String.eqb_spec k' k0); [congruence|done].
    + destruct (String.eqb_spec k' k0); [done|apply IH].
Qed.

Lemma od_get_pop_ne k k' d :
  k ≠ k' -> od_get k' (od_pop k d) = od_get k' d.
Proof.
  intros Hne. induction d as [|[k0 v0] d IH]; simpl; [done|].
  destruct (String.eqb_spec k k0) as [->|Hk]; simpl.
  - destruct (String.eqb_spec k' k0); [congruence|done].
  - destruct (String.eqb_spec k' k0); [done|apply IH].
Qed.

Lemma od_keys_setitem_absent k v d :
  od_get k d = None -> od_setitem k v d = d ++ [(k, v)].
Proof.
  induction d as [|[k0 v0] d IH]; simpl; [done|].
  destruct (String.eqb_spec k k0); [done|].
  intros Hd. by rewrite IH.
Qed.

Lemma od_keys_setitem_present k v d :
  is_Some (od_get k d) -> od_keys (od_setitem k v d) = od_keys d.
Proof.
  unfold od_keys. induction d as [|[k0 v0] d IH]; simpl.
  - by intros [? ?].
  - destruct (String.eqb_spec k k0) as [->|Hk]; simpl; [done|].
    intros Hd. f_equal. by apply IH.
Qed.

Lemma od_get_None_keys k d : od_get k d = None <-> k ∉ od_keys d.
Proof.
  induction d as [|[k0 v0] d IH]; simpl.
  - split; [intros _; apply not_elem_of_nil|done].
  - rewrite not_elem_of_cons. destruct (String.eqb_spec k k0) as [->|Hk].
    + split; [done|]. by intros [? _].
    + rewrite IH. tauto.
Qed.

Lemma od_setitem_NoDup k v d :
  NoDup (od_keys d) -> NoDup (od_keys (od_setitem k v d)).
Proof.
  intros Hd. destruct (od_get k d) as [v0|] eqn:Hk.
  - by rewrite od_keys_setitem_present.
  - rewrite od_keys_setitem_absent by done.
    unfold od_keys. rewrite map_app. simpl.
    apply NoDup_app. split_and!; [done| |apply NoDup_singleton].
    intros x Hx ->%list_elem_of_singleton.
    by apply od_get_None_keys in Hk.
Qed.
End OdictFacts.

(** ** LRUMemoryCache *)

Section LRUFacts.
Import LRUMemoryCache.

Lemma set_lookup key entry self :
  od_get key (_cache (set key entry self)) = Some entry.
Proof.
  unfold set.
  destruct (make_space _ _ _ _) as [cache1 current1]. simpl.
  apply od_get_setitem_eq.
Qed.

Lemma remove_lookup_ne key key' self :
  key ≠ key' ->
  od_get key' (_cache (remove key self)) = od_get key' (_cache self).
Proof.
  intros Hne. unfold remove.
  destruct (od_get key (_cache self)); simpl; [|done].
  by apply od_get_pop_ne.
Qed.

Lemma get_fresh now key entry self :
  od_get key (_cache self) = Some entry ->
  num_lt now (expires_at entry) = true ->
  exists entry', fst (get now key self) = Some entry'
                 /\ data entry' = data entry.
Proof.
  intros Hk Hfresh. unfold get. rewrite Hk, Hfresh. simpl. eauto.
Qed.

Lemma get_stale now key entry self :
  od_get key (_cache self) = Some entry ->
  num_lt now (expires_at entry) = false ->
  fst (get now key self) = None.
Proof. intros Hk Hstale. unfold get. by rewrite Hk, Hstale. Qed.

Lemma get_absent now key self :
  od_get key (_cache self) = None -> get now key self = (None, self).
Proof. intros Hk. unfold get. by rewrite Hk. Qed.
End LRUFacts.

(** C1 (defect of the code).  The size bound of the LRU store does not
    survive a [set] that overwrites a key while the eviction loop runs.
    With [maxsize = 10], after [set("a", 6 bytes)], [set("b", 4 bytes)],
    [set("a", 8 bytes)] every inserted entry fits the store on its own,
    yet the store holds ["b"] (4 bytes) and ["a"] (8 bytes): 12 bytes in
    all, while [_current_size] reports 6.  The old size of ["a"] is
    subtracted once before the loop and once more when the loop pops the
    old entry, which is still in the dictionary. *)
Theorem C1_overwrite_breaks_size_bound :
  let ops := [LRUMemoryCache.Set_ "a" (sized_entry 6);
              LRUMemoryCache.Set_ "b" (sized_entry 4);
              LRUMemoryCache.Set_ "a" (sized_entry 8)] in
  let store := LRUMemoryCache.run ops (LRUMemoryCache.init 10) in
  LRUMemoryCache.inserts_fit 10 ops
  /\ LRUMemoryCache.maxsize store = 10
  /\ od_keys (LRUMemoryCache._cache store) = ["b"; "a"]
  /\ LRUMemoryCache.stored_size store = 12
  /\ LRUMemoryCache._current_size store = 6.
Proof.
  split.
  - unfold LRUMemoryCache.inserts_fit. repeat constructor; simpl; lia.
  - repeat split; reflexivity.
Qed.

(** C8 (defect of the code).  [set] on a key that is already present and
    survives the eviction loop leaves it where it was: after [set("a")],
    [set("b")], [set("a")] the order is still ["a"], ["b"], so ["a"] is the
    least recent key and the next eviction takes it although ["b"] is in
    the store. *)
Theorem C8_overwrite_keeps_old_position :
  let store :=
    LRUMemoryCache.run [LRUMemoryCache.Set_ "a" (sized_entry 1);
                        LRUMemoryCache.Set_ "b" (sized_entry 1);
                        LRUMemoryCache.Set_ "a" (sized_entry 1)]
                       (LRUMemoryCache.init 10) in
  od_keys (LRUMemoryCache._cache store) = ["a"; "b"]
  /\ LRUMemoryCache.most_recent store = Some "b"
  /\ LRUMemoryCache.least_recent store = Some "a"
  /\ od_keys (LRUMemoryCache._cache
                (LRUMemoryCache.set "c" (sized_entry 9) store)) = ["b"; "c"].
Proof. repeat split; reflexivity. Qed.

(** ** HybridCache *)

Lemma string_length_append (a b : string) :
  String.length (a +:+ b) = (String.length a + String.length b)%nat.
Proof. induction a as [|c a IH]; simpl; [done|by rewrite IH]. Qed.

Lemma with_suffix_tmp_ne (p : string) : HybridCache.with_suffix_tmp p ≠ p.
Proof.
  intros Heq. apply (f_equal String.length) in Heq.
  unfold HybridCache.with_suffix_tmp in Heq.
  rewrite string_length_append in Heq. simpl in Heq. lia.
Qed.

Lemma fs_remove_quietly_lookup_ne io path path' (d : gmap string bytes) :
  path ≠ path' -> fs_remove_quietly io path d !! path' = d !! path'.
Proof.
  intros Hne. unfold fs_remove_quietly, fs_remove.
  destruct (remove_fails io); [done|].
  destruct (d !! path); [|done].
  by rewrite lookup_delete_ne.
Qed.

Section HybridFacts.
Context `{MetadataJson}.
Import HybridCache.

(** What [set] does to the memory tier does not depend on the faults. *)
Lemma set_memory io now key data ttl_arg self :
  memory_cache (snd (set io now key data ttl_arg self))
  = LRUMemoryCache.set (_get_md5_hash key)
      {| data := data;
         expires_at := num_add now (ttl_or ttl_arg (num_of_Z (ttl self)));
         access_count := num_of_Z 0; last_access := now; size := len data |}
      (memory_cache self).
Proof.
  unfold set.
  destruct (open_write_fails io); [done|].
  destruct (write_fails_after io); [done|].
  by destruct (rename_fails io).
Qed.

(** A failed [set] leaves the file under the final name as it was. *)
Lemma set_failed_keeps_file io now key data ttl_arg self :
  fst (set io now key data ttl_arg self) = false ->
  dir (snd (set io now key data ttl_arg self))
      !! _get_file_path (_get_md5_hash key)
  = dir self !! _get_file_path (_get_md5_hash key).
Proof.
  unfold set.
  destruct (open_write_fails io); simpl.
  - intros _. by rewrite fs_remove_quietly_lookup_ne by apply with_suffix_tmp_ne.
  - destruct (write_fails_after io); simpl.
    + intros _.
      rewrite fs_remove_quietly_lookup_ne by apply with_suffix_tmp_ne.
      by rewrite lookup_insert_ne by apply with_suffix_tmp_ne.
    + destruct (rename_fails io); simpl; [|done].
      intros _.
      rewrite fs_remove_quietly_lookup_ne by apply with_suffix_tmp_ne.
      by rewrite lookup_insert_ne by apply with_suffix_tmp_ne.
Qed.

(** A successful [set] leaves the frame under the final name. *)
Lemma set_ok_writes_file io now key data ttl_arg self :
  fst (set io now key data ttl_arg self) = true ->
  dir (snd (set io now key data ttl_arg self))
      !! _get_file_path (_get_md5_hash key)
  = Some (frame_of now data ttl_arg self).
Proof.
  unfold set.
  destruct (open_write_fails io); simpl; [done|].
  destruct (write_fails_after io); simpl; [done|].
  destruct (rename_fails io); simpl; [done|].
  intros _. by rewrite lookup_insert_eq.
Qed.

Lemma set_without_faults now key data ttl_arg self :
  fst (set no_faults now key data ttl_arg self) = true.
Proof. done. Qed.

Lemma delete_without_faults key self :
  fst (delete no_faults key self) = true.
Proof.
  unfold delete, fs_remove. simpl.
  by destruct (dir self !! _get_file_path key).
Qed.

Lemma delete_memory io key self :
  memory_cache (snd (delete io key self))
  = LRUMemoryCache.remove key (memory_cache self).
Proof.
  unfold delete. destruct (fs_remove _ _ _) as [d'|[]]; reflexivity.
Qed.

Lemma delete_dir_ne io key path self :
  key ≠ path ->
  dir (snd (delete io key self)) !! path = dir self !! path.
Proof.
  intros Hne. unfold delete, fs_remove, _get_file_path. simpl.
  destruct (remove_fails io); [done|].
  destruct (dir self !! key); simpl; [|done].
  by rewrite lookup_delete_ne.
Qed.

(** [get] answers from the memory tier when the hashed key is there and
    fresh. *)
Lemma get_memory_hit io now key default entry self :
  od_get (_get_md5_hash key) (LRUMemoryCache._cache (memory_cache self))
    = Some entry ->
  num_lt now (expires_at entry) = true ->
  fst (get io now key default self) = Some (data entry).
Proof.
  intros Hk Hfresh. unfold get, LRUMemoryCache.get.
  by rewrite Hk, Hfresh.
Qed.

(** C9.  When the file write of [set(K, P)] fails and the call returns
    [False], the entry for [md5(K)] is in the memory tier all the same,
    the file under the final name is what it was before, and a [get(K)]
    made before the entry expires returns [P]. *)
Theorem C9_failed_set_is_served_from_memory
    io io' now now' K P ttl_arg default self :
  fst (set io now K P ttl_arg self) = false ->
  num_lt now' (num_add now (ttl_or ttl_arg (num_of_Z (ttl self)))) = true ->
  let self' := snd (set io now K P ttl_arg self) in
  od_get (_get_md5_hash K) (LRUMemoryCache._cache (memory_cache self'))
    = Some {| data := P;
              expires_at := num_add now (ttl_or ttl_arg (num_of_Z (ttl self)));
              access_count := num_of_Z 0; last_access := now;
              size := len P |}
  /\ dir self' !! _get_file_path (_get_md5_hash K)
     = dir self !! _get_file_path (_get_md5_hash K)
  /\ fst (get io' now' K default self') = Some P.
Proof.
  intros Hfail Hfresh self'.
  assert (Hmem : od_get (_get_md5_hash K)
                   (LRUMemoryCache._cache (memory_cache self'))
                 = Some {| data := P;
                           expires_at := num_add now
                             (ttl_or ttl_arg (num_of_Z (ttl self)));
                           access_count := num_of_Z 0; last_access := now;
                           size := len P |}).
  { subst self'. rewrite set_memory. apply set_lookup. }
  split_and!.
  - exact Hmem.
  - by apply set_failed_keeps_file.
  - by rewrite (get_memory_hit io' now' K default _ self' Hmem).
Qed.

(** C2 (defect of the code).  [delete] uses its argument as it is, while
    [set] and [get] hash theirs.  For a logical key [K] that is not its
    own digest, [set(K, P)] followed by [delete(K)] leaves both the
    memory entry and the file of [md5(K)] in place, and the next
    [get(K)] returns [P]: a hit, not the default. *)
Theorem C2_delete_by_logical_key_misses
    now now' K P ttl_arg default self :
  _get_md5_hash K ≠ K ->
  num_lt now' (num_add now (ttl_or ttl_arg (num_of_Z (ttl self)))) = true ->
  let s1 := set no_faults now K P ttl_arg self in
  let s2 := delete no_faults K (snd s1) in
  fst s1 = true
  /\ fst s2 = true
  /\ dir (snd s2) !! _get_file_path (_get_md5_hash K)
     = Some (frame_of now P ttl_arg self)
  /\ fst (get no_faults now' K default (snd s2)) = Some P.
Proof.
  intros Hne Hfresh s1 s2.
  assert (Hfile : dir (snd s1) !! _get_file_path (_get_md5_hash K)
                  = Some (frame_of now P ttl_arg self)).
  { by apply set_ok_writes_file. }
  assert (Hmem2 : od_get (_get_md5_hash K)
                    (LRUMemoryCache._cache (memory_cache (snd s2)))
                  = Some {| data := P;
                            expires_at := num_add now
                              (ttl_or ttl_arg (num_of_Z (ttl self)));
                            access_count := num_of_Z 0; last_access := now;
                            size := len P |}).
  { subst s2. rewrite delete_memory, remove_lookup_ne by done.
    subst s1. rewrite set_memory. apply set_lookup. }
  split_and!.
  - done.
  - apply delete_without_faults.
  - subst s2. by rewrite delete_dir_ne.
  - by rewrite (get_memory_hit no_faults now' K default _ (snd s2) Hmem2).
Qed.

(** The memory lookup of [get] misses either because the key is not in
    the memory tier, which is then left as it is, or because its entry is
    stale, which the lookup removes; no other entry changes. *)
Lemma memory_miss_effect now key (mem : LRUMemoryCache.t) :
  fst (LRUMemoryCache.get now key mem) = None ->
  (od_get key (LRUMemoryCache._cache mem) = None ->
   snd (LRUMemoryCache.get now key mem) = mem)
  /\ (forall key', key ≠ key' ->
        od_get key' (LRUMemoryCache._cache (snd (LRUMemoryCache.get now key mem)))
        = od_get key' (LRUMemoryCache._cache mem)).
Proof.
  unfold LRUMemoryCache.get. intros Hmiss. split.
  - by intros ->.
  - intros key' Hne.
    destruct (od_get key (LRUMemoryCache._cache mem)) as [entry|]; [|done].
    destruct (num_lt now (expires_at entry)); [done|]. simpl.
    by rewrite !od_get_pop_ne.
Qed.

(** C4, as the code has it.  Let the memory tier miss and the file of the
    key be corrupt in its metadata: the length prefix is one for which the
    read of the block raises, or the block does not decode, or it decodes
    to something without a numeric [expires_at].  Then [get] returns the
    default and deletes nothing: the file tier is unchanged and the file is
    still there.  The cache is left exactly as the memory lookup left it:
    unchanged when the key was not in memory; when the key had a stale
    memory entry, that entry has been dropped by the lookup itself, and no
    other memory entry has changed. *)
Theorem C4_corrupt_metadata_is_a_miss_and_kept
    io now K default self content :
  fst (LRUMemoryCache.get now (_get_md5_hash K) (memory_cache self)) = None ->
  fs_read io (_get_file_path (_get_md5_hash K)) (dir self) = Ok content ->
  read_raises io (metadata_length_of content) = true
  \/ json_loads (metadata_bytes_of content) = None
  \/ (exists m, json_loads (metadata_bytes_of content) = Some m
                /\ m !! "expires_at" = None) ->
  get io now K default self
  = (default,
     with_memory self
       (snd (LRUMemoryCache.get now (_get_md5_hash K) (memory_cache self))))
  /\ dir (snd (get io now K default self)) = dir self
  /\ dir (snd (get io now K default self))
       !! _get_file_path (_get_md5_hash K) = Some content
  /\ (od_get (_get_md5_hash K) (LRUMemoryCache._cache (memory_cache self))
      = None ->
      snd (get io now K default self) = self)
  /\ (forall key', _get_md5_hash K ≠ key' ->
        od_get key'
          (LRUMemoryCache._cache
             (memory_cache (snd (get io now K default self))))
        = od_get key' (LRUMemoryCache._cache (memory_cache self))).
Proof.
  intros Hmiss Hread Hcorrupt.
  destruct (memory_miss_effect now (_get_md5_hash K) (memory_cache self) Hmiss)
    as [Habsent Hothers].
  assert (Hget : get io now K default self
                 = (default,
                    with_memory self
                      (snd (LRUMemoryCache.get now (_get_md5_hash K)
                              (memory_cache self))))).
  { unfold get.
    destruct (LRUMemoryCache.get now (_get_md5_hash K) (memory_cache self))
      as [entry mem] eqn:Hget.
    simpl in Hmiss. subst entry. cbn [snd with_memory dir].
    rewrite Hread. unfold metadata_length_of, metadata_bytes_of in Hcorrupt.
    destruct (read_raises io (int_from_bytes_big (take 8 content))) eqn:Hr;
      [done|].
    destruct Hcorrupt as [?|[Hjson|(m & Hjson & Hexp)]]; [done| |].
    - by rewrite Hjson.
    - by rewrite Hjson, Hexp. }
  rewrite Hget. cbn [snd with_memory dir memory_cache].
  split_and!; [done|done| |by intros ->%Habsent; destruct self|done].
  unfold fs_read in Hread. destruct (open_read_fails io); [done|].
  destruct (dir self !! _get_file_path (_get_md5_hash K)); by simplify_eq.
Qed.

End HybridFacts.

(** C9 at work: the disk is full, [set("k", b"payload-bytes")] returns
    [False], and [get("k")] one second later returns the payload. *)
Lemma C9_witness :
  let self := extractor_cache ∅ in
  let r := @HybridCache.set ref_json disk_full (num_of_Z 1000) "k"
             (bytes_of "payload-bytes") None self in
  fst r = false
  /\ num_lt (num_of_Z 1001)
       (num_add (num_of_Z 1000)
          (ttl_or None (num_of_Z (HybridCache.ttl self)))) = true
  /\ fst (@HybridCache.get ref_json no_faults (num_of_Z 1001) "k" None (snd r))
     = Some (bytes_of "payload-bytes").
Proof.
  intros self r.
  assert (H1 : fst r = false) by (vm_compute; reflexivity).
  assert (H2 : num_lt (num_of_Z 1001)
                 (num_add (num_of_Z 1000)
                    (ttl_or None (num_of_Z (HybridCache.ttl self)))) = true)
    by (vm_compute; reflexivity).
  split; [exact H1|]. split; [exact H2|].
  exact (proj2 (proj2 (@C9_failed_set_is_served_from_memory ref_json
           disk_full no_faults (num_of_Z 1000) (num_of_Z 1001) "k"
           (bytes_of "payload-bytes") None None self H1 H2))).
Defined.

(** C2 at work: ["k"] is not its own digest; after [set], [delete] and one
    second the payload is still served. *)
Lemma C2_witness :
  let self := extractor_cache ∅ in
  let s1 := @HybridCache.set ref_json no_faults (num_of_Z 1000) "k"
              (bytes_of "payload-bytes") None self in
  let s2 := HybridCache.delete no_faults "k" (snd s1) in
  HybridCache._get_md5_hash "k" ≠ "k"
  /\ num_lt (num_of_Z 1001)
       (num_add (num_of_Z 1000)
          (ttl_or None (num_of_Z (HybridCache.ttl self)))) = true
  /\ fst (@HybridCache.get ref_json no_faults (num_of_Z 1001) "k" None (snd s2))
     = Some (bytes_of "payload-bytes").
Proof.
  intros self s1 s2.
  assert (H1 : HybridCache._get_md5_hash "k" ≠ "k")
    by (vm_compute; discriminate).
  assert (H2 : num_lt (num_of_Z 1001)
                 (num_add (num_of_Z 1000)
                    (ttl_or None (num_of_Z (HybridCache.ttl self)))) = true)
    by (vm_compute; reflexivity).
  split; [exact H1|]. split; [exact H2|].
  exact (proj2 (proj2 (proj2 (@C2_delete_by_logical_key_misses ref_json
           (num_of_Z 1000) (num_of_Z 1001) "k" (bytes_of "payload-bytes")
           None None self H1 H2)))).
Defined.

(** C4, the claim as stated fails.  The file of ["k"] is a frame cut off
    inside its metadata block.  [get("k")] returns the default, and the
    file is still there afterwards: the entry is not deleted. *)
Lemma C4_corrupt_file_is_not_deleted :
  let content := take 20 example_frame in
  let self := extractor_cache {[ MD5.hexdigest "k" := content ]} in
  let r := @HybridCache.get ref_json no_faults (num_of_Z 1001) "k" None self in
  @json_loads ref_json (HybridCache.metadata_bytes_of content) = None
  /\ fst r = None
  /\ HybridCache.dir (snd r) !! MD5.hexdigest "k" = Some content.
Proof. vm_compute. repeat split; reflexivity. Qed.

Lemma C4_witness :
  let content := take 20 example_frame in
  let self := extractor_cache {[ MD5.hexdigest "k" := content ]} in
  fst (LRUMemoryCache.get (num_of_Z 1001) (HybridCache._get_md5_hash "k")
         (HybridCache.memory_cache self)) = None
  /\ fs_read no_faults (HybridCache._get_file_path (HybridCache._get_md5_hash "k"))
       (HybridCache.dir self) = Ok content
  /\ @json_loads ref_json (HybridCache.metadata_bytes_of content) = None
  /\ fst (@HybridCache.get ref_json no_faults (num_of_Z 1001) "k" None self)
     = None
  /\ HybridCache.dir
       (snd (@HybridCache.get ref_json no_faults (num_of_Z 1001) "k" None self))
     = HybridCache.dir self.
Proof.
  intros content self.
  assert (H1 : fst (LRUMemoryCache.get (num_of_Z 1001)
                      (HybridCache._get_md5_hash "k")
                      (HybridCache.memory_cache self)) = None)
    by (vm_compute; reflexivity).
  assert (H2 : fs_read no_faults
                 (HybridCache._get_file_path (HybridCache._get_md5_hash "k"))
                 (HybridCache.dir self) = Ok content)
    by (vm_compute; reflexivity).
  assert (H3 : @json_loads ref_json (HybridCache.metadata_bytes_of content)
               = None)
    by (vm_compute; reflexivity).
  pose proof (@C4_corrupt_metadata_is_a_miss_and_kept ref_json no_faults
                (num_of_Z 1001) "k" None self content H1 H2
                (or_intror (or_introl H3))) as [W1 [W2 _]].
  split; [exact H1|]. split; [exact H2|]. split; [exact H3|].
  split; [|exact W2].
  exact (f_equal fst W1).
Defined.

(** A file whose length prefix is damaged: eight [0xff] bytes in front of
    the metadata block and the payload of a frame that expired long ago.
    The read of the block raises [OverflowError]; [get] returns the
    default and the file stays, expired or not. *)
Lemma damaged_length_prefix_is_a_miss :
  let content := repeat Byte.xff 8 ++ drop 8 example_frame in
  let self := extractor_cache {[ MD5.hexdigest "k" := content ]} in
  let r := @HybridCache.get ref_json no_faults (num_of_Z 1000000) "k" None self in
  read_raises no_faults (HybridCache.metadata_length_of content) = true
  /\ fst r = None
  /\ HybridCache.dir (snd r) !! MD5.hexdigest "k" = Some content.
Proof. vm_compute. repeat split; reflexivity. Qed.

(** A frame cut off inside its payload is not noticed at all: the bytes
    that are left are returned as a hit. *)
Lemma truncated_payload_is_served :
  let content := take (length example_frame - 6) example_frame in
  let self := extractor_cache {[ MD5.hexdigest "k" := content ]} in
  fst (@HybridCache.get ref_json no_faults (num_of_Z 1001) "k" None self)
  = Some (bytes_of "payload").
Proof. vm_compute. reflexivity. Qed.

(** ** Numbers *)

Lemma Qltb_true (a b : Q) : Qltb a b = true <-> (a < b)%Q.
Proof.
  unfold Qltb. rewrite negb_true_iff.
  destruct (Qle_bool b a) eqn:E.
  - apply Qle_bool_iff in E. split; [done|]. intros Hlt. lra.
  - split; [|done]. intros _.
    destruct (Qlt_le_dec a b) as [Hlt|Hle]; [done|].
    apply Qle_bool_iff in Hle. congruence.
Qed.

Lemma Qltb_false (a b : Q) : Qltb a b = false <-> (b <= a)%Q.
Proof.
  unfold Qltb. rewrite negb_false_iff. apply Qle_bool_iff.
Qed.

Lemma num_gt_zero_truthy (m : pynum) :
  num_gt m (num_of_Z 0) = true -> num_truthy m = true.
Proof.
  destruct m as [q| | |]; simpl; try done.
  intros Hgt%Qltb_true. apply negb_true_iff.
  destruct (Qeq_bool q 0) eqn:E; [|done].
  apply Qeq_bool_iff in E. change (inject_Z 0) with 0%Q in Hgt. lra.
Qed.

Lemma num_le_zero_not_gt (m : pynum) :
  num_le m (num_of_Z 0) = true -> num_gt m (num_of_Z 0) = false.
Proof.
  destruct m as [q| | |]; simpl; try done.
  intros Hle. unfold Qltb. by rewrite Hle.
Qed.

(** ** The typed facades *)

Section FacadeFacts.
Context `{MetadataJson} `{MpdUtils}.

Lemma cache_ttl_truthy (mup : option pynum) :
  ttl_or (Some (cache_ttl_of mup)) (num_of_Z 3600) = cache_ttl_of mup.
Proof.
  unfold ttl_or, cache_ttl_of.
  destruct mup as [m|]; [|done].
  destruct (num_gt m (num_of_Z 0)) eqn:Hgt.
  - by rewrite num_gt_zero_truthy.
  - by destruct (num_le m (num_of_Z 0)).
Qed.

Lemma async_set_memory now key data ttl cache :
  AsyncMemoryCache.memory_cache
    (snd (AsyncMemoryCache.set now key data ttl cache))
  = LRUMemoryCache.set key
      {| data := data;
         expires_at := num_add now (ttl_or ttl (num_of_Z 3600));
         access_count := num_of_Z 0; last_access := now; size := len data |}
      (AsyncMemoryCache.memory_cache cache).
Proof. reflexivity. Qed.

(** A cache miss followed by a fetch that succeeds. *)
Lemma get_cached_mpd_fresh now now' url hdrs parse_drm pid cache
    content raw parsed encoded :
  fst (AsyncMemoryCache.get now url None cache) = None ->
  download_file_with_retry url hdrs = Ok content ->
  parse_mpd content = Ok raw ->
  parse_mpd_dict raw url parse_drm pid = Ok parsed ->
  json_dumps_mpd raw = Ok encoded ->
  get_cached_mpd now now' url hdrs parse_drm pid cache
  = (Ok parsed,
     snd (AsyncMemoryCache.set now' url encoded
            (Some (cache_ttl_of (minimumUpdatePeriod parsed)))
            (snd (AsyncMemoryCache.get now url None cache)))).
Proof.
  intros Hmiss Hdl Hparse Hdict Hdump. unfold get_cached_mpd.
  destruct (AsyncMemoryCache.get now url None cache) as [cached c1].
  simpl in Hmiss. subst cached. simpl.
  unfold fetch_mpd. rewrite Hdl. simpl. rewrite Hparse. simpl.
  rewrite Hdict. simpl. rewrite Hdump. simpl. reflexivity.
Qed.

(** C5.  On a cache miss whose fetch succeeds, the raw manifest is stored
    with a time to live equal to the minimum update period when that is
    positive, one second when it is zero or negative, and 3600 seconds
    when there is none.  With a period of 5 seconds, the entry is served
    4 seconds after it was stored and is a miss after 6 seconds. *)
Theorem C5_manifest_ttl (now : pynum) (t : Q) url hdrs parse_drm pid cache
    content raw parsed encoded :
  fst (AsyncMemoryCache.get now url None cache) = None ->
  download_file_with_retry url hdrs = Ok content ->
  parse_mpd content = Ok raw ->
  parse_mpd_dict raw url parse_drm pid = Ok parsed ->
  json_dumps_mpd raw = Ok encoded ->
  let r := get_cached_mpd now (Fin t) url hdrs parse_drm pid cache in
  let mup := minimumUpdatePeriod parsed in
  let ttl := cache_ttl_of mup in
  fst r = Ok parsed
  /\ od_get url (LRUMemoryCache._cache (AsyncMemoryCache.memory_cache (snd r)))
     = Some {| data := encoded; expires_at := num_add (Fin t) ttl;
               access_count := num_of_Z 0; last_access := Fin t;
               size := len encoded |}
  /\ (forall m, mup = Some m -> num_gt m (num_of_Z 0) = true -> ttl = m)
  /\ (forall m, mup = Some m -> num_le m (num_of_Z 0) = true ->
                ttl = num_of_Z 1)
  /\ (mup = None -> ttl = num_of_Z 3600)
  /\ (mup = Some (num_of_Z 5) ->
      fst (AsyncMemoryCache.get (Fin (t + 4)) url None (snd r)) = Some encoded
      /\ fst (AsyncMemoryCache.get (Fin (t + 6)) url None (snd r)) = None).
Proof.
  intros Hmiss Hdl Hparse Hdict Hdump r mup ttl.
  assert (Hr : r = (Ok parsed,
                    snd (AsyncMemoryCache.set (Fin t) url encoded (Some ttl)
                           (snd (AsyncMemoryCache.get now url None cache)))))
    by (by apply get_cached_mpd_fresh with content raw).
  assert (Hentry :
    od_get url (LRUMemoryCache._cache (AsyncMemoryCache.memory_cache (snd r)))
    = Some {| data := encoded; expires_at := num_add (Fin t) ttl;
              access_count := num_of_Z 0; last_access := Fin t;
              size := len encoded |}).
  { rewrite Hr. cbn [snd]. subst ttl mup.
    rewrite async_set_memory, cache_ttl_truthy.
    apply set_lookup. }
  split_and!.
  - by rewrite Hr.
  - exact Hentry.
  - intros m Hm Hgt. subst ttl. rewrite Hm. unfold cache_ttl_of.
    by rewrite Hgt.
  - intros m Hm Hle. subst ttl. rewrite Hm. unfold cache_ttl_of.
    by rewrite (num_le_zero_not_gt m Hle), Hle.
  - intros Hm. subst ttl. by rewrite Hm.
  - intros Hm.
    assert (Httl : ttl = num_of_Z 5) by (subst ttl; by rewrite Hm).
    rewrite Httl in Hentry. unfold AsyncMemoryCache.get, LRUMemoryCache.get.
    rewrite Hentry. simpl.
    assert (H4 : Qltb (t + 4) (t + inject_Z 5) = true).
    { apply Qltb_true. change (inject_Z 5) with 5%Q. lra. }
    assert (H6 : Qltb (t + 6) (t + inject_Z 5) = false).
    { apply Qltb_false. change (inject_Z 5) with 5%Q. lra. }
    by rewrite H4, H6.
Qed.

(** C7, as the code has it.  When the download raises [DownloadError] on
    a cold cache, [get_cached_mpd] raises that same error, and
    [get_cached_init_segment] catches it and returns [None]. *)
Theorem C7_download_error_on_cold_cache
    io now now' mpd_url init_url hdrs parse_drm pid
    (mpd_cache : AsyncMemoryCache.t) (init_cache : HybridCache.t)
    status message status' message' :
  fst (AsyncMemoryCache.get now mpd_url None mpd_cache) = None ->
  download_file_with_retry mpd_url hdrs
    = Raise (DownloadError status message) ->
  fst (HybridCache.get io now init_url None init_cache) = None ->
  download_file_with_retry init_url hdrs
    = Raise (DownloadError status' message') ->
  fst (get_cached_mpd now now' mpd_url hdrs parse_drm pid mpd_cache)
    = Raise (DownloadError status message)
  /\ fst (get_cached_init_segment io now now' init_url hdrs init_cache)
     = Ok None.
Proof.
  intros Hmiss Hdl Hmiss' Hdl'. split.
  - unfold get_cached_mpd.
    destruct (AsyncMemoryCache.get now mpd_url None mpd_cache) as [cached c1].
    simpl in Hmiss. subst cached. simpl.
    unfold fetch_mpd. by rewrite Hdl.
  - unfold get_cached_init_segment.
    destruct (HybridCache.get io now init_url None init_cache) as [cached c1].
    simpl in Hmiss'. subst cached. by rewrite Hdl'.
Qed.

End FacadeFacts.

(** C5 at work: a live manifest with a period of five seconds, fetched at
    time 1000 into the empty [MPD_CACHE]. *)
Lemma C5_witness :
  let U := origin_up (bytes_of "<MPD/>") (Some (num_of_Z 5)) in
  let url := "https://origin.example/live.mpd" in
  fst (AsyncMemoryCache.get (num_of_Z 1000) url None MPD_CACHE) = None
  /\ @download_file_with_retry U url [] = Ok (bytes_of "<MPD/>")
  /\ fst (AsyncMemoryCache.get (Fin (1000 + 4)) url None
            (snd (@get_cached_mpd U (num_of_Z 1000) (Fin 1000) url [] false
                    None MPD_CACHE)))
     = Some (bytes_of "<MPD/>")
  /\ fst (AsyncMemoryCache.get (Fin (1000 + 6)) url None
            (snd (@get_cached_mpd U (num_of_Z 1000) (Fin 1000) url [] false
                    None MPD_CACHE)))
     = None.
Proof.
  intros U url.
  assert (H1 : fst (AsyncMemoryCache.get (num_of_Z 1000) url None MPD_CACHE)
               = None) by reflexivity.
  pose proof (@C5_manifest_ttl U (num_of_Z 1000) 1000 url [] false None
                MPD_CACHE (bytes_of "<MPD/>") (bytes_of "<MPD/>")
                {| isLive := true; minimumUpdatePeriod := Some (num_of_Z 5);
                   profiles := [] |}
                (bytes_of "<MPD/>") H1 eq_refl eq_refl eq_refl eq_refl)
    as (_ & _ & _ & _ & _ & W).
  destruct (W eq_refl) as [W4 W6].
  repeat split; assumption.
Defined.

(** C7, the claim as stated fails for the init segment.  The origin is
    down and the cache is empty; [get_cached_init_segment] does not raise
    the [DownloadError], it returns [None]. *)
Lemma C7_init_segment_swallows_download_error :
  let url := "https://origin.example/init.mp4" in
  let cache := INIT_SEGMENT_CACHE ∅ in
  fst (@HybridCache.get ref_json no_faults (num_of_Z 1000) url None cache) = None
  /\ @download_file_with_retry origin_down url []
     = Raise (DownloadError 503 "Service Unavailable")
  /\ fst (@get_cached_init_segment ref_json origin_down no_faults
            (num_of_Z 1000) (num_of_Z 1000) url [] cache) = Ok None
  /\ fst (@get_cached_init_segment ref_json origin_down no_faults
            (num_of_Z 1000) (num_of_Z 1000) url [] cache)
     <> Raise (DownloadError 503 "Service Unavailable").
Proof. vm_compute. repeat split; try reflexivity. discriminate. Qed.

Lemma C7_witness :
  let mpd_url := "https://origin.example/live.mpd" in
  let init_url := "https://origin.example/init.mp4" in
  fst (AsyncMemoryCache.get (num_of_Z 1000) mpd_url None MPD_CACHE) = None
  /\ @download_file_with_retry origin_down mpd_url []
     = Raise (DownloadError 503 "Service Unavailable")
  /\ fst (@HybridCache.get ref_json no_faults (num_of_Z 1000) init_url None
            (INIT_SEGMENT_CACHE ∅)) = None
  /\ fst (@get_cached_mpd origin_down (num_of_Z 1000) (num_of_Z 1000) mpd_url
            [] false None MPD_CACHE)
     = Raise (DownloadError 503 "Service Unavailable")
  /\ fst (@get_cached_init_segment ref_json origin_down no_faults
            (num_of_Z 1000) (num_of_Z 1000) init_url [] (INIT_SEGMENT_CACHE ∅))
     = Ok None.
Proof.
  intros mpd_url init_url.
  assert (H1 : fst (AsyncMemoryCache.get (num_of_Z 1000) mpd_url None MPD_CACHE)
               = None) by reflexivity.
  assert (H3 : fst (@HybridCache.get ref_json no_faults (num_of_Z 1000)
                      init_url None (INIT_SEGMENT_CACHE ∅)) = None)
    by (vm_compute; reflexivity).
  pose proof (@C7_download_error_on_cold_cache ref_json origin_down no_faults
                (num_of_Z 1000) (num_of_Z 1000) mpd_url init_url [] false None
                MPD_CACHE (INIT_SEGMENT_CACHE ∅) 503 "Service Unavailable"
                503 "Service Unavailable" H1 eq_refl H3 eq_refl) as [W1 W2].
  repeat split; assumption.
Defined.

(** ** build_hls *)

Lemma od_setitem_elem {V} (k k' : string) (v v' : V) (d : odict V) :
  NoDup (od_keys d) ->
  (k', v') ∈ od_setitem k v d ->
  (k' = k /\ v' = v) \/ (k' ≠ k /\ (k', v') ∈ d).
Proof.
  unfold od_keys. induction d as [|[k0 v0] d IH]; simpl.
  - intros _ Hin%list_elem_of_singleton. simplify_eq. by left.
  - intros [Hk0 Hnd]%NoDup_cons.
    destruct (String.eqb_spec k k0) as [->|Hne]; intros [Heq|Hin]%elem_of_cons.
    + simplify_eq. by left.
    + right. split; [|by right].
      intros ->. apply Hk0.
      apply list_elem_of_In, in_map_iff. exists (k0, v').
      split; [done|]. by apply list_elem_of_In.
    + simplify_eq. right. split; [done|by left].
    + destruct (IH Hnd Hin) as [?|[? ?]]; [by left|].
      right. split; [done|by right].
Qed.

Lemma last_with_snoc sel k ps q :
  last_with sel k (ps ++ [q])
  = if String.eqb (id q) k && sel q then Some q else last_with sel k ps.
Proof.
  unfold last_with. rewrite List.filter_app. simpl.
  destruct (String.eqb (id q) k && sel q).
  - apply last_snoc.
  - by rewrite app_nil_r.
Qed.

Lemma bucket_ok_nil sel : bucket_ok sel [] [].
Proof.
  split; [apply NoDup_nil_2|].
  intros k p u Hin. by apply elem_of_nil in Hin.
Qed.

(** A profile of another kind leaves the bucket right. *)
Lemma bucket_ok_skip sel ps q d :
  sel q = false -> bucket_ok sel ps d -> bucket_ok sel (ps ++ [q]) d.
Proof.
  intros Hsel [Hnd Hd]. split; [done|].
  intros k p u Hin. destruct (Hd k p u Hin) as [Hid Hlast].
  split; [done|].
  by rewrite last_with_snoc, Hsel, andb_false_r.
Qed.

(** [bucket[id] = (profile, url)] for a profile of the bucket's kind. *)
Lemma bucket_ok_put sel ps q u d :
  sel q = true -> bucket_ok sel ps d ->
  bucket_ok sel (ps ++ [q]) (od_setitem (id q) (q, u) d).
Proof.
  intros Hsel [Hnd Hd]. split; [by apply od_setitem_NoDup|].
  intros k p u' Hin. rewrite last_with_snoc, Hsel, andb_true_r.
  destruct (od_setitem_elem _ _ _ _ _ Hnd Hin) as [[-> Heq]|[Hne Hold]].
  - simplify_eq. by rewrite String.eqb_refl.
  - destruct (Hd k p u' Hold) as [Hid Hlast]. split; [done|].
    destruct (String.eqb_spec (id q) k); [congruence|done].
Qed.

Section MasterFacts.
Context `{HttpUtils}.

Lemma bucket_profiles_ok proxy_url has_encrypted key_id key query ps :
  let b := bucket_profiles proxy_url has_encrypted key_id key query ps in
  bucket_ok is_video_profile ps (video_profiles b)
  /\ bucket_ok is_audio_profile ps (audio_profiles b).
Proof.
  induction ps as [|q ps IH] using rev_ind.
  - split; apply bucket_ok_nil.
  - unfold bucket_profiles. rewrite fold_left_app. simpl.
    fold (bucket_profiles proxy_url has_encrypted key_id key query ps).
    destruct IH as [IHv IHa]. unfold bucket_step.
    destruct (str_in "video" (mimeType q)) eqn:Hv; simpl.
    + split.
      * by apply bucket_ok_put.
      * apply bucket_ok_skip; [|done].
        unfold is_audio_profile. by rewrite Hv.
    + destruct (str_in "audio" (mimeType q)) eqn:Ha; simpl.
      * split.
        -- by apply bucket_ok_skip.
        -- apply bucket_ok_put; [|done].
           unfold is_audio_profile. by rewrite Hv, Ha.
      * split; apply bucket_ok_skip; try done.
        unfold is_audio_profile. by rewrite Hv, Ha.
Qed.

Lemma bucket_ok_values sel ps (d : odict (Profile * string)) :
  bucket_ok sel ps d ->
  NoDup (map (fun pu => id (fst pu)) (od_values d))
  /\ forall p u, (p, u) ∈ od_values d -> last_with sel (id p) ps = Some p.
Proof.
  intros [Hnd Hd].
  assert (Hkeys : map (fun pu => id (fst pu)) (od_values d) = od_keys d).
  { unfold od_values, od_keys. clear Hnd.
    induction d as [|[k [p u]] d IH]; simpl; [done|].
    f_equal.
    - apply (Hd k p u). by left.
    - apply IH. intros k' p' u' Hin. apply (Hd k' p' u'). by right. }
  split; [by rewrite Hkeys|].
  intros p u Hin.
  apply list_elem_of_In, in_map_iff in Hin as [[k [p' u']] [Heq Hin]].
  simpl in Heq. simplify_eq.
  apply list_elem_of_In in Hin.
  destruct (Hd k p u Hin) as [<- Hlast]. done.
Qed.

(** When every profile with the id [i] is of the kind [sel], the last of
    that kind is the last of all. *)
Lemma last_with_all_of_kind sel i ps :
  (forall q, q ∈ ps -> id q = i -> sel q = true) ->
  last_with sel i ps = last_of_id i ps.
Proof.
  intros Hall. unfold last_with, last_of_id. f_equal.
  apply filter_ext_in. intros q Hq%list_elem_of_In.
  destruct (String.eqb_spec (id q) i) as [Hid|]; [|done].
  by rewrite (Hall q Hq Hid).
Qed.

End MasterFacts.

(** Two video profiles with the id ["v1"] and an audio profile: the
    master manifest has one audio line and one video record, and the video
    record is that of the second ["v1"] profile (bandwidth 2000000). *)
Lemma build_hls_duplicate_id_example :
  let v1 := {| id := "v1"; mimeType := "video/mp4"; bandwidth := AInt 1000000;
               width := AInt 1280; height := AInt 720;
               codecs := AStr "avc1.64001f"; frameRate := AStr "30";
               lang := None; initUrl := "init-v1.mp4"; segments := [] |} in
  let v1' := {| id := "v1"; mimeType := "video/mp4"; bandwidth := AInt 2000000;
                width := AInt 1920; height := AInt 1080;
                codecs := AStr "avc1.640028"; frameRate := AStr "30";
                lang := None; initUrl := "init-v1b.mp4"; segments := [] |} in
  let a1 := {| id := "a1"; mimeType := "audio/mp4"; bandwidth := AInt 128000;
               width := AStr ""; height := AStr ""; codecs := AStr "mp4a.40.2";
               frameRate := AStr ""; lang := Some "en";
               initUrl := "init-a1.mp4"; segments := [] |} in
  let request := {| query_params := []; url_for := fun name => "/" +:+ name |} in
  @build_hls_lines ref_http_utils
    {| isLive := false; minimumUpdatePeriod := None;
       profiles := [v1; a1; v1'] |} request None None
  = ["#EXTM3U"; "#EXT-X-VERSION:6";
     "#EXT-X-MEDIA:TYPE=AUDIO,GROUP-ID=" +:+ dq +:+ "audio" +:+ dq
       +:+ ",NAME=" +:+ dq +:+ "a1" +:+ dq
       +:+ ",DEFAULT=YES,AUTOSELECT=YES,LANGUAGE=" +:+ dq +:+ "en" +:+ dq
       +:+ ",URI=" +:+ dq +:+ "/playlist_endpoint?profile_id=a1&key_id=&key="
       +:+ dq;
     "#EXT-X-STREAM-INF:BANDWIDTH=2000000,RESOLUTION=1920x1080,CODECS="
       +:+ dq +:+ "avc1.640028" +:+ dq +:+ ",FRAME-RATE=30,AUDIO="
       +:+ dq +:+ "audio" +:+ dq;
     "/playlist_endpoint?profile_id=v1&key_id=&key="].
Proof. vm_compute. reflexivity. Qed.

(** ** build_hls_playlist *)



Lemma is_max_of_cons_le m a l :
  (a <= m)%Q -> is_max_of m l -> is_max_of m (a :: l).
Proof.
  intros Ha [Hin Hle]. split; [by right|]. by constructor.
Qed.





(** ** Rounding, and the conversion of an int to a float *)

Lemma round_half_even_bounds (x : Q) :
  (inject_Z (round_half_even x) - (1 # 2) <= x
   <= inject_Z (round_half_even x) + (1 # 2))%Q.
Proof.
  unfold round_half_even.
  pose proof (Qfloor_le x) as Hlo. pose proof (Qlt_floor x) as Hhi.
  rewrite inject_Z_plus in Hhi. change (inject_Z 1) with 1%Q in Hhi.
  destruct (Qcompare (x - inject_Z (Qfloor x)) (1 # 2)) eqn:E.
  - apply Qeq_alt in E.
    destruct (Z.even (Qfloor x)).
    + split; lra.
    + rewrite inject_Z_plus. change (inject_Z 1) with 1%Q. split; lra.
  - apply Qlt_alt in E. split; lra.
  - apply Qgt_alt in E. rewrite inject_Z_plus.
    change (inject_Z 1) with 1%Q. split; lra.
Qed.

Lemma round_half_even_Z (n : Z) : round_half_even (inject_Z n) = n.
Proof.
  unfold round_half_even. rewrite Qfloor_Z.
  destruct (Qcompare (inject_Z n - inject_Z n) (1 # 2)) eqn:E.
  - apply Qeq_alt in E. lra.
  - done.
  - apply Qgt_alt in E. lra.
Qed.

Lemma round_half_even_comp (x y : Q) : (x == y)%Q -> round_half_even x = round_half_even y.
Proof.
  intros Hxy. unfold round_half_even.
  rewrite (Qfloor_comp _ _ Hxy).
  assert (Hc : ((x - inject_Z (Qfloor y)) ?= 1 # 2)%Q = ((y - inject_Z (Qfloor y)) ?= 1 # 2)%Q).
  { apply Qcompare_comp; [|reflexivity]. rewrite Hxy. reflexivity. }
  by rewrite Hc.
Qed.

(** Below 2^53 the conversion [float(z)] is exact. *)
Lemma float_of_int_exact (z : Z) :
  Z.abs z < 2 ^ 53 -> float_of_int z = Ok (inject_Z z).
Proof.
  intros Hz. unfold float_of_int.
  assert (He : Z.max 0 (Z.log2 (Z.abs z) - 52) = 0).
  { destruct (Z.eq_dec (Z.abs z) 0) as [->|Hnz]; [done|].
    assert (Z.log2 (Z.abs z) < 53) by (apply Z.log2_lt_pow2; lia). lia. }
  rewrite He. change (2 ^ 0) with 1. change (Z.to_pos 1) with 1%positive.
  rewrite (round_half_even_comp _ (inject_Z (Z.abs z))) by reflexivity.
  rewrite round_half_even_Z, Z.mul_1_r.
  destruct (2 ^ 1024 <=? Z.abs z) eqn:E.
  - apply Z.leb_le in E. assert (2 ^ 53 < 2 ^ 1024) by (apply Z.pow_lt_mono_r; lia). lia.
  - do 2 f_equal. lia.
Qed.

Lemma Qle_half_lower (m a : Z) (P : positive) :
  (inject_Z m - (1 # 2) <= a # P)%Q -> (2 * m - 1) * Z.pos P <= 2 * a.
Proof.
  intros Hq. unfold Qle, Qminus, Qplus, Qopp, inject_Z in Hq. simpl in Hq. lia.
Qed.

Lemma Qle_half_upper (m a : Z) (P : positive) :
  (a # P <= inject_Z m + (1 # 2))%Q -> 2 * a <= (2 * m + 1) * Z.pos P.
Proof.
  intros Hq. unfold Qle, Qminus, Qplus, Qopp, inject_Z in Hq. simpl in Hq. lia.
Qed.

Lemma round_half_even_frac_bounds (a : Z) (P : positive) :
  let m := round_half_even (a # P) in
  (2 * m - 1) * Z.pos P <= 2 * a <= (2 * m + 1) * Z.pos P.
Proof.
  intros m. destruct (round_half_even_bounds (a # P)) as [Hlo Hhi].
  split; [by apply Qle_half_lower|by apply Qle_half_upper].
Qed.

Lemma float_tie_rounds_up :
  round_half_even (float_overflow_bound # Z.to_pos (2 ^ 971)) = 2 ^ 53.
Proof. vm_compute. reflexivity. Qed.

(** [float(z)] raises exactly from [2^1024 - 2^970] on. *)
Lemma float_of_int_overflow (z : Z) :
  float_of_int z = Raise OverflowError <-> float_overflow_bound <= Z.abs z.
Proof.
  assert (H53 : 2 ^ 53 < float_overflow_bound) by (vm_compute; reflexivity).
  destruct (Z_lt_le_dec (Z.abs z) (2 ^ 53)) as [Hsmall|Hbig].
  { rewrite float_of_int_exact by done. split; [done|lia]. }
  unfold float_of_int.
  set (a := Z.abs z) in *.
  assert (Hapos : 0 < a) by (assert (0 < 2 ^ 53) by (vm_compute; reflexivity); lia).
  destruct (Z.log2_spec a Hapos) as [Hlo Hhi].
  set (L := Z.log2 a) in *.
  assert (HL : 53 <= L).
  { destruct (Z_lt_le_dec L 53) as [Hlt|]; [|done].
    assert (2 ^ Z.succ L <= 2 ^ 53) by (apply Z.pow_le_mono_r; lia). lia. }
  rewrite Z.max_r by lia.
  set (e := L - 52).
  assert (Hepos : 0 < 2 ^ e) by (apply Z.pow_pos_nonneg; lia).
  pose proof (round_half_even_frac_bounds a (Z.to_pos (2 ^ e))) as Hb.
  cbv zeta in Hb. rewrite Z2Pos.id in Hb by done.
  set (m := round_half_even (a # Z.to_pos (2 ^ e))) in *.
  assert (HLe : 2 ^ L = 2 ^ 52 * 2 ^ e).
  { unfold e. rewrite <- Z.pow_add_r by lia. f_equal. lia. }
  assert (HSL : 2 ^ Z.succ L = 2 ^ 53 * 2 ^ e).
  { unfold e. rewrite <- Z.pow_add_r by lia. f_equal. lia. }
  rewrite HLe in Hlo. rewrite HSL in Hhi.
  (* 2^52 <= m <= 2^53 *)
  assert (Hm : 2 ^ 52 <= m <= 2 ^ 53).
  { assert (H1 : (2 * m - 1) * 2 ^ e < (2 * 2 ^ 53) * 2 ^ e) by lia.
    apply Z.mul_lt_mono_pos_r in H1; [|done].
    assert (H2 : (2 * 2 ^ 52 - 1) * 2 ^ e < (2 * m + 1) * 2 ^ e) by lia.
    apply Z.mul_lt_mono_pos_r in H2; [|done]. lia. }
  destruct (Z_lt_le_dec L 1023) as [HL1|HL1].
  - (* v <= 2^(L+1) <= 2^1023 *)
    assert (Hv : m * 2 ^ e <= 2 ^ 53 * 2 ^ e) by (apply Z.mul_le_mono_nonneg_r; lia).
    rewrite <- HSL in Hv, Hhi.
    assert (H1 : 2 ^ Z.succ L <= 2 ^ 1023) by (apply Z.pow_le_mono_r; lia).
    assert (H2 : 2 ^ 1023 < float_overflow_bound) by (vm_compute; reflexivity).
    assert (H3 : 2 ^ 1023 < 2 ^ 1024) by (vm_compute; reflexivity).
    destruct (2 ^ 1024 <=? m * 2 ^ e) eqn:E.
    + apply Z.leb_le in E. lia.
    + split; [done|lia].
  - destruct (Z_lt_le_dec 1023 L) as [HL2|HL2].
    + (* L >= 1024 *)
      assert (Hv : 2 ^ 52 * 2 ^ e <= m * 2 ^ e) by (apply Z.mul_le_mono_nonneg_r; lia).
      rewrite <- HLe in Hv, Hlo.
      assert (H1 : 2 ^ 1024 <= 2 ^ L) by (apply Z.pow_le_mono_r; lia).
      assert (H2 : float_overflow_bound < 2 ^ 1024) by (vm_compute; reflexivity).
      destruct (2 ^ 1024 <=? m * 2 ^ e) eqn:E.
      * split; [lia|done].
      * apply Z.leb_gt in E. lia.
    + assert (L = 1023) by lia. subst e m. clearbody L. subst L.
      change (1023 - 52) with 971 in *.
      set (m := round_half_even (a # Z.to_pos (2 ^ 971))) in *.
      assert (H1024 : 2 ^ 1024 = 2 ^ 53 * 2 ^ 971) by (vm_compute; reflexivity).
      assert (Hbound : 2 * float_overflow_bound = (2 * 2 ^ 53 - 1) * 2 ^ 971)
        by (vm_compute; reflexivity).
      destruct (2 ^ 1024 <=? m * 2 ^ 971) eqn:E.
      * apply Z.leb_le in E. split; [intros _|done].
        rewrite H1024 in E.
        assert (2 ^ 53 <= m) by (apply (Z.mul_le_mono_pos_r _ _ (2 ^ 971)); lia).
        nia.
      * apply Z.leb_gt in E. split; [done|]. intros Hge. exfalso.
        rewrite H1024 in E.
        assert (Hmlt : m < 2 ^ 53) by (apply (Z.mul_lt_mono_pos_r (2 ^ 971)); lia).
        destruct (Z.eq_dec a float_overflow_bound) as [Heq|Hne].
        -- subst m. rewrite Heq, float_tie_rounds_up in Hmlt. lia.
        -- assert (2 * float_overflow_bound < 2 * a) by lia.
           nia.
Qed.


Lemma float_of_int_raises (z : Z) :
  float_overflow_bound <= Z.abs z -> float_of_int z = Raise OverflowError.
Proof. apply float_of_int_overflow. Qed.

Section PlaylistFacts.
Context `{HttpUtils}.





(** C3 (defect of the code).  A first profile without segments gets no
    headers: the [continue] for an empty segment list comes before the
    [if index == 0] block, so the defaults that block holds for this very
    case (target duration 5, media sequence 0) are never emitted.  The
    playlist of a single empty profile is the preamble, followed by
    [#EXT-X-ENDLIST] for a VOD manifest; it has no
    [#EXT-X-TARGETDURATION], no [#EXT-X-MEDIA-SEQUENCE] and no
    [#EXT-X-PLAYLIST-TYPE] line. *)
Theorem C3_empty_first_profile_gets_no_headers
    mpd_dict request i m bw w h c fr l iu :
  build_hls_playlist_lines mpd_dict
    [{| id := i; mimeType := m; bandwidth := bw; width := w; height := h;
        codecs := c; frameRate := fr; lang := l; initUrl := iu;
        segments := [] |}] request
  = Ok (["#EXTM3U"; "#EXT-X-VERSION:6"]
          ++ (if isLive mpd_dict then [] else ["#EXT-X-ENDLIST"])).
Proof. reflexivity. Qed.


(** The default of 5 for a first profile with segments never reaches a
    caller: when no segment has a float or int [extinf], the first
    [#EXTINF] line cannot be formatted and the function raises. *)
Lemma default_target_duration_is_never_returned mpd_dict p rest request :
  segments p ≠ [] ->
  extinf_values (segments p) = [] ->
  exists e, build_hls_playlist_lines mpd_dict (p :: rest) request = Raise e.
Proof.
  intros Hne Hvals.
  destruct (segments p) as [|first more] eqn:Esegs; [done|].
  unfold build_hls_playlist_lines. simpl. rewrite Esegs.
  unfold playlist_headers. rewrite Hvals. simpl.
  unfold extinf_values in Hvals. simpl in Hvals.
  unfold segment_lines, format_extinf.
  destruct (extinf first) as [[x|z| |]|]; simpl; try done; eauto.
Qed.

End PlaylistFacts.

(** The VOD playlist of scenario S3: segments of 4.0, 4.5 and 3.9 seconds. *)
Lemma build_hls_playlist_vod_example :
  @build_hls_playlist_lines ref_http_utils
    (example_vod [example_profile example_segments])
    [example_profile example_segments] example_request
  = Ok ["#EXTM3U"; "#EXT-X-VERSION:6";
        "#EXT-X-TARGETDURATION:5"; "#EXT-X-MEDIA-SEQUENCE:0";
        "#EXT-X-PLAYLIST-TYPE:VOD";
        "#EXTINF:4.000,";
        "/segment_endpoint?init_url=init-v1.mp4&segment_url=seg-0.m4s&mime_type=video/mp4";
        "#EXTINF:4.500,";
        "/segment_endpoint?init_url=init-v1.mp4&segment_url=seg-1.m4s&mime_type=video/mp4";
        "#EXTINF:3.900,";
        "/segment_endpoint?init_url=init-v1.mp4&segment_url=seg-2.m4s&mime_type=video/mp4";
        "#EXT-X-ENDLIST"].
Proof. vm_compute. reflexivity. Qed.



(** An int [extinf] beyond the range of a float.  The header step
    succeeds, since [max] and [math.ceil] leave an int as it is; the
    [#EXTINF] line converts the int with [float()], which raises
    [OverflowError], and no playlist is returned. *)
Lemma huge_int_extinf_raises :
  let segs := [example_segment (Some (PInt (10 ^ 400))) 0] in
  has_formattable_extinf (example_segment (Some (PInt (10 ^ 400))) 0) = false
  /\ playlist_headers (example_vod [example_profile segs]) segs
     = Ok ["#EXT-X-TARGETDURATION:" +:+ str_of_Z (10 ^ 400);
           "#EXT-X-MEDIA-SEQUENCE:0"; "#EXT-X-PLAYLIST-TYPE:VOD"]
  /\ @build_hls_playlist ref_http_utils
       (example_vod [example_profile segs])
       [example_profile segs] example_request
     = Raise OverflowError.
Proof. vm_compute. repeat split; reflexivity. Qed.

(** The conversion [float(n)] at the edges: exact up to 2^53, to the
    nearest even mantissa above, refused from [2^1024 - 2^970] on. *)
Lemma float_of_int_examples :
  float_of_int (2 ^ 53) = Ok (inject_Z (2 ^ 53))
  /\ float_of_int (2 ^ 53 + 1) = Ok (inject_Z (2 ^ 53))
  /\ float_of_int (2 ^ 53 + 3) = Ok (inject_Z (2 ^ 53 + 4))
  /\ float_of_int (- (2 ^ 53 + 3)) = Ok (inject_Z (- (2 ^ 53 + 4)))
  /\ float_of_int (float_overflow_bound - 1)
     = Ok (inject_Z (2 ^ 1024 - 2 ^ 971))
  /\ float_of_int float_overflow_bound = Raise OverflowError.
Proof. vm_compute. repeat split; reflexivity. Qed.

(** An empty first profile followed by a profile with segments: the
    segments are listed, and no header line is emitted at all. *)
Lemma build_hls_playlist_empty_first_example :
  @build_hls_playlist_lines ref_http_utils
    (example_vod [example_profile []; example_profile example_segments])
    [example_profile []; example_profile example_segments] example_request
  = Ok ["#EXTM3U"; "#EXT-X-VERSION:6";
        "#EXTINF:4.000,";
        "/segment_endpoint?init_url=init-v1.mp4&segment_url=seg-0.m4s&mime_type=video/mp4";
        "#EXTINF:4.500,";
        "/segment_endpoint?init_url=init-v1.mp4&segment_url=seg-1.m4s&mime_type=video/mp4";
        "#EXTINF:3.900,";
        "/segment_endpoint?init_url=init-v1.mp4&segment_url=seg-2.m4s&mime_type=video/mp4";
        "#EXT-X-ENDLIST"].
Proof. vm_compute. reflexivity. Qed.

(** ** LRUMemoryCache: what holds as long as no key is overwritten *)

Section LRUInvariant.
Import LRUMemoryCache.

Lemma sum_sizes_app d1 d2 : sum_sizes (d1 ++ d2) = sum_sizes d1 + sum_sizes d2.
Proof.
  unfold sum_sizes. induction d1 as [|kv d1 IH]; simpl; [done|].
  rewrite IH. lia.
Qed.

Lemma od_pop_absent {V} k (d : odict V) : od_get k d = None -> od_pop k d = d.
Proof.
  induction d as [|[k0 v0] d IH]; simpl; [done|].
  destruct (String.eqb_spec k k0); [done|]. intros Hd. by rewrite IH.
Qed.

Lemma od_pop_present k e (d : odict CacheEntry) :
  NoDup (od_keys d) -> od_get k d = Some e ->
  od_get k (od_pop k d) = None
  /\ NoDup (od_keys (od_pop k d))
  /\ sum_sizes (od_pop k d) = sum_sizes d - size e
  /\ (forall P, Forall P d -> Forall P (od_pop k d)).
Proof.
  unfold od_keys, sum_sizes. induction d as [|[k0 v0] d IH]; simpl; [done|].
  intros [Hk0 Hnd]%NoDup_cons.
  destruct (String.eqb_spec k k0) as [->|Hne].
  - intros [= ->]. split_and!.
    + by apply od_get_None_keys.
    + done.
    + lia.
    + by intros P [_ HP]%Forall_cons.
  - intros Hk. destruct (IH Hnd Hk) as (H1 & H2 & H3 & H4).
    simpl. destruct (String.eqb_spec k k0); [done|]. split_and!.
    + done.
    + apply NoDup_cons. split; [|done].
      intros Hin. apply Hk0.
      apply list_elem_of_In, in_map_iff in Hin as [[k1 v1] [Heq Hin]].
      simpl in Heq. subst k1.
      apply list_elem_of_In, in_map_iff. exists (k0, v1). split; [done|].
      clear -Hin. induction d as [|[k2 v2] d IHd]; simpl in *; [done|].
      destruct (String.eqb k k2); [by right|].
      destruct Hin as [Heq|Hin]; [by left|right; by apply IHd].
    + rewrite H3. lia.
    + intros P [HP0 HP]%Forall_cons. constructor; [done|by apply H4].
Qed.

(** The eviction loop hands back a tail of the dictionary that has room
    for the new entry, with the matching size. *)
Lemma make_space_spec entry_size maxsize cache current :
  current = sum_sizes cache -> 0 <= entry_size <= maxsize ->
  exists evicted,
    cache = evicted ++ fst (make_space entry_size maxsize cache current)
    /\ snd (make_space entry_size maxsize cache current)
       = sum_sizes (fst (make_space entry_size maxsize cache current))
    /\ snd (make_space entry_size maxsize cache current) + entry_size
       <= maxsize.
Proof.
  intros Hcur Hfit. revert current Hcur.
  induction cache as [|[k e] cache IH]; intros current Hcur; simpl.
  - exists []. unfold sum_sizes in *. simpl in *. split_and!; [done..|lia].
  - destruct (current + entry_size >? maxsize) eqn:E.
    + destruct (IH (current - size e)) as (ev & H1 & H2 & H3).
      { unfold sum_sizes in *. simpl in Hcur. lia. }
      exists ((k, e) :: ev). split_and!; [|done..].
      simpl. by rewrite <- H1.
    + exists []. simpl. split_and!; [done..|lia].
Qed.

Lemma od_get_None_suffix {V} k (d1 d2 : odict V) :
  od_get k (d1 ++ d2) = None -> od_get k d2 = None.
Proof.
  induction d1 as [|[k0 v0] d1 IH]; simpl; [done|].
  destruct (String.eqb k k0); [done|apply IH].
Qed.

Lemma consistent_get now key self :
  consistent self -> consistent (snd (get now key self)).
Proof.
  intros (Hnd & Hpos & Hcur & Hmax). unfold get.
  destruct (od_get key (_cache self)) as [entry|] eqn:Hk; [|done].
  destruct (od_pop_present key entry _ Hnd Hk) as (Habs & Hnd' & Hsum & HP).
  assert (Hentry : 0 <= size entry).
  { clear -Hk Hpos. induction (_cache self) as [|[k0 v0] d IH]; simpl in *;
      [done|].
    apply Forall_cons in Hpos as [H0 Hd].
    destruct (String.eqb key k0); [by simplify_eq|by apply IH]. }
  unfold stored_size in *. fold (sum_sizes (_cache self)) in *.
  destruct (num_lt now (expires_at entry)); unfold consistent, stored_size; simpl.
  - rewrite od_keys_setitem_absent by done.
    fold (sum_sizes (od_pop key (_cache self) ++
            [(key, {| data := data entry; expires_at := expires_at entry;
                      access_count := num_add (access_count entry) (num_of_Z 1);
                      last_access := now; size := size entry |})])).
    rewrite sum_sizes_app, Hsum. unfold sum_sizes at 2 4. simpl.
    split_and!; [| |lia|lia].
    + rewrite <- (od_keys_setitem_absent key _ _ Habs).
      by apply od_setitem_NoDup.
    + apply Forall_app. split; [by apply HP|]. by repeat constructor.
  - rewrite od_pop_absent by done.
    fold (sum_sizes (od_pop key (_cache self))). rewrite Hsum.
    split_and!; [done|by apply HP|lia|lia].
Qed.

Lemma consistent_remove key self :
  consistent self -> consistent (remove key self).
Proof.
  intros (Hnd & Hpos & Hcur & Hmax). unfold remove.
  destruct (od_get key (_cache self)) as [entry|] eqn:Hk; [|done].
  destruct (od_pop_present key entry _ Hnd Hk) as (Habs & Hnd' & Hsum & HP).
  assert (Hentry : 0 <= size entry).
  { clear -Hk Hpos. induction (_cache self) as [|[k0 v0] d IH]; simpl in *;
      [done|].
    apply Forall_cons in Hpos as [H0 Hd].
    destruct (String.eqb key k0); [by simplify_eq|by apply IH]. }
  unfold consistent, stored_size in *. simpl.
  fold (sum_sizes (_cache self)) in *.
  fold (sum_sizes (od_pop key (_cache self))). rewrite Hsum.
  split_and!; [done|by apply HP|lia|lia].
Qed.

(** [set] of a key that is not in the store. *)
Lemma consistent_set_new key entry self :
  consistent self -> 0 <= size entry <= maxsize self ->
  od_get key (_cache self) = None ->
  consistent (set key entry self)
  /\ most_recent (set key entry self) = Some key.
Proof.
  intros (Hnd & Hpos & Hcur & Hmax) Hfit Hnew. unfold set. rewrite Hnew.
  destruct (make_space_spec (size entry) (maxsize self) (_cache self)
              (_current_size self) Hcur Hfit) as (ev & Hsplit & Hsum & Hroom).
  destruct (make_space _ _ _ _) as [cache1 current1]. simpl in *.
  assert (Habs : od_get key cache1 = None).
  { rewrite Hsplit in Hnew. by apply od_get_None_suffix in Hnew. }
  unfold consistent, stored_size, most_recent. simpl.
  rewrite od_keys_setitem_absent by done.
  fold (sum_sizes (cache1 ++ [(key, entry)])).
  rewrite sum_sizes_app. unfold sum_sizes at 2 4. simpl.
  split_and!.
  - unfold od_keys in *. rewrite Hsplit, map_app in Hnd.
    apply NoDup_app in Hnd as (_ & _ & Hnd1).
    rewrite map_app. simpl. apply NoDup_app. split_and!; [done| |].
    + intros x Hx ->%list_elem_of_singleton.
      by apply od_get_None_keys in Habs.
    + apply NoDup_singleton.
  - rewrite Hsplit in Hpos. apply Forall_app in Hpos as [_ Hpos1].
    apply Forall_app. split; [done|]. repeat constructor. simpl. lia.
  - lia.
  - lia.
  - unfold od_keys. rewrite map_app. simpl. apply last_snoc.
Qed.

(** The size bound holds along every run in which each inserted entry fits
    the store and no [set] overwrites a key. *)
Lemma size_bound_without_overwrite ops self :
  consistent self -> inserts_fit (maxsize self) ops -> no_overwrite ops self ->
  consistent (run ops self)
  /\ stored_size (run ops self) <= maxsize (run ops self).
Proof.
  revert self. induction ops as [|o ops IH]; intros self Hc Hfit Hno; simpl.
  - split; [done|]. by destruct Hc as (_ & _ & _ & Hmax).
  - apply Forall_cons in Hfit as [Ho Hfit]. destruct Hno as [Hnew Hno].
    assert (Hstep : consistent (step self o)
                    /\ maxsize (step self o) = maxsize self).
    { destruct o as [now key|key entry|key]; simpl.
      - split; [by apply consistent_get|].
        unfold get. destruct (od_get key (_cache self)); [|done].
        by destruct (num_lt _ _).
      - split; [by apply consistent_set_new|].
        unfold set. by destruct (make_space _ _ _ _).
      - split; [by apply consistent_remove|].
        unfold remove. by destruct (od_get key (_cache self)). }
    destruct Hstep as [Hc' Hmax']. apply IH; [done| |done].
    by rewrite Hmax'.
Qed.

End LRUInvariant.

(** ** Sanity checks of the modelled library functions *)

(** The test suite of RFC 1321, and the digest of the key used above. *)
Lemma md5_test_vectors :
  MD5.hexdigest "" = "d41d8cd98f00b204e9800998ecf8427e"
  /\ MD5.hexdigest "a" = "0cc175b9c0f1b6a831c399e269772661"
  /\ MD5.hexdigest "abc" = "900150983cd24fb0d6963f7d28e17f72"
  /\ MD5.hexdigest "message digest" = "f96b697d7cb7938d525a2f31aaf161d0"
  /\ MD5.hexdigest "k" = "8ce4b16b22b58894aa86c421e8759df3".
Proof. vm_compute. repeat split; reflexivity. Qed.

Lemma format_3f_examples :
  format_3f (Fin 4) = "4.000"
  /\ format_3f (Fin (9 # 2)) = "4.500"
  /\ format_3f (Fin (39 # 10)) = "3.900"
  /\ format_3f (Fin (1 # 16)) = "0.062"
  /\ format_3f (Fin (3 # 16)) = "0.188"
  /\ format_3f (Fin (- 1 # 3)) = "-0.333"
  /\ format_3f PosInf = "inf"
  /\ format_3f NaN = "nan".
Proof. vm_compute. repeat split; reflexivity. Qed.

Lemma str_of_Z_examples :
  str_of_Z 0 = "0" /\ str_of_Z 1042 = "1042" /\ str_of_Z (-3) = "-3".
Proof. vm_compute. repeat split; reflexivity. Qed.

(** [max] keeps a [nan] that comes first and skips one that comes later. *)
Lemma py_max_examples :
  py_max (Fin 4) [NaN; Fin (9 # 2); NegInf] = Fin (9 # 2)
  /\ py_max NaN [Fin 4] = NaN
  /\ py_max (Fin 4) [PosInf; Fin 5] = PosInf.
Proof. vm_compute. repeat split; reflexivity. Qed.

(** The reference codec reads back what it writes. *)
Lemma ref_json_round_trip :
  let m := RefJson.loads
             (RefJson.dumps_metadata (Fin (2601 # 2)) (num_of_Z 0) (num_of_Z 1000)) in
  (fun m => (m !! "expires_at", m !! "access_count")) <$> m
  = Some (Some (Fin 1300.500000), Some (Fin 0.000000)).
Proof. vm_compute. reflexivity. Qed.

(** ** HybridCache: the file tier when the metadata decodes *)

Section FileTierFacts.
Context `{MetadataJson}.
Import HybridCache.

(** A fresh file is served and copied into the memory tier. *)
Lemma get_file_hit io now K default self content m expires count :
  od_get (_get_md5_hash K) (LRUMemoryCache._cache (memory_cache self)) = None ->
  fs_read io (_get_file_path (_get_md5_hash K)) (dir self) = Ok content ->
  read_raises io (metadata_length_of content) = false ->
  json_loads (metadata_bytes_of content) = Some m ->
  m !! "expires_at" = Some expires ->
  num_lt expires now = false ->
  m !! "access_count" = Some count ->
  fst (get io now K default self) = Some (payload_of content)
  /\ od_get (_get_md5_hash K)
       (LRUMemoryCache._cache (memory_cache (snd (get io now K default self))))
     = Some {| data := payload_of content; expires_at := expires;
               access_count := num_add count (num_of_Z 1);
               last_access := now; size := len (payload_of content) |}.
Proof.
  intros Hmem Hread Hr Hjson Hexp Hfresh Hcount. unfold get.
  rewrite (get_absent now _ _ Hmem). cbn [with_memory dir memory_cache].
  rewrite Hread. unfold metadata_length_of in Hr. rewrite Hr.
  fold (metadata_bytes_of content). rewrite Hjson, Hexp, Hfresh.
  rewrite Hcount. fold (payload_of content). simpl.
  split; [done|]. apply set_lookup.
Qed.

(** An expired file is removed; this is the only path of [get] that
    deletes. *)
Lemma get_file_expired io now K default self content m expires :
  od_get (_get_md5_hash K) (LRUMemoryCache._cache (memory_cache self)) = None ->
  fs_read io (_get_file_path (_get_md5_hash K)) (dir self) = Ok content ->
  read_raises io (metadata_length_of content) = false ->
  json_loads (metadata_bytes_of content) = Some m ->
  m !! "expires_at" = Some expires ->
  num_lt expires now = true ->
  remove_fails io = false ->
  fst (get io now K default self) = default
  /\ dir (snd (get io now K default self))
       !! _get_file_path (_get_md5_hash K) = None.
Proof.
  intros Hmem Hread Hr Hjson Hexp Hstale Hrm. unfold get.
  rewrite (get_absent now _ _ Hmem). cbn [with_memory dir memory_cache].
  rewrite Hread. unfold metadata_length_of in Hr. rewrite Hr.
  fold (metadata_bytes_of content). rewrite Hjson, Hexp, Hstale.
  simpl. split; [done|].
  unfold delete, fs_remove. rewrite Hrm. simpl.
  unfold fs_read in Hread. destruct (open_read_fails io); [done|].
  destruct (dir self !! _get_file_path (_get_md5_hash K)) eqn:Hfile; [|done].
  simpl. apply lookup_delete_eq.
Qed.

End FileTierFacts.

(* ===================================================================== *)
(** * Part III: further properties of the code                             *)
(* ===================================================================== *)

(** ** LRUMemoryCache *)

Section LRUMore.
Import LRUMemoryCache.

Lemma run_maxsize ops self : maxsize (run ops self) = maxsize self.
Proof.
  revert self. induction ops as [|o ops IH]; intros self; simpl; [done|].
  rewrite IH. destruct o as [now key|key entry|key]; simpl.
  - unfold get. destruct (od_get key (_cache self)); [|done].
    by destruct (num_lt _ _).
  - unfold set. by destruct (make_space _ _ _ _).
  - unfold remove. by destruct (od_get key (_cache self)).
Qed.

Lemma consistent_init m : 0 <= m -> consistent (init m).
Proof.
  intros Hm. unfold consistent, init, stored_size, sum_sizes. simpl.
  split_and!; [apply NoDup_nil_2|constructor|done|done].
Qed.

(** X1.  Started empty, the store keeps its size bound and its
    bookkeeping along every run of [get], [set] and [remove] in which each
    inserted entry fits the store and no [set] writes a key that is in the
    store: the sizes held add up to [_current_size], which is at most
    [maxsize]. *)
Theorem X1_size_bound_from_empty (m : Z) (ops : list op) :
  0 <= m -> inserts_fit m ops -> no_overwrite ops (init m) ->
  stored_size (run ops (init m)) <= m
  /\ _current_size (run ops (init m)) = stored_size (run ops (init m))
  /\ NoDup (od_keys (_cache (run ops (init m)))).
Proof.
  intros Hm Hfit Hno.
  destruct (size_bound_without_overwrite ops (init m) (consistent_init m Hm)
              Hfit Hno) as [(Hnd & _ & Hcur & _) Hmax].
  rewrite run_maxsize in Hmax. done.
Qed.

(** The eviction loop returns a tail of the dictionary. *)
Lemma make_space_tail entry_size maxsize cache current :
  exists evicted,
    cache = evicted ++ fst (make_space entry_size maxsize cache current).
Proof.
  revert current. induction cache as [|[k e] cache IH]; intros current; simpl.
  - by exists [].
  - destruct (current + entry_size >? maxsize).
    + destruct (IH (current - size e)) as [ev Hev].
      exists ((k, e) :: ev). simpl. by rewrite <- Hev.
    + by exists [].
Qed.

Lemma make_space_fits entry_size maxsize cache current :
  current + entry_size <= maxsize ->
  make_space entry_size maxsize cache current = (cache, current).
Proof.
  intros Hfit. destruct cache as [|[k e] cache]; simpl; [done|].
  destruct (current + entry_size >? maxsize) eqn:E; [lia|done].
Qed.

(** X2.  [set] evicts in recency order: what it keeps is a tail of the
    old order, to which the new entry is written; a new key goes last, and
    when the entry fits beside what is there nothing is evicted. *)
Theorem X2_set_evicts_oldest_first key entry self :
  exists evicted kept,
    _cache self = evicted ++ kept
    /\ _cache (set key entry self) = od_setitem key entry kept
    /\ (od_get key (_cache self) = None ->
        od_keys (_cache (set key entry self)) = od_keys kept ++ [key])
    /\ (od_get key (_cache self) = None ->
        _current_size self + size entry <= maxsize self ->
        evicted = []).
Proof.
  unfold set.
  set (current0 := match od_get key (_cache self) with
                   | Some old_entry => _current_size self - size old_entry
                   | None => _current_size self
                   end).
  destruct (make_space_tail (size entry) (maxsize self) (_cache self) current0)
    as [evicted Hev].
  destruct (make_space (size entry) (maxsize self) (_cache self) current0)
    as [cache1 current1] eqn:Hms. simpl in *.
  exists evicted, cache1. split_and!; [done|done| |].
  - intros Hnew. rewrite Hev in Hnew. apply od_get_None_suffix in Hnew.
    rewrite od_keys_setitem_absent by done.
    unfold od_keys. by rewrite map_app.
  - intros Hnew Hfit. subst current0. rewrite Hnew in Hms.
    rewrite make_space_fits in Hms by done. simplify_eq.
    destruct evicted as [|x evicted]; [done|].
    apply (f_equal length) in Hev. rewrite length_app in Hev. simpl in Hev. lia.
Qed.

Lemma make_space_oversized entry_size maxsize cache current :
  maxsize < entry_size -> current = sum_sizes cache ->
  Forall (fun kv => 0 <= size (snd kv)) cache ->
  make_space entry_size maxsize cache current = ([], 0).
Proof.
  intros Hbig. revert current.
  induction cache as [|[k e] cache IH]; intros current Hcur Hpos; simpl.
  - unfold sum_sizes in Hcur. simpl in Hcur. by subst.
  - apply Forall_cons in Hpos as [He Hpos]. simpl in He.
    assert (Hsum : 0 <= sum_sizes cache).
    { clear -Hpos. unfold sum_sizes.
      induction Hpos as [|[k' e'] l H0 _ IHl]; simpl in *; lia. }
    unfold sum_sizes in Hcur. simpl in Hcur. fold (sum_sizes cache) in Hcur.
    destruct (current + entry_size >? maxsize) eqn:E; [|lia].
    apply IH; [lia|done].
Qed.

(** X3.  In a store whose [_current_size] is the sum of the sizes it
    holds (sizes are lengths, so none is negative), an entry larger than
    [maxsize], written under a new key, empties the store and is inserted
    all the same: it is then the only entry, and [_current_size] exceeds
    [maxsize].  The store need not be within its bound before. *)
Theorem X3_oversized_entry_evicts_everything key entry self :
  _current_size self = stored_size self ->
  Forall (fun kv => 0 <= size (snd kv)) (_cache self) ->
  od_get key (_cache self) = None ->
  maxsize self < size entry ->
  _cache (set key entry self) = [(key, entry)]
  /\ _current_size (set key entry self) = size entry
  /\ maxsize (set key entry self) < _current_size (set key entry self).
Proof.
  intros Hcur Hpos Hnew Hbig. unfold set. rewrite Hnew.
  rewrite (make_space_oversized _ _ _ _ Hbig Hcur Hpos). simpl.
  split_and!; [done|lia|lia].
Qed.

Lemma od_get_pop_eq {V} k (d : odict V) :
  NoDup (od_keys d) -> od_get k (od_pop k d) = None.
Proof.
  unfold od_keys. induction d as [|[k0 v0] d IH]; simpl; [done|].
  intros [Hk0 Hnd]%NoDup_cons.
  destruct (String.eqb_spec k k0) as [->|Hne].
  - by apply od_get_None_keys.
  - simpl. destruct (String.eqb_spec k k0); [done|by apply IH].
Qed.

(** X4.  [get] of an entry that is no longer fresh ([now < expires_at]
    fails) reports a miss and removes the entry: the key is gone, the other
    keys are untouched, and the entry's size is taken off
    [_current_size]. *)
Theorem X4_get_removes_stale_entry now key entry self :
  NoDup (od_keys (_cache self)) ->
  od_get key (_cache self) = Some entry ->
  num_lt now (expires_at entry) = false ->
  fst (get now key self) = None
  /\ od_get key (_cache (snd (get now key self))) = None
  /\ (forall key', key ≠ key' ->
        od_get key' (_cache (snd (get now key self)))
        = od_get key' (_cache self))
  /\ _current_size (snd (get now key self)) = _current_size self - size entry.
Proof.
  intros Hnd Hk Hstale. unfold get. rewrite Hk, Hstale. simpl.
  pose proof (od_get_pop_eq key _ Hnd) as Hgone.
  rewrite (od_pop_absent key (od_pop key (_cache self)) Hgone).
  split_and!; [done|done| |done].
  intros key' Hne. by apply od_get_pop_ne.
Qed.

(** X5.  [get] of a fresh entry returns it with [access_count] raised by
    one and [last_access] set to the clock, makes its key the most recent
    one, and changes neither the other entries nor [_current_size]. *)
Theorem X5_get_refreshes_entry now key entry self :
  NoDup (od_keys (_cache self)) ->
  od_get key (_cache self) = Some entry ->
  num_lt now (expires_at entry) = true ->
  let entry' := {| data := data entry; expires_at := expires_at entry;
                   access_count := num_add (access_count entry) (num_of_Z 1);
                   last_access := now; size := size entry |} in
  fst (get now key self) = Some entry'
  /\ od_get key (_cache (snd (get now key self))) = Some entry'
  /\ most_recent (snd (get now key self)) = Some key
  /\ (forall key', key ≠ key' ->
        od_get key' (_cache (snd (get now key self)))
        = od_get key' (_cache self))
  /\ _current_size (snd (get now key self)) = _current_size self.
Proof.
  intros Hnd Hk Hfresh entry'. unfold get. rewrite Hk, Hfresh. simpl.
  fold entry'. pose proof (od_get_pop_eq key _ Hnd) as Hgone.
  split_and!; [done|apply od_get_setitem_eq| | |done].
  - unfold most_recent. simpl. rewrite od_keys_setitem_absent by done.
    unfold od_keys. rewrite map_app. apply last_snoc.
  - intros key' Hne.
    rewrite od_get_setitem_ne by done. by apply od_get_pop_ne.
Qed.

Lemma remove_lookup_eq key self :
  NoDup (od_keys (_cache self)) ->
  od_get key (_cache (remove key self)) = None.
Proof.
  intros Hnd. unfold remove.
  destruct (od_get key (_cache self)) eqn:Hk; simpl; [|done].
  by apply od_get_pop_eq.
Qed.

(** X6.  After [remove(key)] the key is gone and a [get] of it misses; the
    other entries are untouched, and a [remove] of a key that is not in
    the store changes nothing. *)
Theorem X6_remove_then_get_misses now key self :
  NoDup (od_keys (_cache self)) ->
  od_get key (_cache (remove key self)) = None
  /\ get now key (remove key self) = (None, remove key self)
  /\ (forall key', key ≠ key' ->
        od_get key' (_cache (remove key self)) = od_get key' (_cache self))
  /\ (od_get key (_cache self) = None -> remove key self = self).
Proof.
  intros Hnd.
  pose proof (remove_lookup_eq key self Hnd) as Hgone.
  split_and!.
  - done.
  - by apply get_absent.
  - intros key' Hne. by apply remove_lookup_ne.
  - intros Hk. unfold remove. by rewrite Hk.
Qed.

End LRUMore.

Lemma X1_witness :
  0 <= 10
  /\ LRUMemoryCache.inserts_fit 10 example_ops
  /\ LRUMemoryCache.no_overwrite example_ops (LRUMemoryCache.init 10)
  /\ LRUMemoryCache.stored_size
       (LRUMemoryCache.run example_ops (LRUMemoryCache.init 10)) <= 10.
Proof.
  assert (H1 : 0 <= 10) by lia.
  assert (H2 : LRUMemoryCache.inserts_fit 10 example_ops).
  { unfold LRUMemoryCache.inserts_fit, example_ops.
    repeat constructor; simpl; lia. }
  assert (H3 : LRUMemoryCache.no_overwrite example_ops (LRUMemoryCache.init 10)).
  { vm_compute. repeat split; reflexivity. }
  split; [exact H1|]. split; [exact H2|]. split; [exact H3|].
  exact (proj1 (X1_size_bound_from_empty 10 example_ops H1 H2 H3)).
Defined.

Lemma example_store_consistent : LRUMemoryCache.consistent example_store.
Proof.
  unfold LRUMemoryCache.consistent, example_store, LRUMemoryCache.stored_size,
    LRUMemoryCache.sum_sizes. simpl.
  split_and!; [|repeat constructor; simpl; lia|done|done].
  apply NoDup_cons. split; [|apply NoDup_singleton].
  intros Hin%list_elem_of_singleton. discriminate.
Defined.

(** X3 at work on a store that is over its bound already: it holds one
    entry of 11 bytes at [maxsize = 10], and a [set] of 12 bytes under
    another key replaces it. *)
Lemma X3_witness :
  let store := LRUMemoryCache.set "big" (sized_entry 11) example_store in
  LRUMemoryCache._current_size store = LRUMemoryCache.stored_size store
  /\ LRUMemoryCache.maxsize store < LRUMemoryCache.stored_size store
  /\ Forall (fun kv => 0 <= size (snd kv)) (LRUMemoryCache._cache store)
  /\ od_get "huge" (LRUMemoryCache._cache store) = None
  /\ LRUMemoryCache.maxsize store < size (sized_entry 12)
  /\ LRUMemoryCache._cache
       (LRUMemoryCache.set "huge" (sized_entry 12) store)
     = [("huge", sized_entry 12)].
Proof.
  intros store.
  assert (H1 : LRUMemoryCache._current_size store
               = LRUMemoryCache.stored_size store) by reflexivity.
  assert (H2 : Forall (fun kv => 0 <= size (snd kv))
                 (LRUMemoryCache._cache store)).
  { repeat constructor. simpl. lia. }
  assert (H3 : od_get "huge" (LRUMemoryCache._cache store) = None)
    by reflexivity.
  assert (H4 : LRUMemoryCache.maxsize store < size (sized_entry 12))
    by (simpl; lia).
  split; [exact H1|]. split; [vm_compute; reflexivity|].
  split; [exact H2|]. split; [exact H3|]. split; [exact H4|].
  exact (proj1 (X3_oversized_entry_evicts_everything "huge" (sized_entry 12)
                  store H1 H2 H3 H4)).
Defined.

Lemma example_store_NoDup :
  NoDup (od_keys (LRUMemoryCache._cache example_store)).
Proof. exact (proj1 example_store_consistent). Defined.

Lemma X4_witness :
  let entry := {| data := repeat Byte.x00 6; expires_at := num_of_Z 50;
                  access_count := num_of_Z 0; last_access := num_of_Z 0;
                  size := 6 |} in
  NoDup (od_keys (LRUMemoryCache._cache example_store))
  /\ od_get "a" (LRUMemoryCache._cache example_store) = Some entry
  /\ num_lt (num_of_Z 50) (expires_at entry) = false
  /\ fst (LRUMemoryCache.get (num_of_Z 50) "a" example_store) = None
  /\ od_get "a" (LRUMemoryCache._cache
                   (snd (LRUMemoryCache.get (num_of_Z 50) "a" example_store)))
     = None.
Proof.
  intros entry.
  assert (H2 : od_get "a" (LRUMemoryCache._cache example_store) = Some entry)
    by reflexivity.
  assert (H3 : num_lt (num_of_Z 50) (expires_at entry) = false)
    by reflexivity.
  pose proof (X4_get_removes_stale_entry (num_of_Z 50) "a" entry example_store
                example_store_NoDup H2 H3) as (W1 & W2 & _).
  split; [exact example_store_NoDup|]. split; [exact H2|]. split; [exact H3|].
  split; [exact W1|exact W2].
Defined.

Lemma X5_witness :
  let entry := {| data := repeat Byte.x00 6; expires_at := num_of_Z 50;
                  access_count := num_of_Z 0; last_access := num_of_Z 0;
                  size := 6 |} in
  NoDup (od_keys (LRUMemoryCache._cache example_store))
  /\ od_get "a" (LRUMemoryCache._cache example_store) = Some entry
  /\ num_lt (num_of_Z 49) (expires_at entry) = true
  /\ LRUMemoryCache.most_recent
       (snd (LRUMemoryCache.get (num_of_Z 49) "a" example_store)) = Some "a"
  /\ LRUMemoryCache._current_size
       (snd (LRUMemoryCache.get (num_of_Z 49) "a" example_store)) = 10.
Proof.
  intros entry.
  assert (H2 : od_get "a" (LRUMemoryCache._cache example_store) = Some entry)
    by reflexivity.
  assert (H3 : num_lt (num_of_Z 49) (expires_at entry) = true)
    by reflexivity.
  pose proof (X5_get_refreshes_entry (num_of_Z 49) "a" entry example_store
                example_store_NoDup H2 H3) as (_ & _ & W3 & _ & W5).
  split; [exact example_store_NoDup|]. split; [exact H2|]. split; [exact H3|].
  split; [exact W3|exact W5].
Defined.

Lemma X6_witness :
  NoDup (od_keys (LRUMemoryCache._cache example_store))
  /\ od_get "a" (LRUMemoryCache._cache
                   (LRUMemoryCache.remove "a" example_store)) = None
  /\ od_get "b" (LRUMemoryCache._cache
                   (LRUMemoryCache.remove "a" example_store))
     = od_get "b" (LRUMemoryCache._cache example_store).
Proof.
  pose proof (X6_remove_then_get_misses (num_of_Z 0) "a" example_store
                example_store_NoDup) as (W1 & _ & W3 & _).
  split; [exact example_store_NoDup|]. split; [exact W1|].
  apply W3. discriminate.
Defined.

(** ** HybridCache: the frame on disk *)

Lemma byte_of_Z_value (z : Z) : Z.of_N (Byte.to_N (byte_of_Z z)) = z mod 256.
Proof.
  unfold byte_of_Z.
  assert (Hr : 0 <= z mod 256 < 256) by (apply Z.mod_pos_bound; lia).
  destruct (Byte.of_N (Z.to_N (z mod 256))) as [b|] eqn:E.
  - apply Byte.to_of_N in E. rewrite E. apply Z2N.id. lia.
  - apply Byte.of_N_None_iff in E. lia.
Qed.

(** [int.from_bytes(n.to_bytes(8, "big"), "big") == n] *)
Lemma int_bytes8_round_trip (n : Z) :
  0 <= n < 2 ^ 64 -> int_from_bytes_big (int_to_bytes8_big n) = n.
Proof.
  intros Hn. unfold int_from_bytes_big, int_to_bytes8_big.
  cbn [map fold_left]. rewrite !byte_of_Z_value.
  change (2 ^ 64) with 18446744073709551616 in Hn.
  change (256 ^ 7) with 72057594037927936.
  change (256 ^ 6) with 281474976710656.
  change (256 ^ 5) with 1099511627776.
  change (256 ^ 4) with 4294967296.
  change (256 ^ 3) with 16777216.
  change (256 ^ 2) with 65536.
  change (256 ^ 1) with 256.
  change (256 ^ 0) with 1.
  Z.div_mod_to_equations. lia.
Qed.

Lemma int_to_bytes8_big_length (n : Z) : length (int_to_bytes8_big n) = 8%nat.
Proof. reflexivity. Qed.

Section FrameFacts.
Import HybridCache.

Lemma frame_decode (metadata payload : bytes) :
  len metadata < 2 ^ 64 ->
  metadata_bytes_of (int_to_bytes8_big (len metadata) ++ metadata ++ payload)
  = metadata
  /\ payload_of (int_to_bytes8_big (len metadata) ++ metadata ++ payload)
     = payload.
Proof.
  intros Hlen. unfold metadata_bytes_of, payload_of.
  rewrite (take_app_length' (int_to_bytes8_big (len metadata)) _ 8)
    by reflexivity.
  rewrite (drop_app_length' (int_to_bytes8_big (len metadata)) _ 8)
    by reflexivity.
  rewrite int_bytes8_round_trip by (unfold len in *; lia).
  unfold len. rewrite Nat2Z.id.
  by rewrite take_app_length, drop_app_length.
Qed.

Lemma metadata_length_of_frame (metadata payload : bytes) :
  len metadata < 2 ^ 64 ->
  metadata_length_of (int_to_bytes8_big (len metadata) ++ metadata ++ payload)
  = len metadata.
Proof.
  intros Hlen. unfold metadata_length_of.
  rewrite (take_app_length' (int_to_bytes8_big (len metadata)) _ 8)
    by reflexivity.
  apply int_bytes8_round_trip. unfold len in *. lia.
Qed.

(** X7.  The file layout decodes: for a metadata block shorter than 2^64
    bytes, the frame made of the eight-byte big-endian length, the block
    and the payload is split by [get] into exactly that block and that
    payload, whatever bytes the block and the payload hold. *)
Theorem X7_frame_round_trip (metadata payload : bytes) :
  len metadata < 2 ^ 64 ->
  let content := int_to_bytes8_big (len metadata) ++ metadata ++ payload in
  metadata_bytes_of content = metadata /\ payload_of content = payload.
Proof. intros Hlen content. by apply frame_decode. Qed.

End FrameFacts.

Lemma X7_witness :
  len (bytes_of "{}") < 2 ^ 64
  /\ HybridCache.metadata_bytes_of
       (int_to_bytes8_big (len (bytes_of "{}")) ++ bytes_of "{}"
          ++ bytes_of "payload") = bytes_of "{}"
  /\ HybridCache.payload_of
       (int_to_bytes8_big (len (bytes_of "{}")) ++ bytes_of "{}"
          ++ bytes_of "payload") = bytes_of "payload".
Proof.
  assert (H1 : len (bytes_of "{}") < 2 ^ 64) by (vm_compute; reflexivity).
  split; [exact H1|].
  exact (X7_frame_round_trip (bytes_of "{}") (bytes_of "payload") H1).
Defined.

(** ** HybridCache: how the two tiers work together *)

Lemma fs_remove_quietly_gone io path (d : gmap string bytes) :
  remove_fails io = false -> fs_remove_quietly io path d !! path = None.
Proof.
  intros Hrm. unfold fs_remove_quietly, fs_remove. rewrite Hrm.
  destruct (d !! path) eqn:E; [apply lookup_delete_eq|done].
Qed.

Lemma fs_remove_quietly_other io path path' (d : gmap string bytes) :
  path' ≠ path -> fs_remove_quietly io path d !! path' = d !! path'.
Proof. intros Hne. by apply fs_remove_quietly_lookup_ne. Qed.

Section HybridMore.
Context `{MetadataJson}.
Import HybridCache.

(** X8.  What [set] wrote survives the process: in a cache started anew
    over the same directory (empty memory tier), [get] reads the payload
    back from the file, as long as the codec returns the [expires_at] and
    [access_count] it was given and the entry has not expired; the entry is
    copied into the memory tier with [access_count] raised by one.  The
    metadata block is shorter than 2^63 bytes, as every [bytes] object
    is: [get] reads it in one [f.read(n)]. *)
Theorem X8_file_tier_round_trip now now' K P ttl_arg default self m expires count :
  json_loads (json_dumps_metadata
                (num_add now (ttl_or ttl_arg (num_of_Z (ttl self))))
                (num_of_Z 0) now) = Some m ->
  m !! "expires_at" = Some expires ->
  m !! "access_count" = Some count ->
  num_lt expires now' = false ->
  len (json_dumps_metadata
         (num_add now (ttl_or ttl_arg (num_of_Z (ttl self))))
         (num_of_Z 0) now) < 2 ^ 63 ->
  let written := snd (set no_faults now K P ttl_arg self) in
  let restarted :=
    init (cache_dir self) (ttl self)
         (LRUMemoryCache.maxsize (memory_cache self)) (dir written) in
  fst (get no_faults now' K default restarted) = Some P
  /\ od_get (_get_md5_hash K)
       (LRUMemoryCache._cache
          (memory_cache (snd (get no_faults now' K default restarted))))
     = Some {| data := P; expires_at := expires;
               access_count := num_add count (num_of_Z 1);
               last_access := now'; size := len P |}.
Proof.
  intros Hjson Hexp Hcount Hfresh Hlen written restarted.
  assert (Hfile : dir restarted !! _get_file_path (_get_md5_hash K)
                  = Some (frame_of now P ttl_arg self)).
  { subst restarted. unfold init. cbn [dir]. subst written.
    by apply set_ok_writes_file. }
  assert (Hlen64 : len (json_dumps_metadata
                          (num_add now (ttl_or ttl_arg (num_of_Z (ttl self))))
                          (num_of_Z 0) now) < 2 ^ 64).
  { assert (2 ^ 63 < 2 ^ 64) by (vm_compute; reflexivity). lia. }
  destruct (frame_decode _ P Hlen64) as [Hmeta Hpay].
  pose proof (metadata_length_of_frame _ P Hlen64) as Hprefix.
  fold (frame_of now P ttl_arg self) in Hmeta, Hpay, Hprefix.
  pose proof (get_file_hit no_faults now' K default restarted
                (frame_of now P ttl_arg self) m expires count) as Hhit.
  rewrite Hmeta, Hpay in Hhit. apply Hhit; try done.
  - unfold fs_read. cbn [open_read_fails no_faults]. by rewrite Hfile.
  - unfold read_raises. rewrite Hprefix. cbn [read_alloc_fails no_faults].
    rewrite orb_false_r. apply Z.leb_gt. exact Hlen.
Qed.

(** X9.  The write of [set] is all or nothing.  Whatever fault occurs, the
    file under the final name afterwards is the complete new frame when the
    call returns [True] and is what it was before when it returns [False];
    no other file of the directory changes; and the temporary file is gone
    unless the write failed and the clean-up failed too.  The call returns
    [True] exactly when opening, writing and renaming all succeed. *)
Theorem X9_set_writes_all_or_nothing io now K P ttl_arg self :
  let r := set io now K P ttl_arg self in
  let file := _get_file_path (_get_md5_hash K) in
  dir (snd r) !! file
  = (if fst r then Some (frame_of now P ttl_arg self) else dir self !! file)
  /\ (forall path, path ≠ file -> path ≠ with_suffix_tmp file ->
        dir (snd r) !! path = dir self !! path)
  /\ (fst r = true \/ remove_fails io = false ->
      dir (snd r) !! with_suffix_tmp file = None)
  /\ (fst r = true <->
      open_write_fails io = false /\ write_fails_after io = None
      /\ rename_fails io = false).
Proof.
  intros r file. split_and!.
  - destruct (fst r) eqn:Hr.
    + by apply set_ok_writes_file.
    + by apply set_failed_keeps_file.
  - intros path Hfile Htemp. subst r. unfold set.
    destruct (open_write_fails io); simpl.
    + by rewrite fs_remove_quietly_other.
    + destruct (write_fails_after io); simpl.
      * rewrite fs_remove_quietly_other by done.
        by rewrite lookup_insert_ne.
      * destruct (rename_fails io); simpl.
        -- rewrite fs_remove_quietly_other by done.
           by rewrite lookup_insert_ne.
        -- rewrite lookup_insert_ne by done.
           rewrite lookup_delete_ne by done.
           by rewrite lookup_insert_ne.
  - subst r. unfold set.
    destruct (open_write_fails io); simpl.
    + intros [?|Hrm]; [done|]. by apply fs_remove_quietly_gone.
    + destruct (write_fails_after io); simpl.
      * intros [?|Hrm]; [done|]. by apply fs_remove_quietly_gone.
      * destruct (rename_fails io); simpl.
        -- intros [?|Hrm]; [done|]. by apply fs_remove_quietly_gone.
        -- intros _. rewrite lookup_insert_ne by apply not_eq_sym, with_suffix_tmp_ne.
           apply lookup_delete_eq.
  - subst r. unfold set.
    destruct (open_write_fails io); simpl.
    { split; [done|by intros (? & _)]. }
    destruct (write_fails_after io); simpl.
    { split; [done|by intros (_ & ? & _)]. }
    destruct (rename_fails io); simpl.
    { split; [done|by intros (_ & _ & ?)]. }
    done.
Qed.

(** With nothing in memory and no file, [get] returns the default and
    changes nothing. *)
Lemma get_nothing_stored io now K default self :
  od_get (_get_md5_hash K) (LRUMemoryCache._cache (memory_cache self)) = None ->
  dir self !! _get_file_path (_get_md5_hash K) = None ->
  get io now K default self = (default, self).
Proof.
  intros Hmem Hfile. unfold get. rewrite (get_absent now _ _ Hmem).
  unfold fs_read. cbn [with_memory dir]. rewrite Hfile.
  destruct self. by destruct (open_read_fails io).
Qed.

(** X10.  [get] of an entry whose file has expired ([expires_at < now])
    returns the default and removes the file, so the next [get] finds
    nothing to read.  The expiry is seen only when the metadata block can
    be read: the length in the first eight bytes of the file is one that
    [f.read] does not raise for. *)
Theorem X10_get_removes_expired_file io now K default self content m expires :
  od_get (_get_md5_hash K) (LRUMemoryCache._cache (memory_cache self)) = None ->
  fs_read io (_get_file_path (_get_md5_hash K)) (dir self) = Ok content ->
  read_raises io (metadata_length_of content) = false ->
  json_loads (metadata_bytes_of content) = Some m ->
  m !! "expires_at" = Some expires ->
  num_lt expires now = true ->
  remove_fails io = false ->
  let self' := snd (get io now K default self) in
  fst (get io now K default self) = default
  /\ dir self' !! _get_file_path (_get_md5_hash K) = None
  /\ get io now K default self' = (default, self').
Proof.
  intros Hmem Hread Hr Hjson Hexp Hstale Hrm self'.
  destruct (get_file_expired io now K default self content m expires
              Hmem Hread Hr Hjson Hexp Hstale Hrm) as [Hres Hgone].
  split_and!; [done|done|].
  assert (Hmem' : od_get (_get_md5_hash K)
                    (LRUMemoryCache._cache (memory_cache self')) = None).
  { subst self'. unfold get. rewrite (get_absent now _ _ Hmem).
    cbn [with_memory dir memory_cache].
    rewrite Hread. unfold metadata_length_of in Hr. rewrite Hr.
    fold (metadata_bytes_of content).
    rewrite Hjson, Hexp, Hstale. simpl.
    rewrite delete_memory. unfold LRUMemoryCache.remove. simpl.
    by rewrite Hmem. }
  by apply get_nothing_stored.
Qed.

(** X11.  [get] never writes to the file tier: every file other than the
    one of the key is left as it is, and the file of the key is either left
    as it is or removed. *)
Theorem X11_get_never_writes io now K default self :
  let self' := snd (get io now K default self) in
  (forall path, path ≠ _get_file_path (_get_md5_hash K) ->
                dir self' !! path = dir self !! path)
  /\ (dir self' !! _get_file_path (_get_md5_hash K)
      = dir self !! _get_file_path (_get_md5_hash K)
      \/ dir self' !! _get_file_path (_get_md5_hash K) = None)
  /\ cache_dir self' = cache_dir self /\ ttl self' = ttl self.
Proof.
  intros self'. subst self'. unfold get.
  destruct (LRUMemoryCache.get now (_get_md5_hash K) (memory_cache self))
    as [[entry|] mem]; simpl; [by auto|].
  destruct (fs_read io _ _) as [content|e]; [|destruct e; simpl; by auto].
  destruct (read_raises io _); [simpl; by auto|].
  destruct (json_loads _) as [m|]; [|simpl; by auto].
  destruct (m !! "expires_at") as [expires|]; [|simpl; by auto].
  destruct (num_lt expires now).
  - simpl. unfold delete, fs_remove, _get_file_path. simpl.
    destruct (remove_fails io); [simpl; by auto|].
    destruct (dir self !! _get_md5_hash K) eqn:E; simpl; [|by auto].
    split_and!; [|right; apply lookup_delete_eq|done|done].
    intros path Hne. by rewrite lookup_delete_ne.
  - destruct (m !! "access_count"); simpl; by auto.
Qed.

(** X12.  [delete] given the digest of a key, the way [get] calls it,
    removes the entry from both tiers: it returns [True], the file and the
    memory entry are gone, and the next [get] of the key returns the
    default. *)
Theorem X12_delete_by_digest io io' now K default self :
  NoDup (od_keys (LRUMemoryCache._cache (memory_cache self))) ->
  remove_fails io = false ->
  let r := delete io (_get_md5_hash K) self in
  fst r = true
  /\ dir (snd r) !! _get_file_path (_get_md5_hash K) = None
  /\ od_get (_get_md5_hash K) (LRUMemoryCache._cache (memory_cache (snd r)))
     = None
  /\ fst (get io' now K default (snd r)) = default.
Proof.
  intros Hnd Hrm r.
  assert (Hmem : od_get (_get_md5_hash K)
                   (LRUMemoryCache._cache (memory_cache (snd r))) = None).
  { subst r. rewrite delete_memory.
    by apply remove_lookup_eq. }
  assert (Hfile : dir (snd r) !! _get_file_path (_get_md5_hash K) = None).
  { subst r. unfold delete, fs_remove, _get_file_path. rewrite Hrm. simpl.
    destruct (dir self !! _get_md5_hash K) eqn:E; simpl; [|done].
    apply lookup_delete_eq. }
  split_and!; [|done|done|].
  - subst r. unfold delete, fs_remove. rewrite Hrm. simpl.
    by destruct (dir self !! _get_file_path (_get_md5_hash K)).
  - unfold get. rewrite (get_absent now _ _ Hmem). simpl.
    unfold fs_read. destruct (open_read_fails io'); [done|].
    by rewrite Hfile.
Qed.

End HybridMore.

Lemma X8_witness :
  let self := extractor_cache ∅ in
  let restarted := extractor_cache (HybridCache.dir example_hybrid) in
  @json_loads ref_json
    (@json_dumps_metadata ref_json
       (num_add (num_of_Z 1000) (ttl_or None (num_of_Z (HybridCache.ttl self))))
       (num_of_Z 0) (num_of_Z 1000)) = Some example_metadata
  /\ example_metadata !! "expires_at" = Some example_expires
  /\ example_metadata !! "access_count" = Some (Fin 0.000000)
  /\ num_lt example_expires (num_of_Z 1200) = false
  /\ fst (@HybridCache.get ref_json no_faults (num_of_Z 1200) "k" None restarted)
     = Some (bytes_of "payload-bytes").
Proof.
  intros self restarted.
  assert (H1 : @json_loads ref_json
                 (@json_dumps_metadata ref_json
                    (num_add (num_of_Z 1000)
                       (ttl_or None (num_of_Z (HybridCache.ttl self))))
                    (num_of_Z 0) (num_of_Z 1000)) = Some example_metadata)
    by (vm_compute; reflexivity).
  assert (H2 : example_metadata !! "expires_at" = Some example_expires)
    by (vm_compute; reflexivity).
  assert (H3 : example_metadata !! "access_count" = Some (Fin 0.000000))
    by (vm_compute; reflexivity).
  assert (H4 : num_lt example_expires (num_of_Z 1200) = false)
    by (vm_compute; reflexivity).
  assert (H5 : len (@json_dumps_metadata ref_json
                      (num_add (num_of_Z 1000)
                         (ttl_or None (num_of_Z (HybridCache.ttl self))))
                      (num_of_Z 0) (num_of_Z 1000)) < 2 ^ 63)
    by (vm_compute; reflexivity).
  split; [exact H1|]. split; [exact H2|]. split; [exact H3|].
  split; [exact H4|].
  exact (proj1 (@X8_file_tier_round_trip ref_json (num_of_Z 1000)
                  (num_of_Z 1200) "k" (bytes_of "payload-bytes") None None
                  self example_metadata example_expires (Fin 0.000000)
                  H1 H2 H3 H4 H5)).
Defined.

Lemma X10_witness :
  let restarted := extractor_cache (HybridCache.dir example_hybrid) in
  od_get (HybridCache._get_md5_hash "k")
    (LRUMemoryCache._cache (HybridCache.memory_cache restarted)) = None
  /\ fs_read no_faults (HybridCache._get_file_path (HybridCache._get_md5_hash "k"))
       (HybridCache.dir restarted) = Ok example_frame
  /\ read_raises no_faults (HybridCache.metadata_length_of example_frame)
     = false
  /\ @json_loads ref_json (HybridCache.metadata_bytes_of example_frame)
     = Some example_metadata
  /\ example_metadata !! "expires_at" = Some example_expires
  /\ num_lt example_expires (num_of_Z 2000) = true
  /\ fst (@HybridCache.get ref_json no_faults (num_of_Z 2000) "k" None restarted)
     = None
  /\ HybridCache.dir
       (snd (@HybridCache.get ref_json no_faults (num_of_Z 2000) "k" None
               restarted))
       !! HybridCache._get_file_path (HybridCache._get_md5_hash "k") = None.
Proof.
  intros restarted.
  assert (H1 : od_get (HybridCache._get_md5_hash "k")
                 (LRUMemoryCache._cache (HybridCache.memory_cache restarted))
               = None) by reflexivity.
  assert (H2 : fs_read no_faults
                 (HybridCache._get_file_path (HybridCache._get_md5_hash "k"))
                 (HybridCache.dir restarted) = Ok example_frame)
    by (vm_compute; reflexivity).
  assert (Hr : read_raises no_faults
                 (HybridCache.metadata_length_of example_frame) = false)
    by (vm_compute; reflexivity).
  assert (H3 : @json_loads ref_json (HybridCache.metadata_bytes_of example_frame)
               = Some example_metadata) by (vm_compute; reflexivity).
  assert (H4 : example_metadata !! "expires_at" = Some example_expires)
    by (vm_compute; reflexivity).
  assert (H5 : num_lt example_expires (num_of_Z 2000) = true)
    by (vm_compute; reflexivity).
  pose proof (@X10_get_removes_expired_file ref_json no_faults (num_of_Z 2000)
                "k" None restarted example_frame example_metadata
                example_expires H1 H2 Hr H3 H4 H5 eq_refl) as (W1 & W2 & _).
  repeat split; assumption.
Defined.

Lemma X12_witness :
  let r := HybridCache.delete no_faults (HybridCache._get_md5_hash "k")
             example_hybrid in
  NoDup (od_keys (LRUMemoryCache._cache (HybridCache.memory_cache example_hybrid)))
  /\ is_Some (HybridCache.dir example_hybrid
                !! HybridCache._get_file_path (HybridCache._get_md5_hash "k"))
  /\ fst r = true
  /\ fst (@HybridCache.get ref_json no_faults (num_of_Z 1001) "k" None (snd r))
     = None.
Proof.
  intros r.
  assert (H1 : NoDup (od_keys (LRUMemoryCache._cache
                                 (HybridCache.memory_cache example_hybrid)))).
  { vm_compute. apply NoDup_singleton. }
  assert (H2 : is_Some (HybridCache.dir example_hybrid
                          !! HybridCache._get_file_path
                               (HybridCache._get_md5_hash "k"))).
  { vm_compute. eexists. reflexivity. }
  pose proof (@X12_delete_by_digest ref_json no_faults no_faults
                (num_of_Z 1001) "k" None example_hybrid H1 eq_refl)
    as (W1 & _ & _ & W4).
  repeat split; assumption.
Defined.

(** ** AsyncMemoryCache *)


(** ** get_cached_init_segment *)

Lemma hybrid_get_ttl `{MetadataJson} io now K default self :
  HybridCache.ttl (snd (HybridCache.get io now K default self))
  = HybridCache.ttl self.
Proof.
  unfold HybridCache.get.
  destruct (LRUMemoryCache.get now (HybridCache._get_md5_hash K)
              (HybridCache.memory_cache self)) as [[entry|] mem]; simpl; [done|].
  destruct (fs_read io _ _) as [content|e]; [|by destruct e].
  destruct (read_raises io _); [done|].
  destruct (json_loads _) as [m|]; [|done].
  destruct (m !! "expires_at") as [expires|]; [|done].
  destruct (num_lt expires now).
  - simpl. unfold HybridCache.delete, fs_remove. simpl.
    destruct (remove_fails io); [done|].
    by destruct (HybridCache.dir self !! _).
  - by destruct (m !! "access_count").
Qed.

(** X14.  After a call that had to download the init segment, a second
    call made before the entry expires returns the same bytes from the
    cache, whatever the download client would answer then. *)
Theorem X14_init_segment_second_call_hits
    (J : MetadataJson) (U U' : MpdUtils) io io2 now1 now1' now2 now2'
    url hdrs hdrs' cache content :
  fst (HybridCache.get io now1 url None cache) = None ->
  @download_file_with_retry U url hdrs = Ok content ->
  bytes_truthy content = true ->
  num_lt now2 (num_add now1' (num_of_Z (HybridCache.ttl cache))) = true ->
  let first := @get_cached_init_segment J U io now1 now1' url hdrs cache in
  fst first = Ok (Some content)
  /\ fst (@get_cached_init_segment J U' io2 now2 now2' url hdrs' (snd first))
     = Ok (Some content).
Proof.
  intros Hmiss Hdl Hne Hfresh first.
  pose proof (hybrid_get_ttl io now1 url None cache) as Httl.
  set (c1 := snd (HybridCache.get io now1 url None cache)) in *.
  assert (Hfirst : first
                   = (Ok (Some content),
                      snd (HybridCache.set io now1' url content None c1))).
  { subst first c1. unfold get_cached_init_segment.
    destruct (HybridCache.get io now1 url None cache) as [cached c1].
    simpl in Hmiss. subst cached. by rewrite Hdl, Hne. }
  rewrite Hfirst. cbn [fst snd]. split; [done|].
  unfold get_cached_init_segment.
  assert (Hhit : fst (HybridCache.get io2 now2 url None
                        (snd (HybridCache.set io now1' url content None c1)))
                 = Some content).
  { apply (get_memory_hit io2 now2 url None
             {| data := content;
                expires_at := num_add now1' (num_of_Z (HybridCache.ttl c1));
                access_count := num_of_Z 0; last_access := now1';
                size := len content |}).
    - rewrite set_memory. apply set_lookup.
    - cbn [expires_at]. by rewrite Httl. }
  destruct (HybridCache.get io2 now2 url None _) as [cached2 c2].
  simpl in Hhit. by subst cached2.
Qed.

Section InitSegmentFacts.
Context `{MetadataJson} `{MpdUtils}.


End InitSegmentFacts.

Lemma X14_witness :
  let url := "https://origin.example/init.mp4" in
  let up := origin_up (bytes_of "init-bytes") None in
  let cache := INIT_SEGMENT_CACHE ∅ in
  let first := @get_cached_init_segment ref_json up no_faults
                 (num_of_Z 1000) (num_of_Z 1001) url [] cache in
  fst (@HybridCache.get ref_json no_faults (num_of_Z 1000) url None cache) = None
  /\ @download_file_with_retry up url [] = Ok (bytes_of "init-bytes")
  /\ bytes_truthy (bytes_of "init-bytes") = true
  /\ num_lt (num_of_Z 2000)
       (num_add (num_of_Z 1001) (num_of_Z (HybridCache.ttl cache))) = true
  /\ fst (@get_cached_init_segment ref_json origin_down no_faults
            (num_of_Z 2000) (num_of_Z 2001) url [] (snd first))
     = Ok (Some (bytes_of "init-bytes")).
Proof.
  intros url up cache first.
  assert (H1 : fst (@HybridCache.get ref_json no_faults (num_of_Z 1000) url
                      None cache) = None) by (vm_compute; reflexivity).
  assert (H4 : num_lt (num_of_Z 2000)
                 (num_add (num_of_Z 1001) (num_of_Z (HybridCache.ttl cache)))
               = true) by (vm_compute; reflexivity).
  split; [exact H1|]. split; [reflexivity|]. split; [reflexivity|].
  split; [exact H4|].
  exact (proj2 (X14_init_segment_second_call_hits ref_json up origin_down
                  no_faults no_faults (num_of_Z 1000) (num_of_Z 1001)
                  (num_of_Z 2000) (num_of_Z 2001) url [] [] cache
                  (bytes_of "init-bytes") H1 eq_refl eq_refl H4)).
Defined.

(** ** get_cached_mpd *)

Section MpdFacadeMore.
Context `{MpdUtils}.

Lemma async_get_hit now key default entry cache :
  od_get key (LRUMemoryCache._cache (AsyncMemoryCache.memory_cache cache))
    = Some entry ->
  num_lt now (expires_at entry) = true ->
  fst (AsyncMemoryCache.get now key default cache) = Some (data entry).
Proof.
  intros Hk Hfresh. unfold AsyncMemoryCache.get, LRUMemoryCache.get.
  by rewrite Hk, Hfresh.
Qed.

(** X16.  On a cache hit whose text decodes and processes, [get_cached_mpd]
    returns the manifest processed anew from the cached raw dict with the
    arguments of this call; nothing is downloaded and the cache keeps the
    entry (only its recency and access count change). *)
Theorem X16_mpd_hit_is_reprocessed now now' url hdrs parse_drm pid cache
    entry raw parsed :
  od_get url (LRUMemoryCache._cache (AsyncMemoryCache.memory_cache cache))
    = Some entry ->
  num_lt now (expires_at entry) = true ->
  json_loads_mpd (data entry) = Ok raw ->
  parse_mpd_dict raw url parse_drm pid = Ok parsed ->
  get_cached_mpd now now' url hdrs parse_drm pid cache
  = (Ok parsed, snd (AsyncMemoryCache.get now url None cache))
  /\ od_get url
       (LRUMemoryCache._cache
          (AsyncMemoryCache.memory_cache
             (snd (AsyncMemoryCache.get now url None cache))))
     = Some {| data := data entry; expires_at := expires_at entry;
               access_count := num_add (access_count entry) (num_of_Z 1);
               last_access := now; size := size entry |}.
Proof.
  intros Hk Hfresh Hjson Hdict.
  pose proof (async_get_hit now url None entry cache Hk Hfresh) as Hhit.
  split.
  - unfold get_cached_mpd.
    destruct (AsyncMemoryCache.get now url None cache) as [cached c1].
    simpl in Hhit. subst cached. rewrite Hjson. simpl. by rewrite Hdict.
  - unfold AsyncMemoryCache.get, LRUMemoryCache.get.
    rewrite Hk, Hfresh. simpl. apply od_get_setitem_eq.
Qed.

(** X17.  A cached text that does not decode, or does not process, is
    dropped: [get_cached_mpd] goes on as on a miss, with the key removed
    from the cache.  When the download then fails, its exception reaches
    the caller and the key stays absent. *)
Theorem X17_mpd_bad_cache_entry_is_dropped now now' url hdrs parse_drm pid
    cache entry e :
  NoDup (od_keys (LRUMemoryCache._cache (AsyncMemoryCache.memory_cache cache))) ->
  od_get url (LRUMemoryCache._cache (AsyncMemoryCache.memory_cache cache))
    = Some entry ->
  num_lt now (expires_at entry) = true ->
  (raw ← json_loads_mpd (data entry); parse_mpd_dict raw url parse_drm pid)
    = Raise e ->
  let dropped :=
    snd (AsyncMemoryCache.delete url
           (snd (AsyncMemoryCache.get now url None cache))) in
  get_cached_mpd now now' url hdrs parse_drm pid cache
  = fetch_mpd now' url hdrs parse_drm pid dropped
  /\ od_get url (LRUMemoryCache._cache (AsyncMemoryCache.memory_cache dropped))
     = None
  /\ (forall e', download_file_with_retry url hdrs = Raise e' ->
        get_cached_mpd now now' url hdrs parse_drm pid cache
        = (Raise e', dropped)).
Proof.
  intros Hnd Hk Hfresh Hbad dropped.
  pose proof (async_get_hit now url None entry cache Hk Hfresh) as Hhit.
  assert (Hget : get_cached_mpd now now' url hdrs parse_drm pid cache
                 = fetch_mpd now' url hdrs parse_drm pid dropped).
  { subst dropped. unfold get_cached_mpd.
    destruct (AsyncMemoryCache.get now url None cache) as [cached c1].
    simpl in Hhit. subst cached. rewrite Hbad. by destruct e. }
  split_and!; [done| |].
  - subst dropped. unfold AsyncMemoryCache.delete. cbn [snd AsyncMemoryCache.memory_cache].
    apply remove_lookup_eq.
    unfold AsyncMemoryCache.get, LRUMemoryCache.get. rewrite Hk, Hfresh.
    cbn [snd AsyncMemoryCache.memory_cache LRUMemoryCache._cache].
    apply od_setitem_NoDup.
    destruct (od_pop_present url entry _ Hnd Hk) as (_ & Hnd' & _). done.
  - intros e' Hdl. rewrite Hget. unfold fetch_mpd. rewrite Hdl. simpl.
    by destruct (is_DownloadError e').
Qed.

(** X18.  On a miss, [get_cached_mpd] writes to the cache only when every
    stage succeeds: if it raises, the cache is as the lookup left it, and
    if it returns, the key holds an entry. *)
Theorem X18_mpd_failed_fetch_stores_nothing now now' url hdrs parse_drm pid cache :
  fst (AsyncMemoryCache.get now url None cache) = None ->
  let r := get_cached_mpd now now' url hdrs parse_drm pid cache in
  (forall e, fst r = Raise e ->
             snd r = snd (AsyncMemoryCache.get now url None cache))
  /\ (forall parsed, fst r = Ok parsed ->
        is_Some (od_get url
                   (LRUMemoryCache._cache
                      (AsyncMemoryCache.memory_cache (snd r))))).
Proof.
  intros Hmiss r. subst r. unfold get_cached_mpd.
  destruct (AsyncMemoryCache.get now url None cache) as [cached c1].
  simpl in Hmiss. subst cached. cbn [snd]. unfold fetch_mpd.
  destruct (download_file_with_retry url hdrs) as [content|e0]; simpl.
  2: { split; [by destruct (is_DownloadError e0)|].
       by destruct (is_DownloadError e0). }
  destruct (parse_mpd content) as [raw|e0]; simpl.
  2: { split; [by destruct (is_DownloadError e0)|].
       by destruct (is_DownloadError e0). }
  destruct (parse_mpd_dict raw url parse_drm pid) as [parsed0|e0]; simpl.
  2: { split; [by destruct (is_DownloadError e0)|].
       by destruct (is_DownloadError e0). }
  destruct (json_dumps_mpd raw) as [encoded|e0]; simpl.
  2: { split; [by destruct (is_DownloadError e0)|].
       by destruct (is_DownloadError e0). }
  split; [done|]. intros parsed _.
  rewrite set_lookup. eauto.
Qed.

End MpdFacadeMore.

Lemma X16_witness :
  let url := "https://origin.example/live.mpd" in
  let entry := {| data := bytes_of "<MPD/>";
                  expires_at := num_add (num_of_Z 1000) (num_of_Z 5);
                  access_count := num_of_Z 0; last_access := num_of_Z 1000;
                  size := 6 |} in
  od_get url (LRUMemoryCache._cache
                (AsyncMemoryCache.memory_cache example_mpd_cache)) = Some entry
  /\ num_lt (num_of_Z 1004) (expires_at entry) = true
  /\ fst (@get_cached_mpd origin_down (num_of_Z 1004) (num_of_Z 1004) url []
            false None example_mpd_cache)
     = Ok {| isLive := false; minimumUpdatePeriod := None; profiles := [] |}.
Proof.
  intros url entry.
  assert (H1 : od_get url (LRUMemoryCache._cache
                 (AsyncMemoryCache.memory_cache example_mpd_cache))
               = Some entry) by reflexivity.
  assert (H2 : num_lt (num_of_Z 1004) (expires_at entry) = true)
    by reflexivity.
  split; [exact H1|]. split; [exact H2|].
  exact (f_equal fst
           (proj1 (@X16_mpd_hit_is_reprocessed origin_down (num_of_Z 1004)
                     (num_of_Z 1004) url [] false None example_mpd_cache entry
                     (bytes_of "<MPD/>")
                     {| isLive := false; minimumUpdatePeriod := None;
                        profiles := [] |} H1 H2 eq_refl eq_refl))).
Defined.

Lemma X17_witness :
  let url := "https://origin.example/live.mpd" in
  let entry := {| data := bytes_of "<MPD/>";
                  expires_at := num_add (num_of_Z 1000) (num_of_Z 5);
                  access_count := num_of_Z 0; last_access := num_of_Z 1000;
                  size := 6 |} in
  let r := @get_cached_mpd origin_down_strict (num_of_Z 1004) (num_of_Z 1004)
             url [] false None example_mpd_cache in
  NoDup (od_keys (LRUMemoryCache._cache
                    (AsyncMemoryCache.memory_cache example_mpd_cache)))
  /\ od_get url (LRUMemoryCache._cache
                   (AsyncMemoryCache.memory_cache example_mpd_cache))
     = Some entry
  /\ num_lt (num_of_Z 1004) (expires_at entry) = true
  /\ fst r = Raise (DownloadError 503 "Service Unavailable")
  /\ od_get url (LRUMemoryCache._cache (AsyncMemoryCache.memory_cache (snd r)))
     = None.
Proof.
  intros url entry r.
  assert (H0 : NoDup (od_keys (LRUMemoryCache._cache
                 (AsyncMemoryCache.memory_cache example_mpd_cache)))).
  { vm_compute. apply NoDup_singleton. }
  assert (H1 : od_get url (LRUMemoryCache._cache
                 (AsyncMemoryCache.memory_cache example_mpd_cache))
               = Some entry) by reflexivity.
  assert (H2 : num_lt (num_of_Z 1004) (expires_at entry) = true)
    by reflexivity.
  pose proof (@X17_mpd_bad_cache_entry_is_dropped origin_down_strict
                (num_of_Z 1004) (num_of_Z 1004) url [] false None
                example_mpd_cache entry JSONDecodeError H0 H1 H2 eq_refl)
    as (_ & W2 & W3).
  specialize (W3 (DownloadError 503 "Service Unavailable") eq_refl).
  split; [exact H0|]. split; [exact H1|]. split; [exact H2|].
  split.
  - exact (f_equal fst W3).
  - subst r. rewrite W3. exact W2.
Defined.

Lemma X18_witness :
  let url := "https://origin.example/live.mpd" in
  let r := @get_cached_mpd origin_down (num_of_Z 1000) (num_of_Z 1000) url []
             false None MPD_CACHE in
  fst (AsyncMemoryCache.get (num_of_Z 1000) url None MPD_CACHE) = None
  /\ fst r = Raise (DownloadError 503 "Service Unavailable")
  /\ snd r = snd (AsyncMemoryCache.get (num_of_Z 1000) url None MPD_CACHE).
Proof.
  intros url r.
  assert (H1 : fst (AsyncMemoryCache.get (num_of_Z 1000) url None MPD_CACHE)
               = None) by reflexivity.
  split; [exact H1|]. split; [reflexivity|].
  exact (proj1 (@X18_mpd_failed_fetch_stores_nothing origin_down
                  (num_of_Z 1000) (num_of_Z 1000) url [] false None MPD_CACHE
                  H1)
               (DownloadError 503 "Service Unavailable") eq_refl).
Defined.

(** ** The extractor facade *)

Section ExtractorFacts.
Context `{MetadataJson} `{ExtractorJson}.

(** X19.  A cached extractor result that does not decode is not evicted:
    [get_cached_extractor_result] returns [None] and calls [delete] with
    the logical key, which leaves the entry stored under the digest in
    place, in memory and on disk; every later call before its expiry meets
    the same entry and returns [None] again. *)
Theorem X19_undecodable_extractor_result_stays io now key cache entry :
  HybridCache._get_md5_hash key ≠ key ->
  od_get (HybridCache._get_md5_hash key)
    (LRUMemoryCache._cache (HybridCache.memory_cache cache)) = Some entry ->
  num_lt now (expires_at entry) = true ->
  json_loads_result (data entry) = Raise JSONDecodeError ->
  let r := get_cached_extractor_result io now key cache in
  fst r = Ok None
  /\ (exists entry',
        od_get (HybridCache._get_md5_hash key)
          (LRUMemoryCache._cache (HybridCache.memory_cache (snd r)))
        = Some entry'
        /\ data entry' = data entry /\ expires_at entry' = expires_at entry)
  /\ HybridCache.dir (snd r)
       !! HybridCache._get_file_path (HybridCache._get_md5_hash key)
     = HybridCache.dir cache
       !! HybridCache._get_file_path (HybridCache._get_md5_hash key)
  /\ (forall io2 now2, num_lt now2 (expires_at entry) = true ->
        fst (get_cached_extractor_result io2 now2 key (snd r)) = Ok None).
Proof.
  intros Hne Hk Hfresh Hbad r.
  set (entry' := {| data := data entry; expires_at := expires_at entry;
                    access_count := num_add (access_count entry) (num_of_Z 1);
                    last_access := now; size := size entry |}).
  assert (Hget : HybridCache.get io now key None cache
                 = (Some (data entry),
                    HybridCache.with_memory cache
                      (snd (LRUMemoryCache.get now (HybridCache._get_md5_hash key)
                              (HybridCache.memory_cache cache))))).
  { unfold HybridCache.get, LRUMemoryCache.get. by rewrite Hk, Hfresh. }
  assert (Hr : r = (Ok None,
                    snd (HybridCache.delete io key
                           (HybridCache.with_memory cache
                              (snd (LRUMemoryCache.get now
                                      (HybridCache._get_md5_hash key)
                                      (HybridCache.memory_cache cache))))))).
  { subst r. unfold get_cached_extractor_result. by rewrite Hget, Hbad. }
  assert (Hmem : od_get (HybridCache._get_md5_hash key)
                   (LRUMemoryCache._cache (HybridCache.memory_cache (snd r)))
                 = Some entry').
  { rewrite Hr. cbn [snd]. rewrite delete_memory.
    rewrite remove_lookup_ne by done.
    unfold HybridCache.with_memory. cbn [HybridCache.memory_cache].
    unfold LRUMemoryCache.get. rewrite Hk, Hfresh.
    cbn [snd LRUMemoryCache._cache]. apply od_get_setitem_eq. }
  split_and!.
  - by rewrite Hr.
  - exists entry'. done.
  - rewrite Hr. cbn [snd]. by rewrite delete_dir_ne.
  - intros io2 now2 Hfresh2. unfold get_cached_extractor_result.
    assert (Hhit : fst (HybridCache.get io2 now2 key None (snd r))
                   = Some (data entry')).
    { by apply get_memory_hit. }
    destruct (HybridCache.get io2 now2 key None (snd r)) as [cached c2].
    simpl in Hhit. subst cached. cbn [data entry']. by rewrite Hbad.
Qed.

(** X20.  An extractor result that encodes and decodes is read back by
    [get_cached_extractor_result] after [set_cache_extractor_result] until
    it expires, also when the write to the file tier failed. *)
Theorem X20_extractor_round_trip io io2 now now2 key value encoded cache :
  json_dumps_result value = Ok encoded ->
  json_loads_result encoded = Ok value ->
  num_lt now2 (num_add now (num_of_Z (HybridCache.ttl cache))) = true ->
  fst (get_cached_extractor_result io2 now2 key
         (snd (set_cache_extractor_result io now key value cache)))
  = Ok (Some value).
Proof.
  intros Hdump Hload Hfresh.
  unfold set_cache_extractor_result, get_cached_extractor_result.
  rewrite Hdump.
  assert (Hhit : fst (HybridCache.get io2 now2 key None
                        (snd (HybridCache.set io now key encoded None cache)))
                 = Some encoded).
  { apply (get_memory_hit io2 now2 key None
             {| data := encoded;
                expires_at := num_add now (num_of_Z (HybridCache.ttl cache));
                access_count := num_of_Z 0; last_access := now;
                size := len encoded |}); [|done].
    rewrite set_memory. apply set_lookup. }
  destruct (HybridCache.get io2 now2 key None _) as [cached c2].
  simpl in Hhit. subst cached. by rewrite Hload.
Qed.

End ExtractorFacts.

Lemma X19_witness :
  let entry := {| data := bytes_of "not json";
                  expires_at := num_add (num_of_Z 1000) (num_of_Z 300);
                  access_count := num_of_Z 0; last_access := num_of_Z 1000;
                  size := 8 |} in
  let r := @get_cached_extractor_result ref_json brace_codec no_faults
             (num_of_Z 1001) "k" example_corrupt_extractor in
  HybridCache._get_md5_hash "k" ≠ "k"
  /\ od_get (HybridCache._get_md5_hash "k")
       (LRUMemoryCache._cache (HybridCache.memory_cache example_corrupt_extractor))
     = Some entry
  /\ num_lt (num_of_Z 1001) (expires_at entry) = true
  /\ @json_loads_result brace_codec (data entry) = Raise JSONDecodeError
  /\ fst r = Ok None
  /\ fst (@get_cached_extractor_result ref_json brace_codec no_faults
            (num_of_Z 1002) "k" (snd r)) = Ok None.
Proof.
  intros entry r.
  assert (H1 : HybridCache._get_md5_hash "k" ≠ "k")
    by (vm_compute; discriminate).
  assert (H2 : od_get (HybridCache._get_md5_hash "k")
                 (LRUMemoryCache._cache
                    (HybridCache.memory_cache example_corrupt_extractor))
               = Some entry) by (vm_compute; reflexivity).
  assert (H3 : num_lt (num_of_Z 1001) (expires_at entry) = true)
    by reflexivity.
  assert (H4 : @json_loads_result brace_codec (data entry)
               = Raise JSONDecodeError) by reflexivity.
  pose proof (@X19_undecodable_extractor_result_stays ref_json brace_codec
                no_faults (num_of_Z 1001) "k" example_corrupt_extractor entry
                H1 H2 H3 H4) as (W1 & _ & _ & W4).
  split; [exact H1|]. split; [exact H2|]. split; [exact H3|].
  split; [exact H4|]. split; [exact W1|].
  apply W4. reflexivity.
Defined.

Lemma X20_witness :
  let value := bytes_of "{}" in
  @json_dumps_result brace_codec value = Ok value
  /\ @json_loads_result brace_codec value = Ok value
  /\ num_lt (num_of_Z 1001)
       (num_add (num_of_Z 1000)
          (num_of_Z (HybridCache.ttl (extractor_cache ∅)))) = true
  /\ fst (@get_cached_extractor_result ref_json brace_codec no_faults
            (num_of_Z 1001) "k"
            (snd (@set_cache_extractor_result ref_json brace_codec disk_full
                    (num_of_Z 1000) "k" value (extractor_cache ∅))))
     = Ok (Some value).
Proof.
  intros value.
  assert (H3 : num_lt (num_of_Z 1001)
                 (num_add (num_of_Z 1000)
                    (num_of_Z (HybridCache.ttl (extractor_cache ∅)))) = true)
    by reflexivity.
  split; [reflexivity|]. split; [reflexivity|]. split; [exact H3|].
  exact (@X20_extractor_round_trip ref_json brace_codec disk_full no_faults
           (num_of_Z 1000) (num_of_Z 1001) "k" value value (extractor_cache ∅)
           eq_refl eq_refl H3).
Defined.

(** ** process_playlist and the media playlist *)

Section PlaylistMore.
Context `{HttpUtils}.

(** X21.  [process_playlist] answers 404 exactly when no profile of the
    manifest has the requested id, and it raises no other HTTP error.
    When it returns, the body is the playlist built from the profiles with
    that id, in manifest order, under the HLS media type and with the
    response headers it was given. *)
Theorem X21_process_playlist_404 request mpd_dict profile_id proxy_headers :
  let matching :=
    List.filter (fun p => String.eqb (id p) profile_id) (profiles mpd_dict) in
  (process_playlist request mpd_dict profile_id proxy_headers
   = HTTPException 404 "Profile not found"
   <-> forall p, p ∈ profiles mpd_dict -> id p ≠ profile_id)
  /\ (forall status detail,
        process_playlist request mpd_dict profile_id proxy_headers
        = HTTPException status detail ->
        status = 404 /\ detail = "Profile not found")
  /\ (forall resp,
        process_playlist request mpd_dict profile_id proxy_headers
        = Returned resp ->
        Forall (fun p => id p = profile_id) matching
        /\ (exists hls,
              build_hls_playlist_lines mpd_dict matching request = Ok hls
              /\ content resp = join_lines hls)
        /\ media_type resp = "application/vnd.apple.mpegurl"
        /\ response_headers resp = response proxy_headers).
Proof.
  intros matching.
  assert (Hall : Forall (fun p => id p = profile_id) matching).
  { apply Forall_forall. intros p Hp%list_elem_of_In.
    apply filter_In in Hp as [_ Heq]. by apply String.eqb_eq. }
  unfold process_playlist. fold matching.
  split_and!.
  - split.
    + intros Hres p Hp Hid.
      assert (Hin : In p matching).
      { apply filter_In. split; [by apply list_elem_of_In|].
        by apply String.eqb_eq. }
      destruct matching as [|q l]; [done|].
      by destruct (build_hls_playlist _ _ _).
    + intros Hnone. destruct matching as [|q l] eqn:Em; [done|].
      assert (Hq : In q matching) by (rewrite Em; by left).
      apply filter_In in Hq as [Hq Heq].
      apply String.eqb_eq in Heq. apply list_elem_of_In in Hq.
      by destruct (Hnone q Hq).
  - intros status detail. destruct matching as [|q l].
    + by intros [= <- <-].
    + by destruct (build_hls_playlist _ _ _).
  - intros resp. destruct matching as [|q l] eqn:Em; [done|].
    unfold build_hls_playlist.
    destruct (build_hls_playlist_lines mpd_dict (q :: l) request) as [hls|e];
      simpl; [|done].
    intros [= <-]. simpl. split_and!; [done|eauto|done|done].
Qed.

Lemma playlist_headers_tail mpd_dict first rest hs :
  playlist_headers mpd_dict (first :: rest) = Ok hs ->
  exists td,
    hs = [td;
          "#EXT-X-MEDIA-SEQUENCE:"
            +:+ str_of_Z (match hls_media_sequence_num first with
                          | Some n => n
                          | None => match number first with
                                    | Some n => n
                                    | None => 0
                                    end
                          end);
          if isLive mpd_dict then "#EXT-X-PLAYLIST-TYPE:EVENT"
          else "#EXT-X-PLAYLIST-TYPE:VOD"].
Proof.
  unfold playlist_headers.
  destruct (extinf_values (first :: rest)) as [|x xs].
  - simpl. intros [= <-]. eexists. reflexivity.
  - destruct (math_ceil (py_max x xs)) as [td|e]; simpl; [|done].
    intros [= <-]. eexists. reflexivity.
Qed.

Lemma segment_lines_length mpd_dict request proxy_url profile s ls :
  segment_lines mpd_dict request proxy_url profile s = Ok ls ->
  length ls = segment_line_count mpd_dict s.
Proof.
  unfold segment_lines, segment_line_count.
  destruct (format_extinf s) as [d|e]; simpl; [|done].
  intros [= <-]. by destruct (isLive mpd_dict && opt_truthy (program_date_time s)).
Qed.

Lemma segments_lines_length mpd_dict request proxy_url profile segs ls :
  segments_lines mpd_dict request proxy_url profile segs = Ok ls ->
  length ls = foldr (fun s n => (segment_line_count mpd_dict s + n)%nat) 0%nat segs.
Proof.
  revert ls. induction segs as [|s segs IH]; intros ls; simpl.
  - by intros [= <-].
  - destruct (segment_lines _ _ _ _ s) as [here|e] eqn:Es; simpl; [|done].
    destruct (segments_lines _ _ _ _ segs) as [more|e]; simpl; [|done].
    intros [= <-]. rewrite length_app.
    by rewrite (segment_lines_length _ _ _ _ _ _ Es), (IH more).
Qed.

Lemma profiles_lines_cons mpd_dict request proxy_url index p ps s ss :
  segments p = s :: ss ->
  profiles_lines mpd_dict request proxy_url index (p :: ps)
  = (headers ← (if Nat.eqb index 0
                then playlist_headers mpd_dict (s :: ss) else Ok []);
     body ← segments_lines mpd_dict request proxy_url p (s :: ss);
     later ← profiles_lines mpd_dict request proxy_url (S index) ps;
     Ok (headers ++ body ++ later)).
Proof. intros Es. cbn [profiles_lines]. by rewrite Es. Qed.

Lemma profiles_lines_skip mpd_dict request proxy_url index p ps :
  segments p = [] ->
  profiles_lines mpd_dict request proxy_url index (p :: ps)
  = profiles_lines mpd_dict request proxy_url (S index) ps.
Proof. intros Es. cbn [profiles_lines]. by rewrite Es. Qed.

Lemma profiles_lines_length mpd_dict request proxy_url index ps ls :
  profiles_lines mpd_dict request proxy_url (S index) ps = Ok ls ->
  length ls
  = foldr (fun p n => (profile_line_count mpd_dict p + n)%nat) 0%nat ps.
Proof.
  revert index ls. induction ps as [|p ps IH]; intros index ls.
  - simpl. by intros [= <-].
  - cbn [foldr]. unfold profile_line_count at 1.
    destruct (segments p) as [|s ss] eqn:Es.
    + rewrite profiles_lines_skip by done. cbn [foldr]. apply IH.
    + rewrite (profiles_lines_cons _ _ _ _ _ _ _ _ Es). cbn [Nat.eqb].
      destruct (segments_lines mpd_dict request proxy_url p (s :: ss))
        as [body|e] eqn:Eb; [|done].
      destruct (profiles_lines mpd_dict request proxy_url (S (S index)) ps)
        as [later|e] eqn:Em; [|done].
      simpl. intros [= <-]. rewrite length_app.
      by rewrite (segments_lines_length _ _ _ _ _ _ Eb), (IH _ _ Em).
Qed.

(** X22.  Whenever [build_hls_playlist] returns a playlist for a first
    profile with segments, its fourth line is [#EXT-X-MEDIA-SEQUENCE:n]
    with [n] the [hls_media_sequence_num] of the first segment when it has
    one, else its [number], else 0; and its fifth line is the playlist
    type, [EVENT] for a live manifest and [VOD] otherwise. *)
Theorem X22_media_sequence_and_type mpd_dict p rest request first more hls :
  segments p = first :: more ->
  build_hls_playlist_lines mpd_dict (p :: rest) request = Ok hls ->
  hls !! 3%nat
  = Some ("#EXT-X-MEDIA-SEQUENCE:"
            +:+ str_of_Z (match hls_media_sequence_num first with
                          | Some n => n
                          | None => match number first with
                                    | Some n => n
                                    | None => 0
                                    end
                          end))
  /\ hls !! 4%nat
     = Some (if isLive mpd_dict then "#EXT-X-PLAYLIST-TYPE:EVENT"
             else "#EXT-X-PLAYLIST-TYPE:VOD").
Proof.
  intros Esegs. unfold build_hls_playlist_lines. simpl. rewrite Esegs.
  destruct (playlist_headers mpd_dict (first :: more)) as [hs|e] eqn:Eh;
    [|done].
  destruct (playlist_headers_tail _ _ _ _ Eh) as [td ->]. simpl.
  destruct (segment_lines _ _ _ _ first) as [here|]; [|done]. simpl.
  destruct (segments_lines _ _ _ _ more) as [body|]; [|done]. simpl.
  destruct (profiles_lines _ _ _ 1 rest) as [later|]; [|done]. simpl.
  by intros [= <-].
Qed.

(** X23.  Whenever [build_hls_playlist] returns a playlist, it has the
    two preamble lines, three header lines when (and only when) the first
    profile has segments, two lines per segment plus one for each segment
    with a non-empty date in a live manifest, and, for a VOD manifest
    only, the closing [#EXT-X-ENDLIST], which is then its last line. *)
Theorem X23_playlist_line_count mpd_dict ps request hls :
  build_hls_playlist_lines mpd_dict ps request = Ok hls ->
  length hls = playlist_line_count mpd_dict ps
  /\ (isLive mpd_dict = false -> last hls = Some "#EXT-X-ENDLIST").
Proof.
  unfold build_hls_playlist_lines, playlist_line_count.
  destruct (profiles_lines mpd_dict request (url_for request "segment_endpoint")
              0 ps) as [lines|e] eqn:El; simpl; [|done].
  intros [= <-]. split.
  - assert (Hlines : length lines
      = (match ps with
         | p :: _ => match segments p with [] => 0 | _ :: _ => 3 end
         | [] => 0
         end
         + foldr (fun p n => (profile_line_count mpd_dict p + n)%nat) 0 ps)%nat).
    { destruct ps as [|p rest].
      - simpl in El. by simplify_eq.
      - cbn [foldr]. unfold profile_line_count at 1.
        destruct (segments p) as [|first more] eqn:Es.
        + rewrite profiles_lines_skip in El by done. cbn [foldr].
          by apply profiles_lines_length in El.
        + rewrite (profiles_lines_cons _ _ _ _ _ _ _ _ Es) in El.
          cbn [Nat.eqb] in El.
          destruct (playlist_headers mpd_dict (first :: more)) as [hs|] eqn:Eh;
            [|done].
          destruct (playlist_headers_tail _ _ _ _ Eh) as [td ->].
          destruct (segments_lines mpd_dict request
                      (url_for request "segment_endpoint") p (first :: more))
            as [body|] eqn:Eb; [|done].
          destruct (profiles_lines mpd_dict request
                      (url_for request "segment_endpoint") 1 rest)
            as [later|] eqn:Em; [|done].
          simpl in El. simplify_eq. cbn [length]. rewrite length_app.
          rewrite (segments_lines_length _ _ _ _ _ _ Eb).
          rewrite (profiles_lines_length _ _ _ _ _ _ Em). lia. }
    simpl. rewrite length_app, Hlines.
    destruct (isLive mpd_dict); simpl; lia.
  - intros ->.
    change ("#EXTM3U" :: "#EXT-X-VERSION:6" :: lines ++ ["#EXT-X-ENDLIST"])
      with (["#EXTM3U"; "#EXT-X-VERSION:6"] ++ lines ++ ["#EXT-X-ENDLIST"]).
    rewrite app_assoc. apply last_snoc.
Qed.

End PlaylistMore.

(** The live playlist of scenario S4. *)
Lemma build_hls_playlist_live_example :
  @build_hls_playlist_lines ref_http_utils example_live
    (profiles example_live) example_request
  = Ok ["#EXTM3U"; "#EXT-X-VERSION:6";
        "#EXT-X-TARGETDURATION:2"; "#EXT-X-MEDIA-SEQUENCE:1042";
        "#EXT-X-PLAYLIST-TYPE:EVENT";
        "#EXT-X-PROGRAM-DATE-TIME:2024-01-01T00:00:00Z";
        "#EXTINF:2.000,";
        "/segment_endpoint?init_url=init-v1.mp4&segment_url=seg-7.m4s&mime_type=video/mp4";
        "#EXTINF:2.000,";
        "/segment_endpoint?init_url=init-v1.mp4&segment_url=seg-8.m4s&mime_type=video/mp4"].
Proof. vm_compute. reflexivity. Qed.

Lemma X22_witness :
  exists hls,
    @build_hls_playlist_lines ref_http_utils example_live
      (profiles example_live) example_request = Ok hls
    /\ hls !! 3%nat = Some "#EXT-X-MEDIA-SEQUENCE:1042"
    /\ hls !! 4%nat = Some "#EXT-X-PLAYLIST-TYPE:EVENT".
Proof.
  eexists. split; [exact build_hls_playlist_live_example|].
  exact (@X22_media_sequence_and_type ref_http_utils example_live
           (example_profile example_live_segments) [] example_request
           _ _ _ eq_refl build_hls_playlist_live_example).
Defined.

Lemma X23_witness :
  exists hls,
    @build_hls_playlist_lines ref_http_utils example_live
      (profiles example_live) example_request = Ok hls
    /\ length hls = 10%nat.
Proof.
  eexists. split; [exact build_hls_playlist_live_example|].
  exact (proj1 (@X23_playlist_line_count ref_http_utils example_live
                  (profiles example_live) example_request _
                  build_hls_playlist_live_example)).
Defined.

(** ** The format of [#EXTINF] durations *)

Lemma pad3_length (n : Z) : 0 <= n < 1000 -> String.length (pad3 n) = 3%nat.
Proof.
  intros Hn.
  assert (Hall : forallb (fun k => Nat.eqb (String.length (pad3 (Z.of_nat k))) 3)
                         (seq 0 1000) = true) by (vm_compute; reflexivity).
  rewrite forallb_forall in Hall.
  specialize (Hall (Z.to_nat n)).
  rewrite Z2Nat.id in Hall by lia.
  apply Nat.eqb_eq, Hall, in_seq. lia.
Qed.

Lemma string_append_assoc (a b c : string) :
  (a +:+ b) +:+ c = a +:+ (b +:+ c).
Proof.
  induction a as [|x a IH]; [reflexivity|].
  change (String x ((a +:+ b) +:+ c) = String x (a +:+ (b +:+ c))).
  by rewrite IH.
Qed.

(** [str_of_Z] writes the decimal numeral of its argument. *)
Lemma Z_of_str_of_Z (n : Z) : Z_of_str (str_of_Z n) = Some n.
Proof.
  unfold Z_of_str, str_of_Z. rewrite NilZero.isi.
  - simpl. by rewrite DecimalZ.of_to.
  - destruct n as [|p|p]; simpl; try done.
    intros [= Hp]. by apply DecimalPos.Unsigned.to_uint_nonnil in Hp.
  - destruct n as [|p|p]; simpl; try done.
    intros [= Hp]. by apply DecimalPos.Unsigned.to_uint_nonnil in Hp.
Qed.

Lemma Z_of_str_pad3 (n : Z) : 0 <= n < 1000 -> Z_of_str (pad3 n) = Some n.
Proof.
  intros Hn.
  assert (Hall : forallb (fun k => match Z_of_str (pad3 (Z.of_nat k)) with
                                   | Some v => v =? Z.of_nat k
                                   | None => false
                                   end) (seq 0 1000) = true)
    by (vm_compute; reflexivity).
  rewrite forallb_forall in Hall.
  specialize (Hall (Z.to_nat n)).
  rewrite Z2Nat.id in Hall by lia.
  destruct (Z_of_str (pad3 n)) as [v|].
  - f_equal. apply Z.eqb_eq, Hall, in_seq. lia.
  - exfalso. assert (false = true); [|done]. apply Hall, in_seq. lia.
Qed.

(** The number that the digits of [f"{q:.3f}"] denote is within half a
    thousandth of the magnitude of [q]. *)
Lemma written_value_close (q : Q) :
  let m := Z.abs (round_half_even (q * inject_Z 1000)) in
  (Qabs (inject_Z (m / 1000) + inject_Z (m mod 1000) * (1 # 1000) - Qabs q)
   <= 1 # 2000)%Q.
Proof.
  intros m.
  pose proof (round_half_even_bounds (q * inject_Z 1000)) as [Hlo Hhi].
  set (r := round_half_even (q * inject_Z 1000)) in *.
  assert (Hm : (inject_Z m
                == 1000 * inject_Z (m / 1000) + inject_Z (m mod 1000))%Q).
  { rewrite (Z.div_mod m 1000) at 1 by lia.
    rewrite inject_Z_plus, inject_Z_mult. reflexivity. }
  change (inject_Z 1000) with 1000%Q in *.
  apply Qabs_Qle_condition.
  assert (Hr : (r < 0)%Z /\ (inject_Z r <= -1)%Q
                            /\ (inject_Z m == - inject_Z r)%Q
               \/ (0 <= inject_Z r)%Q /\ (inject_Z m == inject_Z r)%Q).
  { destruct (Z_lt_le_dec r 0) as [Hneg|Hpos].
    - left. split; [done|]. split.
      + change (-1)%Q with (inject_Z (-1)). rewrite <- Zle_Qle. lia.
      + unfold m. rewrite Z.abs_neq by lia. by rewrite inject_Z_opp.
    - right. split.
      + change 0%Q with (inject_Z 0). by rewrite <- Zle_Qle.
      + unfold m. by rewrite Z.abs_eq. }
  destruct (Qlt_le_dec q 0) as [Hq|Hq].
  - rewrite (Qabs_neg q) by lra.
    destruct Hr as [(_ & Hr1 & Hr2)|[Hr1 Hr2]]; split; lra.
  - rewrite (Qabs_pos q) by done.
    destruct Hr as [(_ & Hr1 & Hr2)|[Hr1 Hr2]]; split; lra.
Qed.

(** An int below 2^53 in magnitude is written as the int itself, followed
    by [.000]. *)
Lemma format_3f_int (z : Z) : format_3f (Fin (inject_Z z)) = str_of_Z z +:+ ".000".
Proof.
  unfold format_3f.
  rewrite (round_half_even_comp _ (inject_Z (z * 1000)))
    by (rewrite inject_Z_mult; reflexivity).
  rewrite round_half_even_Z, Z.abs_mul. change (Z.abs 1000) with 1000.
  rewrite Z.div_mul, Z.mod_mul by done.
  change (pad3 0) with "000".
  destruct z as [|p|p]; reflexivity.
Qed.

(** ** build_hls: the shared query dict and the order of the renditions *)

Section OdictMore.
Context {V : Type}.
Implicit Types (d : odict V) (k : string) (v : V).

Lemma od_setitem_twice k v v' d :
  od_setitem k v' (od_setitem k v d) = od_setitem k v' d.
Proof.
  induction d as [|[k0 v0] d IH]; simpl.
  - by rewrite String.eqb_refl.
  - destruct (String.eqb_spec k k0) as [->|Hne]; simpl.
    + by rewrite String.eqb_refl.
    + destruct (String.eqb_spec k k0); [done|]. by rewrite IH.
Qed.

Lemma od_setitem_same k v d : od_get k d = Some v -> od_setitem k v d = d.
Proof.
  induction d as [|[k0 v0] d IH]; simpl; [done|].
  destruct (String.eqb_spec k k0) as [->|Hne].
  - by intros [= ->].
  - intros Hd. by rewrite IH.
Qed.

(** Writing a key that is present commutes with writing another key. *)
Lemma od_setitem_comm k1 k2 v1 v2 d :
  k1 ≠ k2 -> is_Some (od_get k1 d) ->
  od_setitem k1 v1 (od_setitem k2 v2 d) = od_setitem k2 v2 (od_setitem k1 v1 d).
Proof.
  intros Hne. induction d as [|[k0 v0] d IH]; simpl.
  - by intros [? ?].
  - destruct (String.eqb_spec k1 k0) as [->|H1].
    + intros _. destruct (String.eqb_spec k2 k0) as [->|H2]; [done|].
      simpl. rewrite String.eqb_refl.
      by destruct (String.eqb_spec k2 k0).
    + intros Hd. destruct (String.eqb_spec k2 k0) as [->|H2]; simpl.
      * destruct (String.eqb_spec k1 k0); [done|].
        by rewrite String.eqb_refl.
      * destruct (String.eqb_spec k1 k0); [done|].
        destruct (String.eqb_spec k2 k0); [done|].
        by rewrite IH.
Qed.

Lemma od_keys_setitem k v d :
  od_keys (od_setitem k v d)
  = if existsb (String.eqb k) (od_keys d) then od_keys d else od_keys d ++ [k].
Proof.
  unfold od_keys. induction d as [|[k0 v0] d IH]; simpl; [done|].
  destruct (String.eqb_spec k k0) as [->|Hne]; simpl; [done|].
  rewrite IH. by destruct (existsb (String.eqb k) (map fst d)).
Qed.
End OdictMore.

(** The update of the carried query by one iteration of [build_hls]
    forgets the update of the iteration before. *)
Lemma od_update_rendition_twice (a a' b c : string) (d : odict string) :
  od_update [("profile_id", a'); ("key_id", b); ("key", c)]
    (od_update [("profile_id", a); ("key_id", b); ("key", c)] d)
  = od_update [("profile_id", a'); ("key_id", b); ("key", c)] d.
Proof.
  unfold od_update. cbn [fold_left fst snd].
  set (d1 := od_setitem "profile_id" a d).
  set (d2 := od_setitem "key_id" b d1).
  assert (Hp1 : is_Some (od_get "profile_id" d1)).
  { subst d1. rewrite od_get_setitem_eq. eauto. }
  assert (Hp2 : is_Some (od_get "profile_id" d2)).
  { subst d2. by rewrite od_get_setitem_ne. }
  rewrite (od_setitem_comm "profile_id" "key" a' c d2) by done.
  subst d2. rewrite (od_setitem_comm "profile_id" "key_id" a' b d1) by done.
  subst d1. rewrite od_setitem_twice.
  set (e1 := od_setitem "profile_id" a' d).
  rewrite (od_setitem_same "key_id" b
             (od_setitem "key" c (od_setitem "key_id" b e1))).
  2: { rewrite od_get_setitem_ne by done. apply od_get_setitem_eq. }
  rewrite od_setitem_same; [done|]. apply od_get_setitem_eq.
Qed.

Lemma fold_left_filter_neutral {A B} (f : A -> B -> A) (keep : B -> bool)
    (l : list B) (a : A) :
  (forall a x, keep x = false -> f a x = a) ->
  fold_left f (List.filter keep l) a = fold_left f l a.
Proof.
  intros Hskip. revert a. induction l as [|x l IH]; intros a; simpl; [done|].
  destruct (keep x) eqn:E; simpl; [apply IH|].
  rewrite (Hskip a x E). apply IH.
Qed.

Section MasterMore.
Context `{HttpUtils}.

(** The first loop of [build_hls], bucket by bucket. *)
Lemma bucket_profiles_pure request key_id key ps :
  let b := bucket_profiles
             (url_replace_scheme (url_for request "playlist_endpoint")
                                 (get_original_scheme request))
             (opt_truthy (od_get "has_encrypted" (query_params request)))
             key_id key (od_pop "has_encrypted" (query_params request)) ps in
  video_profiles b
  = fold_left (put_rendition is_video_profile request key_id key) ps []
  /\ audio_profiles b
     = fold_left (put_rendition is_audio_profile request key_id key) ps []
  /\ forall a,
       od_update [("profile_id", a); ("key_id", or_empty key_id);
                  ("key", or_empty key)] (carried_query b)
       = od_update [("profile_id", a); ("key_id", or_empty key_id);
                    ("key", or_empty key)]
                   (od_pop "has_encrypted" (query_params request)).
Proof.
  induction ps as [|q ps IH] using rev_ind.
  - done.
  - destruct IH as (IHv & IHa & IHq).
    rewrite !fold_left_app. cbn [fold_left].
    rewrite <- IHv, <- IHa.
    unfold bucket_profiles in *. rewrite fold_left_app. cbn [fold_left].
    set (b := fold_left
                (bucket_step
                   (url_replace_scheme (url_for request "playlist_endpoint")
                      (get_original_scheme request))
                   (opt_truthy (od_get "has_encrypted" (query_params request)))
                   key_id key) ps
                {| video_profiles := []; audio_profiles := [];
                   carried_query :=
                     od_pop "has_encrypted" (query_params request) |}) in *.
    assert (Hurl : encode_mediaflow_proxy_url
                     (url_replace_scheme (url_for request "playlist_endpoint")
                        (get_original_scheme request))
                     (od_update [("profile_id", id q);
                                 ("key_id", or_empty key_id);
                                 ("key", or_empty key)] (carried_query b))
                     (opt_truthy (od_get "has_encrypted" (query_params request)))
                   = rendition_url request key_id key q).
    { unfold rendition_url. by rewrite IHq. }
    unfold bucket_step. rewrite Hurl.
    unfold put_rendition, is_audio_profile, is_video_profile.
    destruct (str_in "video" (mimeType q));
      cbn [video_profiles audio_profiles carried_query negb andb].
    + split_and!; [done|done|].
      intros a. rewrite od_update_rendition_twice. apply IHq.
    + destruct (str_in "audio" (mimeType q));
        cbn [video_profiles audio_profiles carried_query].
      * split_and!; [done|done|].
        intros a. rewrite od_update_rendition_twice. apply IHq.
      * split_and!; [done|done|].
        intros a. rewrite od_update_rendition_twice. apply IHq.
Qed.

Lemma put_rendition_urls sel request key_id key ps (d : odict (Profile * string)) :
  (forall k p u, (k, (p, u)) ∈ d -> u = rendition_url request key_id key p) ->
  forall k p u,
    (k, (p, u)) ∈ fold_left (put_rendition sel request key_id key) ps d ->
    u = rendition_url request key_id key p.
Proof.
  revert d. induction ps as [|q ps IH]; intros d Hd; simpl; [done|].
  apply IH. unfold put_rendition. destruct (sel q); [|done].
  intros k p u Hin. clear IH.
  induction d as [|[k0 [p0 u0]] d IHd]; simpl in Hin.
  - apply list_elem_of_singleton in Hin. by simplify_eq.
  - destruct (String.eqb (id q) k0).
    + apply elem_of_cons in Hin as [Heq|Hin]; [by simplify_eq|].
      apply (Hd k p u). by right.
    + apply elem_of_cons in Hin as [Heq|Hin].
      * injection Heq as -> -> ->. apply (Hd k0 p0 u0). by left.
      * apply IHd; [|done]. intros k' p' u' Hin'. apply (Hd k' p' u').
        by right.
Qed.

Lemma master_buckets_pure mpd_dict request key_id key :
  video_profiles (master_buckets mpd_dict request key_id key)
  = fold_left (put_rendition is_video_profile request key_id key)
      (profiles mpd_dict) []
  /\ audio_profiles (master_buckets mpd_dict request key_id key)
     = fold_left (put_rendition is_audio_profile request key_id key)
         (profiles mpd_dict) [].
Proof.
  destruct (bucket_profiles_pure request key_id key (profiles mpd_dict))
    as (Hv & Ha & _).
  by split.
Qed.

(** X25.  The query dict that [build_hls] updates in place from one
    profile to the next does not carry anything over: each bucket is what
    a loop over the profiles of its kind alone builds, and the URL stored
    with a profile is computed from the request, the keys and the id of
    that profile only. *)
Theorem X25_rendition_urls_do_not_depend_on_order mpd_dict request key_id key :
  let b := master_buckets mpd_dict request key_id key in
  video_profiles b
  = fold_left (put_rendition is_video_profile request key_id key)
      (profiles mpd_dict) []
  /\ audio_profiles b
     = fold_left (put_rendition is_audio_profile request key_id key)
         (profiles mpd_dict) []
  /\ (forall p u, (p, u) ∈ od_values (video_profiles b) ->
                  u = rendition_url request key_id key p)
  /\ (forall p u, (p, u) ∈ od_values (audio_profiles b) ->
                  u = rendition_url request key_id key p).
Proof.
  intros b.
  destruct (master_buckets_pure mpd_dict request key_id key) as [Hv Ha].
  fold b in Hv, Ha.
  split_and!; [done|done| |].
  - intros p u Hin.
    apply list_elem_of_In, in_map_iff in Hin as [[k [p' u']] [Heq Hin]].
    simpl in Heq. simplify_eq. apply list_elem_of_In in Hin.
    rewrite Hv in Hin.
    eapply put_rendition_urls; [|exact Hin].
    intros k' p' u' Hnil. by apply elem_of_nil in Hnil.
  - intros p u Hin.
    apply list_elem_of_In, in_map_iff in Hin as [[k [p' u']] [Heq Hin]].
    simpl in Heq. simplify_eq. apply list_elem_of_In in Hin.
    rewrite Ha in Hin.
    eapply put_rendition_urls; [|exact Hin].
    intros k' p' u' Hnil. by apply elem_of_nil in Hnil.
Qed.

(** X26.  Profiles whose [mimeType] contains neither ["video"] nor
    ["audio"] are ignored: the master manifest is the one of the manifest
    without them. *)
Theorem X26_other_mime_types_are_ignored mpd_dict request key_id key :
  build_hls_lines mpd_dict request key_id key
  = build_hls_lines
      {| isLive := isLive mpd_dict;
         minimumUpdatePeriod := minimumUpdatePeriod mpd_dict;
         profiles :=
           List.filter (fun p => is_video_profile p || is_audio_profile p)
                       (profiles mpd_dict) |}
      request key_id key.
Proof.
  unfold build_hls_lines.
  destruct (master_buckets_pure mpd_dict request key_id key) as [Hv Ha].
  destruct (master_buckets_pure
              {| isLive := isLive mpd_dict;
                 minimumUpdatePeriod := minimumUpdatePeriod mpd_dict;
                 profiles :=
                   List.filter (fun p => is_video_profile p || is_audio_profile p)
                               (profiles mpd_dict) |} request key_id key)
    as [Hv' Ha'].
  cbn [profiles] in Hv', Ha'.
  rewrite Hv, Ha, Hv', Ha'.
  rewrite !fold_left_filter_neutral; [done| |].
  - intros d p Hkeep. apply orb_false_iff in Hkeep as [Hvid Haud].
    unfold put_rendition. by rewrite ?Hvid, ?Haud.
  - intros d p Hkeep. apply orb_false_iff in Hkeep as [Hvid Haud].
    unfold put_rendition. by rewrite ?Hvid, ?Haud.
Qed.

Lemma put_rendition_keys sel request key_id key ps (d : odict (Profile * string)) :
  od_keys (fold_left (put_rendition sel request key_id key) ps d)
  = fold_left (fun acc k => if existsb (String.eqb k) acc then acc
                            else acc ++ [k])
      (map id (List.filter sel ps)) (od_keys d).
Proof.
  revert d. induction ps as [|q ps IH]; intros d; simpl; [done|].
  rewrite IH. unfold put_rendition. destruct (sel q); simpl; [|done].
  by rewrite od_keys_setitem.
Qed.

Lemma bucket_ok_ids sel ps (d : odict (Profile * string)) :
  bucket_ok sel ps d ->
  map (fun pu => id (fst pu)) (od_values d) = od_keys d.
Proof.
  intros [_ Hd]. unfold od_values, od_keys.
  induction d as [|[k [p u]] d IH]; simpl; [done|].
  f_equal.
  - apply (Hd k p u). by left.
  - apply IH. intros k' p' u' Hin. apply (Hd k' p' u'). by right.
Qed.

(** X27.  The renditions of each kind are listed in the order in which
    their ids first occur among the profiles of that kind. *)
Theorem X27_renditions_in_order_of_first_occurrence mpd_dict request key_id key :
  let b := master_buckets mpd_dict request key_id key in
  map (fun pu => id (fst pu)) (od_values (audio_profiles b))
  = first_occurrences
      (map id (List.filter is_audio_profile (profiles mpd_dict)))
  /\ map (fun pu => id (fst pu)) (od_values (video_profiles b))
     = first_occurrences
         (map id (List.filter is_video_profile (profiles mpd_dict))).
Proof.
  intros b.
  destruct (bucket_profiles_ok
              (url_replace_scheme (url_for request "playlist_endpoint")
                 (get_original_scheme request))
              (opt_truthy (od_get "has_encrypted" (query_params request)))
              key_id key (od_pop "has_encrypted" (query_params request))
              (profiles mpd_dict)) as [Hv Ha].
  fold (master_buckets mpd_dict request key_id key) in Hv, Ha. fold b in Hv, Ha.
  rewrite (bucket_ok_ids _ _ _ Hv), (bucket_ok_ids _ _ _ Ha).
  destruct (master_buckets_pure mpd_dict request key_id key) as [Hpv Hpa].
  fold b in Hpv, Hpa. rewrite Hpv, Hpa, !put_rendition_keys. done.
Qed.

(** The values of a dict whose keys determine them. *)
Lemma od_values_by_key {V} (f : string -> option V) (d : odict V) :
  (forall k v, (k, v) ∈ d -> f k = Some v) ->
  od_values d = omap f (od_keys d).
Proof.
  unfold od_values, od_keys.
  induction d as [|[k v] d IH]; intros Hd; simpl; [done|].
  rewrite (Hd k v) by left. f_equal.
  apply IH. intros k' v' Hin. apply Hd. by right.
Qed.

(** Each bucket that [build_hls] fills holds the renditions of its kind. *)
Lemma master_buckets_renditions mpd_dict request key_id key :
  od_values (audio_profiles (master_buckets mpd_dict request key_id key))
  = renditions is_audio_profile request key_id key (profiles mpd_dict)
  /\ od_values (video_profiles (master_buckets mpd_dict request key_id key))
     = renditions is_video_profile request key_id key (profiles mpd_dict).
Proof.
  destruct (bucket_profiles_ok
              (url_replace_scheme (url_for request "playlist_endpoint")
                 (get_original_scheme request))
              (opt_truthy (od_get "has_encrypted" (query_params request)))
              key_id key (od_pop "has_encrypted" (query_params request))
              (profiles mpd_dict)) as [Hv Ha].
  fold (master_buckets mpd_dict request key_id key) in Hv, Ha.
  destruct (master_buckets_pure mpd_dict request key_id key) as [Hpv Hpa].
  assert (Hone : forall sel (d : odict (Profile * string)),
             bucket_ok sel (profiles mpd_dict) d ->
             d = fold_left (put_rendition sel request key_id key)
                   (profiles mpd_dict) [] ->
             od_values d
             = renditions sel request key_id key (profiles mpd_dict)).
  { intros sel d [Hnd Hd] Hfold. unfold renditions.
    assert (Hkeys : od_keys d
                    = first_occurrences
                        (map id (List.filter sel (profiles mpd_dict)))).
    { rewrite Hfold, put_rendition_keys. done. }
    rewrite <- Hkeys. apply od_values_by_key.
    intros k [p u] Hin. destruct (Hd k p u Hin) as [Hid Hlast].
    rewrite Hlast. simpl. do 2 f_equal.
    symmetry.
    apply (put_rendition_urls sel request key_id key (profiles mpd_dict) [])
      with (k := k).
    - intros k' p' u' Hnil. by apply elem_of_nil in Hnil.
    - by rewrite <- Hfold. }
  split; by apply Hone.
Qed.

(** C10, as the code has it.  [build_hls] keeps one bucket per kind, so
    one rendition is emitted per distinct id and kind: the master manifest
    is the preamble, then one [#EXT-X-MEDIA] line for each distinct id
    among the audio profiles, then one [#EXT-X-STREAM-INF] record for each
    distinct id among the video profiles, the ids in the order of their
    first occurrence within the kind.  The rendition emitted for an id is
    the last profile, in input order, of that kind with the id; it is the
    last profile with the id altogether when the profiles that share the id
    are of one kind. *)
Theorem C10_one_rendition_per_id_and_kind mpd_dict request key_id key :
  let ps := profiles mpd_dict in
  let audio := renditions is_audio_profile request key_id key ps in
  let video := renditions is_video_profile request key_id key ps in
  build_hls_lines mpd_dict request key_id key
  = ["#EXTM3U"; "#EXT-X-VERSION:6"]
      ++ imap audio_line audio ++ flat_map video_lines video
  /\ map (fun pu => id (fst pu)) audio
     = first_occurrences (map id (List.filter is_audio_profile ps))
  /\ map (fun pu => id (fst pu)) video
     = first_occurrences (map id (List.filter is_video_profile ps))
  /\ NoDup (map (fun pu => id (fst pu)) audio)
  /\ NoDup (map (fun pu => id (fst pu)) video)
  /\ length (imap audio_line audio) = length audio
  /\ length (flat_map video_lines video) = (2 * length video)%nat
  /\ (forall p u, (p, u) ∈ audio ->
        last_with is_audio_profile (id p) ps = Some p
        /\ u = rendition_url request key_id key p)
  /\ (forall p u, (p, u) ∈ video ->
        last_with is_video_profile (id p) ps = Some p
        /\ u = rendition_url request key_id key p)
  /\ (forall p u, (p, u) ∈ audio ->
        (forall q, q ∈ ps -> id q = id p -> is_audio_profile q = true) ->
        last_of_id (id p) ps = Some p)
  /\ (forall p u, (p, u) ∈ video ->
        (forall q, q ∈ ps -> id q = id p -> is_video_profile q = true) ->
        last_of_id (id p) ps = Some p).
Proof.
  intros ps audio video.
  destruct (master_buckets_renditions mpd_dict request key_id key)
    as [Hra Hrv].
  fold ps in Hra, Hrv. fold audio in Hra. fold video in Hrv.
  destruct (bucket_profiles_ok
              (url_replace_scheme (url_for request "playlist_endpoint")
                 (get_original_scheme request))
              (opt_truthy (od_get "has_encrypted" (query_params request)))
              key_id key (od_pop "has_encrypted" (query_params request))
              (profiles mpd_dict)) as [Hv Ha].
  fold (master_buckets mpd_dict request key_id key) in Hv, Ha.
  pose proof (bucket_ok_ids _ _ _ Hv) as Hidv.
  pose proof (bucket_ok_ids _ _ _ Ha) as Hida.
  apply bucket_ok_values in Hv as [Hv1 Hv2].
  apply bucket_ok_values in Ha as [Ha1 Ha2].
  destruct (master_buckets_pure mpd_dict request key_id key) as [Hpv Hpa].
  rewrite Hra in Ha1, Ha2, Hida. rewrite Hrv in Hv1, Hv2, Hidv.
  assert (Hurl : forall sel p u,
             (p, u) ∈ renditions sel request key_id key ps ->
             u = rendition_url request key_id key p).
  { intros sel p u Hin. unfold renditions in Hin.
    apply list_elem_of_omap in Hin as (i & _ & Hi).
    destruct (last_with sel i ps) as [p'|]; simpl in Hi; by simplify_eq. }
  split_and!.
  - unfold build_hls_lines. by rewrite Hra, Hrv.
  - rewrite Hida, Hpa. apply put_rendition_keys.
  - rewrite Hidv, Hpv. apply put_rendition_keys.
  - done.
  - done.
  - apply length_imap.
  - clear. induction video as [|[p u] video IH]; simpl; [done|].
    rewrite IH. lia.
  - intros p u Hin. split; [by apply (Ha2 p u)|].
    by apply (Hurl is_audio_profile p u).
  - intros p u Hin. split; [by apply (Hv2 p u)|].
    by apply (Hurl is_video_profile p u).
  - intros p u Hin Hall.
    rewrite <- (last_with_all_of_kind _ _ _ Hall). by apply (Ha2 p u).
  - intros p u Hin Hall.
    rewrite <- (last_with_all_of_kind _ _ _ Hall). by apply (Hv2 p u).
Qed.

End MasterMore.

(** The profiles ["b"], ["a"], ["b"] (all video) give the renditions
    ["b"], ["a"], the first with the attributes of the last ["b"]. *)
Lemma build_hls_order_example :
  let v i bw := {| id := i; mimeType := "video/mp4"; bandwidth := AInt bw;
                   width := AInt 1280; height := AInt 720;
                   codecs := AStr "avc1"; frameRate := AStr "30";
                   lang := None; initUrl := "init.mp4"; segments := [] |} in
  let b := @master_buckets ref_http_utils
             (example_vod [v "b" 1; v "a" 2; v "b" 3]) example_request None None in
  map (fun pu => (id (fst pu), bandwidth (fst pu))) (od_values (video_profiles b))
  = [("b", AInt 3); ("a", AInt 2)].
Proof. vm_compute. reflexivity. Qed.

(** C10, the claim as stated fails.  An audio profile and a video profile
    share the id ["x"].  The master manifest holds two renditions for that
    id, one [#EXT-X-MEDIA] line and one [#EXT-X-STREAM-INF] record, and
    the audio rendition is that of the first profile, which is not the
    last occurrence of the id in input order. *)
Lemma C10_same_id_in_both_kinds_gives_two_renditions :
  let mpd := example_vod [example_audio_x; example_video_x] in
  last_of_id "x" (profiles mpd) = Some example_video_x
  /\ @build_hls_lines ref_http_utils mpd example_request None None
     = ["#EXTM3U"; "#EXT-X-VERSION:6";
        "#EXT-X-MEDIA:TYPE=AUDIO,GROUP-ID=" +:+ dq +:+ "audio" +:+ dq
          +:+ ",NAME=" +:+ dq +:+ "x" +:+ dq
          +:+ ",DEFAULT=YES,AUTOSELECT=YES,LANGUAGE=" +:+ dq +:+ "en" +:+ dq
          +:+ ",URI=" +:+ dq +:+ "/playlist_endpoint?profile_id=x&key_id=&key="
          +:+ dq;
        "#EXT-X-STREAM-INF:BANDWIDTH=2000000,RESOLUTION=1920x1080,CODECS="
          +:+ dq +:+ "avc1.640028" +:+ dq +:+ ",FRAME-RATE=30,AUDIO="
          +:+ dq +:+ "audio" +:+ dq;
        "/playlist_endpoint?profile_id=x&key_id=&key="]
  /\ @renditions ref_http_utils is_audio_profile example_request None None
       (profiles mpd)
     = [(example_audio_x, "/playlist_endpoint?profile_id=x&key_id=&key=")].
Proof. vm_compute. repeat split; reflexivity. Qed.

(** ** When build_hls_playlist raises *)

Section PlaylistRaises.
Context `{HttpUtils}.





(** X24.  The [#EXTINF] duration of a segment.  A finite float is written
    as an optional minus sign (there for a negative duration, and never
    for a positive one), a decimal numeral, a point and exactly three
    digits, and the number these digits denote is within half a thousandth
    of the magnitude of the duration.  An int below 2^53 in magnitude is
    written as the int followed by [.000].  An int of magnitude
    [2^1024 - 2^970] or more cannot be written: [float()] raises
    [OverflowError]. *)
Theorem X24_extinf_line_has_three_decimals (s : Segment) :
  (forall q, extinf s = Some (PNum (Fin q)) ->
     exists sign whole frac W F,
       format_extinf s = Ok (sign +:+ whole +:+ "." +:+ frac)
       /\ (sign = "" \/ sign = "-")
       /\ ((q < 0)%Q -> sign = "-")
       /\ (sign = "-" -> (q <= 0)%Q)
       /\ String.length frac = 3%nat
       /\ Z_of_str whole = Some W /\ Z_of_str frac = Some F
       /\ 0 <= W /\ 0 <= F < 1000
       /\ (Qabs (inject_Z W + inject_Z F * (1 # 1000) - Qabs q)
           <= 1 # 2000)%Q)
  /\ (forall z, extinf s = Some (PInt z) -> Z.abs z < 2 ^ 53 ->
        format_extinf s = Ok (str_of_Z z +:+ ".000"))
  /\ (forall z, extinf s = Some (PInt z) ->
        float_overflow_bound <= Z.abs z ->
        format_extinf s = Raise OverflowError).
Proof.
  split_and!.
  - intros q Hs.
    set (m := Z.abs (round_half_even (q * inject_Z 1000))).
    assert (Hm : 0 <= m) by apply Z.abs_nonneg.
    assert (HF : 0 <= m mod 1000 < 1000) by (apply Z.mod_pos_bound; lia).
    exists (if Qltb q 0 then "-" else ""),
           (str_of_Z (m / 1000)), (pad3 (m mod 1000)), (m / 1000), (m mod 1000).
    split_and!.
    + unfold format_extinf. by rewrite Hs.
    + destruct (Qltb q 0); auto.
    + intros Hq%Qltb_true. by rewrite Hq.
    + destruct (Qltb q 0) eqn:E; [|done].
      intros _. apply Qltb_true in E. lra.
    + by apply pad3_length.
    + apply Z_of_str_of_Z.
    + by apply Z_of_str_pad3.
    + by apply Z.div_pos.
    + lia.
    + lia.
    + apply written_value_close.
  - intros z Hs Hz. unfold format_extinf. rewrite Hs.
    rewrite float_of_int_exact by done. rewrite <- format_3f_int.
    reflexivity.
  - intros z Hs Hz. unfold format_extinf. rewrite Hs.
    by rewrite float_of_int_raises.
Qed.

End PlaylistRaises.

(** X24 at work: 4.5 seconds, the int 7, and the int 10^400. *)
Lemma X24_witness :
  let s := example_segment (Some (PNum (Fin (9 # 2)))) 1 in
  let s7 := example_segment (Some (PInt 7)) 2 in
  let big := example_segment (Some (PInt (10 ^ 400))) 3 in
  extinf s = Some (PNum (Fin (9 # 2)))
  /\ format_extinf s = Ok "4.500"
  /\ (exists whole frac,
        format_extinf s = Ok (whole +:+ "." +:+ frac)
        /\ String.length frac = 3%nat)
  /\ Z.abs 7 < 2 ^ 53
  /\ format_extinf s7 = Ok "7.000"
  /\ float_overflow_bound <= Z.abs (10 ^ 400)
  /\ format_extinf big = Raise OverflowError.
Proof.
  intros s s7 big.
  assert (H7 : Z.abs 7 < 2 ^ 53) by (vm_compute; reflexivity).
  assert (Hbig : float_overflow_bound <= Z.abs (10 ^ 400))
    by (vm_compute; discriminate).
  split; [reflexivity|]. split; [vm_compute; reflexivity|].
  split.
  { destruct (proj1 (X24_extinf_line_has_three_decimals s) (9 # 2)%Q eq_refl)
      as (sign & whole & frac & W & F & W1 & [->| ->] & _ & Hpos & W2 & _).
    - exists whole, frac. split; assumption.
    - exfalso. specialize (Hpos eq_refl). revert Hpos. vm_compute.
      intros Hle. by apply Hle. }
  split; [exact H7|].
  split; [exact (proj1 (proj2 (X24_extinf_line_has_three_decimals s7))
                   7 eq_refl H7)|].
  split; [exact Hbig|].
  exact (proj2 (proj2 (X24_extinf_line_has_three_decimals big))
           (10 ^ 400) eq_refl Hbig).
Defined.
